(** * Avito chat monitor: a shallow embedding of [avito_api.py] and
    [monitor_service.py], and the properties of the monitoring engine.

    The Python code is dynamically typed and works on decoded JSON, so the
    embedding has a type of Python values, the builtins the code applies to
    them (with the exceptions they raise), and a state-and-exception monad
    over the fields of [AvitoChatMonitor] and [AutoReplyManager].  Everything
    the process cannot control (HTTP answers, the clock, the disk, the hash
    order of a [set]) is read from an environment record. *)

From Stdlib Require Import ZArith NArith List String Ascii Floats Lia DecimalString.
From stdpp Require Import gmap list.

Set Warnings "-register-all,-clear-no-such-hyp".
Local Open Scope Z_scope.

(** ** Python values *)

Module Py.

(** A Python [str] is a sequence of Unicode code points. *)
Definition pystr := list N.

Definition lit (s : string) : pystr := map N_of_ascii (list_ascii_of_string s).

(** What [json.loads] produces, plus the [datetime] objects that
    [_process_timestamps] stores next to the numbers it expands.  A [dict]
    keeps insertion order, so it is an association list read at the first
    match. *)
Inductive pyval :=
| PNone
| PBool (b : bool)
| PInt (z : Z)
| PFloat (f : float)
| PStr (s : pystr)
| PList (l : list pyval)
| PDict (d : list (pystr * pyval))
| PDatetime (v : pyval).

Inductive exn :=
| AttributeError
| TypeError
| KeyError
| ValueError
| OverflowError
| OSError
| HTTPError (status : Z)
| ConnectionError
| JSONDecodeError.

(** Result of an expression that may raise. *)
Inductive res (A : Type) :=
| Ok (a : A)
| Raise (e : exn).
Arguments Ok {A} a.
Arguments Raise {A} e.

Definition rbind {A B} (r : res A) (k : A -> res B) : res B :=
  match r with
  | Ok a => k a
  | Raise e => Raise e
  end.

Declare Scope res_scope.
Delimit Scope res_scope with res.
Notation "'do' x <- r ; k" := (rbind r (fun x => k))
  (at level 10, x name, r at level 100, k at level 200) : res_scope.

(** [bool(v)] *)
Definition truthy (v : pyval) : bool :=
  match v with
  | PNone => false
  | PBool b => b
  | PInt z => negb (z =? 0)
  | PFloat f => negb (PrimFloat.eqb f 0%float)
  | PStr s => match s with [] => false | _ => true end
  | PList l => match l with [] => false | _ => true end
  | PDict d => match d with [] => false | _ => true end
  | PDatetime _ => true
  end.

Definition str_eqb (a b : pystr) : bool := bool_decide (a = b).

Fixpoint dict_lookup (k : pystr) (d : list (pystr * pyval)) : option pyval :=
  match d with
  | [] => None
  | (k', v) :: d' => if str_eqb k k' then Some v else dict_lookup k d'
  end.

(** [d[k] = v]: an existing key keeps its position. *)
Fixpoint dict_set (k : pystr) (v : pyval) (d : list (pystr * pyval))
  : list (pystr * pyval) :=
  match d with
  | [] => [(k, v)]
  | (k', v') :: d' =>
      if str_eqb k k' then (k', v) :: d' else (k', v') :: dict_set k v d'
  end.

Definition is_dict (v : pyval) : bool :=
  match v with PDict _ => true | _ => false end.

Definition is_list (v : pyval) : bool :=
  match v with PList _ => true | _ => false end.

(** [o.get(k, default)]: only a [dict] has the method. *)
Definition py_get (o : pyval) (k : pystr) (default : pyval) : res pyval :=
  match o with
  | PDict d => Ok (match dict_lookup k d with Some v => v | None => default end)
  | _ => Raise AttributeError
  end.

(** [o[k]] for a string key. *)
Definition py_getitem (o : pyval) (k : pystr) : res pyval :=
  match o with
  | PDict d => match dict_lookup k d with Some v => Ok v | None => Raise KeyError end
  | _ => Raise TypeError
  end.

(** [v == s] for a string literal [s]. *)
Definition is_str (v : pyval) (s : pystr) : bool :=
  match v with PStr t => str_eqb t s | _ => false end.

Fixpoint starts_with (p s : pystr) : bool :=
  match p, s with
  | [], _ => true
  | _ :: _, [] => false
  | a :: p', b :: s' => (a =? b)%N && starts_with p' s'
  end.

(** [p in s] on strings. *)
Fixpoint str_contains (p s : pystr) : bool :=
  starts_with p s
  || match s with [] => false | _ :: s' => str_contains p s' end.

(** [k in o] for a string [k]. *)
Definition py_contains (k : pystr) (o : pyval) : res bool :=
  match o with
  | PDict d => Ok (match dict_lookup k d with Some _ => true | None => false end)
  | PList l => Ok (existsb (fun v => is_str v k) l)
  | PStr s => Ok (str_contains k s)
  | _ => Raise TypeError
  end.

(** [len(o)] *)
Definition py_len (o : pyval) : res nat :=
  match o with
  | PList l => Ok (length l)
  | PDict d => Ok (length d)
  | PStr s => Ok (length s)
  | _ => Raise TypeError
  end.

(** [for x in o]: a dict yields its keys, a string its characters. *)
Definition py_iter (o : pyval) : res (list pyval) :=
  match o with
  | PList l => Ok l
  | PDict d => Ok (map (fun kv => PStr (fst kv)) d)
  | PStr s => Ok (map (fun c => PStr [c]) s)
  | _ => Raise TypeError
  end.

(** [s[-n:]] and [s[:n]] on sequences. *)
Definition last_n {A} (n : nat) (l : list A) : list A :=
  skipn (length l - n) l.

(** [o[:n]] only checks that [o] can be sliced; the slice itself goes to a
    log line.  A [dict] refuses a slice key ([TypeError] before Python 3.12,
    [KeyError] from 3.12 on). *)
Definition py_slice_ok (o : pyval) : res unit :=
  match o with
  | PStr _ | PList _ => Ok tt
  | _ => Raise TypeError
  end.

(** Characters for which [str.isspace] holds; [str.strip()] removes them. *)
Definition is_space (c : N) : bool :=
  ((9 <=? c) && (c <=? 13) || (28 <=? c) && (c <=? 32)
   || (c =? 133) || (c =? 160) || (c =? 5760)
   || (8192 <=? c) && (c <=? 8202)
   || (c =? 8232) || (c =? 8233) || (c =? 8239) || (c =? 8287)
   || (c =? 12288))%N.

Fixpoint lstrip (s : pystr) : pystr :=
  match s with
  | [] => []
  | c :: s' => if is_space c then lstrip s' else s
  end.

Definition str_strip (s : pystr) : pystr := rev (lstrip (rev (lstrip s))).

(** [o.strip()] *)
Definition py_strip (o : pyval) : res pystr :=
  match o with
  | PStr s => Ok (str_strip s)
  | _ => Raise AttributeError
  end.

Definition str_of_Z (z : Z) : pystr := lit (NilZero.string_of_int (Z.to_int z)).

End Py.
Export Py.

Local Open Scope res_scope.

(** ** Configuration ([config.py]) *)

Module Config.

Definition AUTO_REPLY_ENABLED : bool := true.
Definition AUTO_REPLY_DELAY_MS : Z := 2000.
Definition CHECK_INTERVAL : Z := 30.
Definition MAX_CHATS : nat := 200.
Definition BATCH_SIZE : nat := 50.

(** The five phrases of [SYSTEM_MESSAGES], as code points (the Cyrillic
    words are outside ASCII; "api" is 97, 112, 105). *)
Definition SYSTEM_MESSAGES : list pystr :=
  [ [1087; 1077; 1088; 1077; 1081; 1076; 1080; 1090; 1077; 32; 1085; 1072; 32;
     1087; 1086; 1076; 1087; 1080; 1089; 1082; 1091; 32; 1089; 32; 97; 112;
     105; 32; 1084; 1077; 1089; 1089; 1077; 1085; 1076; 1078; 1077; 1088; 1072];
    [1087; 1086; 1076; 1087; 1080; 1089; 1082; 1072; 32; 1089; 32; 97; 112;
     105; 32; 1084; 1077; 1089; 1089; 1077; 1085; 1076; 1078; 1077; 1088; 1072];
    [1095; 1090; 1086; 1073; 1099; 32; 1087; 1086; 1083; 1091; 1095; 1080;
     1090; 1100; 32; 1076; 1086; 1089; 1090; 1091; 1087; 32; 1082; 32; 1095;
     1072; 1090; 1072; 1084];
    [97; 112; 105; 32; 1084; 1077; 1089; 1089; 1077; 1085; 1076; 1078; 1077;
     1088; 1072];
    [1087; 1086; 1076; 1087; 1080; 1089; 1082; 1072; 32; 97; 112; 105; 32;
     1084; 1077; 1089; 1089; 1077; 1085; 1076; 1078; 1077; 1088; 1072] ]%N.

End Config.
Export Config.

(** ** The environment *)

(** How one [with open(path, 'w') as f: json.dump(data, f)] ends.  [open]
    empties the file before anything is written, so a dump that fails
    after it leaves a file that [json.load] cannot read. *)
Inductive write_result :=
| Written      (* the file holds the dumped data *)
| NotOpened    (* [open] raised: the file is as it was *)
| Truncated.   (* [open] emptied the file, then the dump raised *)

(** How one HTTP request ends, as the code tells the cases apart. *)
Inductive http_result :=
| HttpOk (body : pyval)   (* 2xx, and [response.json()] decodes the body *)
| HttpBadBody             (* 2xx, and [response.json()] raises *)
| HttpStatus (code : Z)   (* [raise_for_status()] raises [HTTPError] *)
| HttpFail.               (* no answer: connection error or timeout *)

Record Env := {
  (** answer to the n-th HTTP request the process makes *)
  net : nat -> http_result;
  (** n-th reading of [datetime.datetime.now()] among those that reach the
      token cache, the state file or the snapshot (readings that only stamp
      a log line or a statistic are not followed), in microseconds since
      [datetime.min] *)
  clock : nat -> Z;
  (** how the n-th [open(..., 'w')] and the dump that follows end *)
  disk : nat -> write_result;
  (** [str.lower] (the Unicode case tables) *)
  str_lower : pystr -> pystr;
  (** [str(v)] on floats, lists, dicts and datetimes *)
  py_repr : pyval -> pystr;
  (** [strftime] of [fromtimestamp(v)] in the local time zone *)
  strftime_formatted : pyval -> pystr;
  strftime_human : pyval -> pystr;
  (** whether [fromtimestamp(v)] returns *)
  fromtimestamp_ok : pyval -> bool;
  isoformat : Z -> pystr;
  strftime_now : Z -> pystr;
  (** the order in which [list(s)] enumerates a set: the hash order *)
  set_order : gset pystr -> list pystr;
  (** microseconds of [timedelta(seconds=f)] for a float, when it returns *)
  timedelta_float : float -> option Z
}.

(** ** Message classification and user names *)

Section Classifier.

Variable E : Env.

(** [str(v)] *)
Definition py_str (v : pyval) : pystr :=
  match v with
  | PNone => lit "None"
  | PBool true => lit "True"
  | PBool false => lit "False"
  | PInt z => str_of_Z z
  | PStr s => s
  | _ => py_repr E v
  end.

Definition is_system_message (text : pyval) : res bool :=
  if negb (truthy text) then Ok false
  else match text with
       | PStr s =>
           let text_lower := str_lower E s in
           Ok (existsb (fun phrase => str_contains phrase text_lower)
                 SYSTEM_MESSAGES)
       | _ => Raise AttributeError
       end.

(** The loop over [users]: the first dict whose ['name'] is truthy and not
    blank wins; a truthy name without [strip] raises. *)
Fixpoint first_user_name (users : list pyval) : res (option pystr) :=
  match users with
  | [] => Ok None
  | user :: rest =>
      if is_dict user then
        do name <- py_get user (lit "name") (PDict []);
        if truthy name then
          do stripped <- py_strip name;
          match stripped with
          | [] => first_user_name rest
          | _ => Ok (Some stripped)
          end
        else first_user_name rest
      else first_user_name rest
  end.

(** The body of the [try] block: [Some] when one of its [return]s is taken. *)
Definition extract_user_name_try (chat_data : pyval) : res (option pystr) :=
  do users <- py_get chat_data (lit "users") (PList []);
  do from_users <-
    match users with
    | PList l => if truthy users then first_user_name l else Ok None
    | _ => Ok None
    end;
  match from_users with
  | Some name => Ok (Some name)
  | None =>
      do name <- py_get chat_data (lit "name") PNone;
      do chat_name <-
        (if truthy name then Ok name else py_get chat_data (lit "title") PNone);
      do from_chat <-
        (if truthy chat_name then
           do stripped <- py_strip chat_name;
           match stripped with
           | [] => Ok None
           | _ => Ok (Some stripped)
           end
         else Ok None);
      match from_chat with
      | Some name => Ok (Some name)
      | None =>
          do context <- py_get chat_data (lit "context") (PDict []);
          if truthy context then
            do item_title <- py_get context (lit "item_title") PNone;
            if truthy item_title then
              do stripped <- py_strip item_title;
              match stripped with
              | [] => Ok None
              | _ => Ok (Some (lit "User from: " ++ stripped))
              end
            else Ok None
          else Ok None
      end
  end.

(** The code after the [try]: the name synthesized from the chat id. *)
Definition user_name_from_id (chat_data : pyval) : res pystr :=
  do id <- py_get chat_data (lit "id") (PStr []);
  let chat_id := py_str id in
  if truthy (PStr chat_id) && (10 <? length chat_id)%nat
  then Ok (lit "User_" ++ last_n 8 chat_id)
  else Ok (lit "Unknown User").

Definition extract_user_name (chat_data : pyval) : res pystr :=
  match extract_user_name_try chat_data with
  | Ok (Some name) => Ok name
  | Ok None => user_name_from_id chat_data
  | Raise _ => user_name_from_id chat_data   (* except Exception: logged *)
  end.

End Classifier.

(** ** The state of the process *)

(** Messages kept in [stats['last_error']]: the text around the exception. *)
Inductive error_msg :=
| InvalidCredentials                (* "Invalid credentials" *)
| ErrAccessToken (e : exn)          (* "Error getting access token: ..." *)
| ErrGetChats (e : exn)             (* "Error getting chats: ..." *)
| ErrUnreadMessages (e : exn)       (* "Error getting unread messages: ..." *)
| ErrPagination (e : exn)           (* "Error in pagination: ..." *)
| ErrSaveFile (e : exn)             (* "Error saving to file: ..." *)
| ErrCheckForUpdates (e : exn).     (* "Error in check_for_updates: ..." *)

Record user_seen := { seen_name : pystr; seen_is_system : bool }.

(** [AvitoChatMonitor.stats], without its time stamps. *)
Record stats_t := {
  total_checks : nat;
  total_unread_messages : nat;
  total_auto_replies : nat;
  total_system_messages : nat;
  total_regular_messages : nat;
  last_unread_count : nat;
  last_error : option error_msg;
  last_user_names : list user_seen
}.

(** A file on disk: missing, unreadable as JSON, or holding a value. *)
Inductive file :=
| Absent
| Corrupt
| Holds (v : pyval).

(** What the process does to the outside, newest first.  [SendCall] marks
    an entry into [send_auto_reply] and [ReplySent] the point where it logs
    "Auto-reply sent successfully"; the others are the HTTP requests and the
    pause between two replies. *)
Inductive event :=
| TokenRequest
| ChatsRequest (limit offset : nat) (unread_only : bool)
| SendCall (chat_id user_name : pystr)
| SendRequest (chat_id : pystr)
| ReplySent (chat_id : pystr)
| ReplyDelay.

(** The fields of the [AvitoChatMonitor] instance, those of its
    [auto_reply_manager] ([mgr_access_token], [mgr_token_expires],
    [sent_replies]), the two files, and how much of the environment has
    been consumed. *)
Record world := {
  access_token : pyval;
  token_expires : option Z;
  auto_reply_enabled : bool;
  processed_message_ids : gset pystr;
  stats : stats_t;
  mgr_access_token : pyval;
  mgr_token_expires : option Z;
  sent_replies : gset pystr;
  state_file : file;
  json_file : file;
  net_calls : nat;
  clock_reads : nat;
  disk_writes : nat;
  trace : list event
}.

Definition set_total_checks (x : nat) (s : stats_t) : stats_t :=
  {| total_checks := x; total_unread_messages := total_unread_messages s; total_auto_replies := total_auto_replies s; total_system_messages := total_system_messages s; total_regular_messages := total_regular_messages s; last_unread_count := last_unread_count s; last_error := last_error s; last_user_names := last_user_names s |}.

Definition set_total_unread_messages (x : nat) (s : stats_t) : stats_t :=
  {| total_checks := total_checks s; total_unread_messages := x; total_auto_replies := total_auto_replies s; total_system_messages := total_system_messages s; total_regular_messages := total_regular_messages s; last_unread_count := last_unread_count s; last_error := last_error s; last_user_names := last_user_names s |}.

Definition set_total_auto_replies (x : nat) (s : stats_t) : stats_t :=
  {| total_checks := total_checks s; total_unread_messages := total_unread_messages s; total_auto_replies := x; total_system_messages := total_system_messages s; total_regular_messages := total_regular_messages s; last_unread_count := last_unread_count s; last_error := last_error s; last_user_names := last_user_names s |}.

Definition set_total_system_messages (x : nat) (s : stats_t) : stats_t :=
  {| total_checks := total_checks s; total_unread_messages := total_unread_messages s; total_auto_replies := total_auto_replies s; total_system_messages := x; total_regular_messages := total_regular_messages s; last_unread_count := last_unread_count s; last_error := last_error s; last_user_names := last_user_names s |}.

Definition set_total_regular_messages (x : nat) (s : stats_t) : stats_t :=
  {| total_checks := total_checks s; total_unread_messages := total_unread_messages s; total_auto_replies := total_auto_replies s; total_system_messages := total_system_messages s; total_regular_messages := x; last_unread_count := last_unread_count s; last_error := last_error s; last_user_names := last_user_names s |}.

Definition set_last_unread_count (x : nat) (s : stats_t) : stats_t :=
  {| total_checks := total_checks s; total_unread_messages := total_unread_messages s; total_auto_replies := total_auto_replies s; total_system_messages := total_system_messages s; total_regular_messages := total_regular_messages s; last_unread_count := x; last_error := last_error s; last_user_names := last_user_names s |}.

Definition set_last_error (x : option error_msg) (s : stats_t) : stats_t :=
  {| total_checks := total_checks s; total_unread_messages := total_unread_messages s; total_auto_replies := total_auto_replies s; total_system_messages := total_system_messages s; total_regular_messages := total_regular_messages s; last_unread_count := last_unread_count s; last_error := x; last_user_names := last_user_names s |}.

Definition set_last_user_names (x : list user_seen) (s : stats_t) : stats_t :=
  {| total_checks := total_checks s; total_unread_messages := total_unread_messages s; total_auto_replies := total_auto_replies s; total_system_messages := total_system_messages s; total_regular_messages := total_regular_messages s; last_unread_count := last_unread_count s; last_error := last_error s; last_user_names := x |}.


Definition set_access_token (x : pyval) (w : world) : world :=
  {| access_token := x; token_expires := token_expires w; auto_reply_enabled := auto_reply_enabled w; processed_message_ids := processed_message_ids w; stats := stats w; mgr_access_token := mgr_access_token w; mgr_token_expires := mgr_token_expires w; sent_replies := sent_replies w; state_file := state_file w; json_file := json_file w; net_calls := net_calls w; clock_reads := clock_reads w; disk_writes := disk_writes w; trace := trace w |}.

Definition set_token_expires (x : option Z) (w : world) : world :=
  {| access_token := access_token w; token_expires := x; auto_reply_enabled := auto_reply_enabled w; processed_message_ids := processed_message_ids w; stats := stats w; mgr_access_token := mgr_access_token w; mgr_token_expires := mgr_token_expires w; sent_replies := sent_replies w; state_file := state_file w; json_file := json_file w; net_calls := net_calls w; clock_reads := clock_reads w; disk_writes := disk_writes w; trace := trace w |}.

Definition set_auto_reply_enabled (x : bool) (w : world) : world :=
  {| access_token := access_token w; token_expires := token_expires w; auto_reply_enabled := x; processed_message_ids := processed_message_ids w; stats := stats w; mgr_access_token := mgr_access_token w; mgr_token_expires := mgr_token_expires w; sent_replies := sent_replies w; state_file := state_file w; json_file := json_file w; net_calls := net_calls w; clock_reads := clock_reads w; disk_writes := disk_writes w; trace := trace w |}.

Definition set_processed_message_ids (x : gset pystr) (w : world) : world :=
  {| access_token := access_token w; token_expires := token_expires w; auto_reply_enabled := auto_reply_enabled w; processed_message_ids := x; stats := stats w; mgr_access_token := mgr_access_token w; mgr_token_expires := mgr_token_expires w; sent_replies := sent_replies w; state_file := state_file w; json_file := json_file w; net_calls := net_calls w; clock_reads := clock_reads w; disk_writes := disk_writes w; trace := trace w |}.

Definition set_stats (x : stats_t) (w : world) : world :=
  {| access_token := access_token w; token_expires := token_expires w; auto_reply_enabled := auto_reply_enabled w; processed_message_ids := processed_message_ids w; stats := x; mgr_access_token := mgr_access_token w; mgr_token_expires := mgr_token_expires w; sent_replies := sent_replies w; state_file := state_file w; json_file := json_file w; net_calls := net_calls w; clock_reads := clock_reads w; disk_writes := disk_writes w; trace := trace w |}.

Definition set_mgr_access_token (x : pyval) (w : world) : world :=
  {| access_token := access_token w; token_expires := token_expires w; auto_reply_enabled := auto_reply_enabled w; processed_message_ids := processed_message_ids w; stats := stats w; mgr_access_token := x; mgr_token_expires := mgr_token_expires w; sent_replies := sent_replies w; state_file := state_file w; json_file := json_file w; net_calls := net_calls w; clock_reads := clock_reads w; disk_writes := disk_writes w; trace := trace w |}.

Definition set_mgr_token_expires (x : option Z) (w : world) : world :=
  {| access_token := access_token w; token_expires := token_expires w; auto_reply_enabled := auto_reply_enabled w; processed_message_ids := processed_message_ids w; stats := stats w; mgr_access_token := mgr_access_token w; mgr_token_expires := x; sent_replies := sent_replies w; state_file := state_file w; json_file := json_file w; net_calls := net_calls w; clock_reads := clock_reads w; disk_writes := disk_writes w; trace := trace w |}.

Definition set_sent_replies (x : gset pystr) (w : world) : world :=
  {| access_token := access_token w; token_expires := token_expires w; auto_reply_enabled := auto_reply_enabled w; processed_message_ids := processed_message_ids w; stats := stats w; mgr_access_token := mgr_access_token w; mgr_token_expires := mgr_token_expires w; sent_replies := x; state_file := state_file w; json_file := json_file w; net_calls := net_calls w; clock_reads := clock_reads w; disk_writes := disk_writes w; trace := trace w |}.

Definition set_state_file (x : file) (w : world) : world :=
  {| access_token := access_token w; token_expires := token_expires w; auto_reply_enabled := auto_reply_enabled w; processed_message_ids := processed_message_ids w; stats := stats w; mgr_access_token := mgr_access_token w; mgr_token_expires := mgr_token_expires w; sent_replies := sent_replies w; state_file := x; json_file := json_file w; net_calls := net_calls w; clock_reads := clock_reads w; disk_writes := disk_writes w; trace := trace w |}.

Definition set_json_file (x : file) (w : world) : world :=
  {| access_token := access_token w; token_expires := token_expires w; auto_reply_enabled := auto_reply_enabled w; processed_message_ids := processed_message_ids w; stats := stats w; mgr_access_token := mgr_access_token w; mgr_token_expires := mgr_token_expires w; sent_replies := sent_replies w; state_file := state_file w; json_file := x; net_calls := net_calls w; clock_reads := clock_reads w; disk_writes := disk_writes w; trace := trace w |}.

Definition set_net_calls (x : nat) (w : world) : world :=
  {| access_token := access_token w; token_expires := token_expires w; auto_reply_enabled := auto_reply_enabled w; processed_message_ids := processed_message_ids w; stats := stats w; mgr_access_token := mgr_access_token w; mgr_token_expires := mgr_token_expires w; sent_replies := sent_replies w; state_file := state_file w; json_file := json_file w; net_calls := x; clock_reads := clock_reads w; disk_writes := disk_writes w; trace := trace w |}.

Definition set_clock_reads (x : nat) (w : world) : world :=
  {| access_token := access_token w; token_expires := token_expires w; auto_reply_enabled := auto_reply_enabled w; processed_message_ids := processed_message_ids w; stats := stats w; mgr_access_token := mgr_access_token w; mgr_token_expires := mgr_token_expires w; sent_replies := sent_replies w; state_file := state_file w; json_file := json_file w; net_calls := net_calls w; clock_reads := x; disk_writes := disk_writes w; trace := trace w |}.

Definition set_disk_writes (x : nat) (w : world) : world :=
  {| access_token := access_token w; token_expires := token_expires w; auto_reply_enabled := auto_reply_enabled w; processed_message_ids := processed_message_ids w; stats := stats w; mgr_access_token := mgr_access_token w; mgr_token_expires := mgr_token_expires w; sent_replies := sent_replies w; state_file := state_file w; json_file := json_file w; net_calls := net_calls w; clock_reads := clock_reads w; disk_writes := x; trace := trace w |}.

Definition set_trace (x : list event) (w : world) : world :=
  {| access_token := access_token w; token_expires := token_expires w; auto_reply_enabled := auto_reply_enabled w; processed_message_ids := processed_message_ids w; stats := stats w; mgr_access_token := mgr_access_token w; mgr_token_expires := mgr_token_expires w; sent_replies := sent_replies w; state_file := state_file w; json_file := json_file w; net_calls := net_calls w; clock_reads := clock_reads w; disk_writes := disk_writes w; trace := x |}.

Definition set_error (m : option error_msg) (w : world) : world :=
  set_stats (set_last_error m (stats w)) w.

(** ** Statements that read and write the state and may raise *)

Definition M (A : Type) : Type := world -> res A * world.

Definition ret {A} (a : A) : M A := fun w => (Ok a, w).

Definition raise {A} (e : exn) : M A := fun w => (Raise e, w).

Definition bind {A B} (m : M A) (k : A -> M B) : M B :=
  fun w =>
    match m w with
    | (Ok a, w') => k a w'
    | (Raise e, w') => (Raise e, w')
    end.

(** [try: m  except Exception as e: h e] *)
Definition catch {A} (m : M A) (h : exn -> M A) : M A :=
  fun w =>
    match m w with
    | (Ok a, w') => (Ok a, w')
    | (Raise e, w') => h e w'
    end.

Definition liftR {A} (r : res A) : M A := fun w => (r, w).

Definition gets {A} (f : world -> A) : M A := fun w => (Ok (f w), w).

Definition modify (f : world -> world) : M unit := fun w => (Ok tt, f w).

Notation "'perform' x <- m ; k" := (bind m (fun x => k))
  (at level 10, x name, m at level 100, k at level 200).

Definition emit (e : event) : M unit :=
  modify (fun w => set_trace (e :: trace w) w).

Section Effects.

Variable E : Env.

(** [datetime.datetime.now()] *)
Definition now : M Z :=
  fun w => (Ok (clock E (clock_reads w)), set_clock_reads (S (clock_reads w)) w).

(** One HTTP request: the event is recorded and the next answer consumed. *)
Definition request (e : event) : M http_result :=
  fun w =>
    (Ok (net E (net_calls w)),
     set_trace (e :: trace w) (set_net_calls (S (net_calls w)) w)).

(** [response.raise_for_status(); response.json()] *)
Definition response_json (r : http_result) : res pyval :=
  match r with
  | HttpOk body => Ok body
  | HttpBadBody => Raise JSONDecodeError
  | HttpStatus code => Raise (HTTPError code)
  | HttpFail => Raise ConnectionError
  end.

(** [state = {}], replaced by [json.load(f)] when the state file exists. *)
Definition load_state : M pyval :=
  fun w =>
    match state_file w with
    | Absent => (Ok (PDict []), w)
    | Corrupt => (Raise JSONDecodeError, w)
    | Holds v => (Ok v, w)
    end.

(** [o[k] = v] *)
Definition py_setitem (o : pyval) (k : pystr) (v : pyval) : res pyval :=
  match o with
  | PDict d => Ok (PDict (dict_set k v d))
  | _ => Raise TypeError
  end.

(** [with open(STATE_FILENAME, 'w') as f: json.dump(state, f)] *)
Definition dump_state (state : pyval) : M unit :=
  fun w =>
    let w' := set_disk_writes (S (disk_writes w)) w in
    match disk E (disk_writes w) with
    | Written => (Ok tt, set_state_file (Holds state) w')
    | NotOpened => (Raise OSError, w')
    | Truncated => (Raise OSError, set_state_file Corrupt w')
    end.

(** [with open(JSON_FILENAME, 'w') as f: json.dump(all_chats, f)] *)
Definition dump_chats (all_chats : pyval) : M unit :=
  fun w =>
    let w' := set_disk_writes (S (disk_writes w)) w in
    match disk E (disk_writes w) with
    | Written => (Ok tt, set_json_file (Holds all_chats) w')
    | NotOpened => (Raise OSError, w')
    | Truncated => (Raise OSError, set_json_file Corrupt w')
    end.

(** [list(s)] for a set of strings *)
Definition list_of_set (s : gset pystr) : list pyval :=
  map PStr (set_order E s).

(** The arithmetic of [datetime.now() + timedelta(seconds=expires_in - 300)].
    Times are microseconds since [datetime.min]; [datetime.max] is the last
    microsecond of year 9999 and a [timedelta] holds at most 999999999 days. *)
Definition DATETIME_MAX : Z := 3652059 * 86400000000 - 1.

Definition py_sub_300 (v : pyval) : res pyval :=
  match v with
  | PInt n => Ok (PInt (n - 300))
  | PBool b => Ok (PInt ((if b then 1 else 0) - 300))
  | PFloat f => Ok (PFloat (PrimFloat.sub f 300%float))
  | _ => Raise TypeError
  end.

Definition timedelta_seconds (v : pyval) : res Z :=
  match v with
  | PInt n =>
      if (-999999999 <=? n / 86400) && (n / 86400 <=? 999999999)
      then Ok (n * 1000000) else Raise OverflowError
  | PFloat f =>
      match timedelta_float E f with
      | Some d => Ok d
      | None => Raise OverflowError
      end
  | _ => Raise TypeError
  end.

Definition datetime_add (t d : Z) : res Z :=
  if (0 <=? t + d) && (t + d <=? DATETIME_MAX) then Ok (t + d)
  else Raise OverflowError.

End Effects.

(** ** Messages *)

(** The dict built by [get_unread_messages] for a new message.  Its
    ['direction'] is always ['in'] and its ['is_unread'] always [True]. *)
Record message := {
  chat_id : pystr;
  message_id : pystr;
  text : pyval;
  created : pyval;
  created_timestamp : pyval;
  is_system : bool;
  user_name : pystr
}.

(** An entry of the list returned by [process_auto_replies]. *)
Record sent_reply := {
  sr_chat_id : pystr;
  sr_user_name : pystr;
  sr_message_id : pyval;
  sr_original_message_id : pystr
}.

Inductive send_error :=
| TokenError (e : exn)      (* {"error": "Token error: ..."} *)
| SendingError (e : exn).   (* {"error": "... error sending to ...: ..."} *)

(** What [send_auto_reply] returns: [{"status": "already_replied"}], a dict
    with the key ["error"], or the decoded answer of the remote. *)
Inductive send_result :=
| AlreadyReplied
| SendError (err : send_error)
| SendResponse (body : pyval).

(** ** [class AutoReplyManager] *)

Module AutoReplyManager.
Section Methods.

Variable E : Env.

Definition _save_sent_replies : M unit :=
  catch
    (perform state <- load_state;
     perform replied <- gets sent_replies;
     perform state1 <-
       liftR (py_setitem state (lit "sent_replies") (PList (list_of_set E replied)));
     perform t <- now E;
     perform state2 <-
       liftR (py_setitem state1 (lit "last_updated") (PStr (isoformat E t)));
     dump_state E state2)
    (fun _ => ret tt).

(** The exchange at the token endpoint, after the cache was found unusable. *)
Definition refresh_token : M pyval :=
  perform r <- request E TokenRequest;
  perform token_data <- liftR (response_json r);
  perform tok <- liftR (py_getitem token_data (lit "access_token"));
  perform _ <- modify (set_mgr_access_token tok);
  perform expires_in <- liftR (py_get token_data (lit "expires_in") (PInt 86400));
  perform t <- now E;
  perform secs <- liftR (py_sub_300 expires_in);
  perform d <- liftR (timedelta_seconds E secs);
  perform e <- liftR (datetime_add t d);
  perform _ <- modify (set_mgr_token_expires (Some e));
  ret tok.

Definition get_access_token (force_refresh : bool) : M pyval :=
  perform tok <- gets mgr_access_token;
  perform expires <- gets mgr_token_expires;
  perform fresh <-
    (if negb force_refresh && truthy tok then
       match expires with
       | Some e => perform t <- now E; ret (t <? e)
       | None => ret false
       end
     else ret false);
  if fresh then ret tok else refresh_token.

Definition send_auto_reply (chat_id user_name : pystr) : M send_result :=
  perform _ <- emit (SendCall chat_id user_name);
  perform replied <- gets sent_replies;
  if bool_decide (chat_id ∈ replied) then ret AlreadyReplied
  else
    perform token <-
      catch (perform t <- get_access_token false; ret (inl t))
            (fun e => ret (inr e));
    match token with
    | inr e => ret (SendError (TokenError e))
    | inl _ =>
        perform r <- request E (SendRequest chat_id);
        match response_json r with
        | Ok result =>
            perform _ <-
              modify (fun w => set_sent_replies ({[chat_id]} ∪ sent_replies w) w);
            perform _ <- _save_sent_replies;
            perform _ <- emit (ReplySent chat_id);
            ret (SendResponse result)
        | Raise e => ret (SendError (SendingError e))
        end
    end.

(** What the loop of [process_auto_replies] does with one result: the
    reply is appended to [sent_replies] when the result has no ["error"]
    and its ["status"] is not ["already_replied"]. *)
Definition record_result (message : message) (result : send_result)
    (sent : list sent_reply) : res (list sent_reply) :=
  match result with
  | AlreadyReplied => Ok sent
  | SendError _ => Ok sent
  | SendResponse body =>
      do has_error <- py_contains (lit "error") body;
      if has_error then
        do _ <- py_getitem body (lit "error");
        Ok sent
      else
        do status <- py_get body (lit "status") PNone;
        if is_str status (lit "already_replied") then Ok sent
        else
          do id <- py_get body (lit "id") PNone;
          Ok (sent ++ [ {| sr_chat_id := chat_id message;
                           sr_user_name := user_name message;
                           sr_message_id := id;
                           sr_original_message_id := message_id message |} ])
  end.

(** [for i, message in enumerate(regular_messages, 1)] *)
Fixpoint reply_loop (regular_messages : list message) (sent : list sent_reply)
  : M (list sent_reply) :=
  match regular_messages with
  | [] => ret sent
  | message :: rest =>
      (* the log line slices [message_text[:60]] *)
      perform _ <- liftR (py_slice_ok (text message));
      perform result <- send_auto_reply (chat_id message) (user_name message);
      perform sent' <- liftR (record_result message result sent);
      perform _ <- (match rest with [] => ret tt | _ => emit ReplyDelay end);
      reply_loop rest sent'
  end.

Definition process_auto_replies (unread_messages : list message)
  : M (list sent_reply) :=
  match unread_messages with
  | [] => ret []
  | _ =>
      let regular_messages :=
        List.filter (fun msg => negb (is_system msg)) unread_messages in
      match regular_messages with
      | [] => ret []
      | _ => reply_loop regular_messages []
      end
  end.

End Methods.
End AutoReplyManager.

(** ** [class AvitoChatMonitor] *)

(** How the paging loop of [get_all_chats] ends: by one of its [break]s, by
    an exception caught around the loop (the chats appended so far are
    kept), or, in the embedding only, by exhausting the iteration budget. *)
Inductive paging_end :=
| Finished (all_chats : list pyval)
| Aborted (all_chats : list pyval) (e : exn)
| OutOfFuel.

Inductive page_step :=
| Continue (all_chats : list pyval)
| Stop (outcome : paging_end).

Module AvitoChatMonitor.
Section Methods.

Variable E : Env.

Definition _save_processed_ids : M unit :=
  catch
    (perform state <- load_state;
     perform ids <- gets processed_message_ids;
     perform state1 <-
       liftR (py_setitem state (lit "processed_message_ids")
                (PList (list_of_set E ids)));
     perform t <- now E;
     perform state2 <-
       liftR (py_setitem state1 (lit "last_updated") (PStr (isoformat E t)));
     perform state3 <-
       liftR (if (1000 <? length (list_of_set E ids))%nat
              then py_setitem state2 (lit "processed_message_ids")
                     (PList (last_n 1000 (list_of_set E ids)))
              else Ok state2);
     dump_state E state3)
    (fun _ => ret tt).

Definition reset_processed_ids : M unit :=
  perform _ <- modify (set_processed_message_ids ∅);
  _save_processed_ids.

Definition refresh_token : M pyval :=
  perform r <- request E TokenRequest;
  match response_json r with
  | Ok token_data =>
      perform tok <- liftR (py_getitem token_data (lit "access_token"));
      perform _ <- modify (set_access_token tok);
      perform expires_in <-
        liftR (py_get token_data (lit "expires_in") (PInt 86400));
      perform t <- now E;
      perform secs <- liftR (py_sub_300 expires_in);
      perform d <- liftR (timedelta_seconds E secs);
      perform e <- liftR (datetime_add t d);
      perform _ <- modify (set_token_expires (Some e));
      ret tok
  | Raise (HTTPError code) =>
      perform _ <-
        modify (set_error (Some (if code =? 401 then InvalidCredentials
                                 else ErrAccessToken (HTTPError code))));
      raise (HTTPError code)
  | Raise e => raise e
  end.

Definition get_access_token (force_refresh : bool) : M pyval :=
  perform tok <- gets access_token;
  perform expires <- gets token_expires;
  perform fresh <-
    (if negb force_refresh && truthy tok then
       match expires with
       | Some e => perform t <- now E; ret (t <? e)
       | None => ret false
       end
     else ret false);
  if fresh then ret tok else refresh_token.

(** [isinstance(value, (int, float)) and 1_000_000_000 < value < 2_000_000_000];
    a [bool] is an [int], but neither 0 nor 1 is in the range. *)
Definition is_timestamp (value : pyval) : bool :=
  match value with
  | PInt z => (1000000000 <? z) && (z <? 2000000000)
  | PFloat f =>
      PrimFloat.ltb 1000000000%float f && PrimFloat.ltb f 2000000000%float
  | _ => false
  end.

Fixpoint _process_timestamps (data : pyval) : pyval :=
  match data with
  | PDict d =>
      PDict
        ((fix items (d : list (pystr * pyval)) (result : list (pystr * pyval)) :=
            match d with
            | [] => result
            | (key, value) :: d' =>
                items d'
                  (if is_timestamp value then
                     if fromtimestamp_ok E value then
                       dict_set (key ++ lit "_datetime") (PDatetime value)
                         (dict_set (key ++ lit "_human")
                            (PStr (strftime_human E value))
                            (dict_set (key ++ lit "_formatted")
                               (PStr (strftime_formatted E value))
                               (dict_set key value result)))
                     else dict_set key value result
                   else
                     match value with
                     | PDict _ | PList _ =>
                         dict_set key (_process_timestamps value) result
                     | _ => dict_set key value result
                     end)
            end) d [])
  | PList l => PList (map _process_timestamps l)
  | _ => data
  end.

Definition no_chats : pyval := PDict [(lit "chats", PList [])].

(** [limit or BATCH_SIZE] *)
Definition limit_or_batch (limit : option nat) : nat :=
  match limit with
  | Some (S n) => S n
  | _ => BATCH_SIZE
  end.

Definition get_chats (unread_only : bool) (limit : option nat) (offset : nat)
  : M pyval :=
  catch
    (perform token <- get_access_token false;
     perform r <-
       request E (ChatsRequest (limit_or_batch limit) offset unread_only);
     perform chats_data <- liftR (response_json r);
     let processed_data := _process_timestamps chats_data in
     (* the debug line takes [len(processed_data.get('chats', []))] *)
     perform chats <- liftR (py_get processed_data (lit "chats") (PList []));
     perform _ <- liftR (py_len chats);
     ret processed_data)
    (fun e =>
       perform _ <- modify (set_error (Some (ErrGetChats e)));
       ret no_chats).

(** [self.stats['last_user_names'].append(...)], keeping the last 20. *)
Definition note_user_name (name : pystr) (system : bool) (w : world) : world :=
  let names :=
    last_user_names (stats w)
      ++ [ {| seen_name := name; seen_is_system := system |} ] in
  set_stats
    (set_last_user_names
       (if (20 <? length names)%nat then last_n 20 names else names)
       (stats w)) w.

(** The body of [for chat in chats] in [get_unread_messages]; the pair is
    [unread_messages] and [user_names_seen] after the iteration. *)
Definition scan_chat (chat : pyval) (unread_messages : list message)
    (user_names_seen : gset pystr) : M (list message * gset pystr) :=
  let skip := ret (unread_messages, user_names_seen) in
  perform id <- liftR (py_get chat (lit "id") PNone);
  let chat_id := py_str E id in
  if negb (truthy (PStr chat_id)) then skip
  else
    perform user_name <- liftR (extract_user_name E chat);
    perform has_last <- liftR (py_contains (lit "last_message") chat);
    perform msg <-
      (if has_last then liftR (py_getitem chat (lit "last_message"))
       else ret PNone);
    if has_last && truthy msg then
      perform mid <- liftR (py_get msg (lit "id") PNone);
      let message_id := py_str E mid in
      if negb (truthy (PStr message_id)) then skip
      else
        perform read <- liftR (py_get msg (lit "read") (PBool false));
        perform direction <- liftR (py_get msg (lit "direction") PNone);
        let is_unread := negb (truthy read) in
        let is_incoming := is_str direction (lit "in") in
        if is_unread && is_incoming then
          perform content <- liftR (py_get msg (lit "content") (PDict []));
          perform message_text <- liftR (py_get content (lit "text") (PStr []));
          perform is_system <- liftR (is_system_message E message_text);
          perform processed <- gets processed_message_ids;
          if bool_decide (message_id ∈ processed) then skip
          else
            perform created <-
              liftR (py_get msg (lit "created_formatted") (PStr []));
            perform created_timestamp <-
              liftR (py_get msg (lit "created") (PInt 0));
            let message_data :=
              {| chat_id := chat_id;
                 message_id := message_id;
                 text := message_text;
                 created := created;
                 created_timestamp := created_timestamp;
                 is_system := is_system;
                 user_name := user_name |} in
            perform _ <-
              modify (fun w =>
                set_processed_message_ids
                  ({[message_id]} ∪ processed_message_ids w) w);
            perform _ <-
              (if bool_decide (user_name ∈ user_names_seen) then ret tt
               else modify (note_user_name user_name is_system));
            ret (unread_messages ++ [message_data],
                 {[user_name]} ∪ user_names_seen)
        else skip
    else skip.

Fixpoint scan_chats (chats : list pyval) (unread_messages : list message)
    (user_names_seen : gset pystr) : M (list message) :=
  match chats with
  | [] => ret unread_messages
  | chat :: rest =>
      perform p <- scan_chat chat unread_messages user_names_seen;
      scan_chats rest (fst p) (snd p)
  end.

Definition get_unread_messages : M (list message) :=
  catch
    (perform chats_data <- get_chats false None 0;
     perform chats <- liftR (py_get chats_data (lit "chats") (PList []));
     (* the debug line takes [len(chats)] *)
     perform _ <- liftR (py_len chats);
     perform items <- liftR (py_iter chats);
     perform unread_messages <- scan_chats items [] ∅;
     perform _ <-
       (match unread_messages with
        | [] => ret tt
        | _ => _save_processed_ids
        end);
     ret unread_messages)
    (fun e =>
       perform _ <- modify (set_error (Some (ErrUnreadMessages e)));
       ret []).

(** [for chat in chats: chat['user_name'] = extract_user_name(chat);
    all_chats.append(chat)].  The list is extended in place, so what was
    appended before an exception stays in it. *)
Fixpoint add_user_names (chats : list pyval) (all_chats : list pyval)
  : list pyval * option exn :=
  match chats with
  | [] => (all_chats, None)
  | chat :: rest =>
      match extract_user_name E chat with
      | Raise e => (all_chats, Some e)
      | Ok name =>
          match py_setitem chat (lit "user_name") (PStr name) with
          | Raise e => (all_chats, Some e)
          | Ok chat' => add_user_names rest (all_chats ++ [chat'])
          end
      end
  end.

(** One iteration of the [while True] loop of [get_all_chats], after
    [batch] was fetched: either one of the [break]s or an exception ends the
    loop, or the next offset is requested with the longer list. *)
Definition after_page (all_chats : list pyval) (batch : pyval) : page_step :=
  match py_get batch (lit "chats") (PList []) with
  | Raise e => Stop (Aborted all_chats e)
  | Ok chats =>
      if negb (truthy chats) then Stop (Finished all_chats)
      else
        match py_iter chats with
        | Raise e => Stop (Aborted all_chats e)
        | Ok items =>
            match add_user_names items all_chats with
            | (all_chats', Some e) => Stop (Aborted all_chats' e)
            | (all_chats', None) =>
                if (MAX_CHATS <=? length all_chats')%nat
                then Stop (Finished (firstn MAX_CHATS all_chats'))
                else
                  match py_len chats with
                  | Raise e => Stop (Aborted all_chats' e)
                  | Ok n =>
                      if (n <? BATCH_SIZE)%nat
                      then Stop (Finished all_chats')
                      else Continue all_chats'
                  end
            end
        end
  end.

(** The loop itself; [fuel] bounds the number of iterations. *)
Fixpoint paging (fuel : nat) (all_chats : list pyval) (offset : nat)
  : M paging_end :=
  match fuel with
  | O => ret OutOfFuel
  | S fuel' =>
      perform batch <- get_chats false (Some BATCH_SIZE) offset;
      match after_page all_chats batch with
      | Stop outcome => ret outcome
      | Continue all_chats' =>
          paging fuel' all_chats' (offset + BATCH_SIZE)%nat
      end
  end.

(** The dict returned by [get_all_chats]. *)
Definition snapshot (processed_chats : list pyval) (t1 t2 : Z) : pyval :=
  PDict [ (lit "total_chats", PInt (Z.of_nat (length processed_chats)));
          (lit "chats", PList processed_chats);
          (lit "retrieved_at", PStr (isoformat E t1));
          (lit "retrieved_at_formatted", PStr (strftime_now E t2)) ].

Definition processed_list (all_chats : list pyval) : list pyval :=
  map _process_timestamps all_chats.

(** A continuing iteration appends at least one chat and leaves fewer than
    [MAX_CHATS], so [S MAX_CHATS] iterations always reach a [break]. *)
Definition get_all_chats : M pyval :=
  perform outcome <- paging (S MAX_CHATS) [] 0%nat;
  perform all_chats <-
    match outcome with
    | Finished all_chats => ret all_chats
    | Aborted all_chats e =>
        perform _ <- modify (set_error (Some (ErrPagination e)));
        ret all_chats
    | OutOfFuel => ret []
    end;
  perform t1 <- now E;
  perform t2 <- now E;
  ret (snapshot (processed_list all_chats) t1 t2).

(** The log lines for the first three messages slice [msg['text'][:50]]. *)
Fixpoint log_messages (msgs : list message) : res unit :=
  match msgs with
  | [] => Ok tt
  | msg :: rest =>
      do _ <- py_slice_ok (text msg);
      log_messages rest
  end.

Definition count_messages (unread system regular : nat) (s : stats_t) : stats_t :=
  set_last_unread_count unread
    (set_total_regular_messages (total_regular_messages s + regular)%nat
       (set_total_system_messages (total_system_messages s + system)%nat
          (set_total_unread_messages (total_unread_messages s + unread)%nat s))).

Definition check_for_updates : M (pyval * list message * list sent_reply) :=
  perform _ <-
    modify (fun w =>
      set_stats (set_total_checks (S (total_checks (stats w))) (stats w)) w);
  catch
    (perform unread_messages <- get_unread_messages;
     let system_messages := List.filter is_system unread_messages in
     let regular_messages :=
       List.filter (fun msg => negb (is_system msg)) unread_messages in
     perform _ <-
       modify (fun w =>
         set_stats
           (count_messages (length unread_messages) (length system_messages)
              (length regular_messages) (stats w)) w);
     perform _ <- liftR (log_messages (firstn 3 unread_messages));
     perform enabled <- gets auto_reply_enabled;
     perform auto_reply_results <-
       (if enabled && match regular_messages with [] => false | _ => true end
        then
          perform results <-
            AutoReplyManager.process_auto_replies E unread_messages;
          perform _ <-
            modify (fun w =>
              set_stats
                (set_total_auto_replies
                   (total_auto_replies (stats w) + length results)%nat
                   (stats w)) w);
          ret results
        else ret []);
     perform all_chats <- get_all_chats;
     perform _ <-
       catch (dump_chats E all_chats)
             (fun e => modify (set_error (Some (ErrSaveFile e))));
     perform _ <- modify (set_error None);
     ret (all_chats, unread_messages, auto_reply_results))
    (fun e =>
       perform _ <- modify (set_error (Some (ErrCheckForUpdates e)));
       ret (no_chats, [], [])).

End Methods.
End AvitoChatMonitor.

(** ** [MonitorService._run_monitoring_loop]: the pause between two cycles *)

Module MonitorService.

(** The [interval] of the loop: an [int] (the default 30, or
    [CHECK_INTERVAL]) or a [float] (the web route starts the service with
    [float(interval)]).  A float is kept as the IEEE value it has: a zero,
    an infinity, a NaN, or [(-1)^s * m * 2^e]; the operations the loop
    applies to it ([// 2], the comparison with 10, [int]) are exact. *)
Inductive number :=
| NInt (z : Z)
| NFloat (x : spec_float).

Definition of_float (f : float) : number := NFloat (Prim2SF f).

(** The float whose value is the integer [q]. *)
Definition whole (q : Z) : spec_float :=
  match q with
  | Z0 => S754_zero false
  | Zpos p => S754_finite false p 0
  | Zneg p => S754_finite true p 0
  end.

(** [interval // 2]: floor division; on floats the result is a float, and
    [inf // 2] is [nan]. *)
Definition floor_half (v : number) : number :=
  match v with
  | NInt z => NInt (z / 2)
  | NFloat x =>
      NFloat
        match x with
        | S754_zero s => S754_zero s
        | S754_infinity _ => S754_nan
        | S754_nan => S754_nan
        | S754_finite s m e =>
            whole (Z.shiftl (if s then Zneg m else Zpos m) (e - 1))
        end
  end.

(** [x > 10] for a float [x] *)
Definition gt_10 (x : spec_float) : bool :=
  match x with
  | S754_zero _ => false
  | S754_infinity s => negb s
  | S754_nan => false
  | S754_finite true _ _ => false
  | S754_finite false m e =>
      if 0 <=? e then 10 <? Zpos m * 2 ^ e else 10 * 2 ^ (- e) <? Zpos m
  end.

(** [max(10, v)]: [v] when [v > 10], otherwise the [int] 10. *)
Definition max_10 (v : number) : number :=
  match v with
  | NInt z => NInt (Z.max 10 z)
  | NFloat x => if gt_10 x then NFloat x else NInt 10
  end.

(** [int(v)]: a float is cut towards zero; [int(nan)] raises [ValueError]
    and [int(inf)] raises [OverflowError]. *)
Definition py_int (v : number) : res Z :=
  match v with
  | NInt z => Ok z
  | NFloat (S754_zero _) => Ok 0
  | NFloat (S754_infinity _) => Raise OverflowError
  | NFloat S754_nan => Raise ValueError
  | NFloat (S754_finite s m e) =>
      Ok (if s then - Z.shiftl (Zpos m) e else Z.shiftl (Zpos m) e)
  end.

(** [sleep_time] as the loop computes it; [monitor] is the statistics of
    the monitor instance, or [None] when the service has no monitor. *)
Definition sleep_time (interval : number) (monitor : option stats_t) : number :=
  match monitor with
  | Some st =>
      if (0 <? last_unread_count st)%nat then max_10 (floor_half interval)
      else interval
  | None => interval
  end.

(** [for i in range(n): if not self.running: break; time.sleep(1)].
    [running i] is the value of the flag at the [i]-th test; the result is
    the number of one-second sleeps taken. *)
Fixpoint sleep_loop (running : nat -> bool) (i n : nat) : nat :=
  match n with
  | O => O
  | S n' => if running i then S (sleep_loop running (S i) n') else O
  end.

(** [for i in range(int(sleep_time)): ...]: the range is empty for a
    negative bound, and an exception of [int] leaves the loop of the
    thread, which ends. *)
Definition seconds_slept (running : nat -> bool) (interval : number)
    (monitor : option stats_t) : res nat :=
  do n <- py_int (sleep_time interval monitor);
  Ok (sleep_loop running 0 (Z.to_nat n)).

End MonitorService.

(** ** Sequences of operations on one monitor instance *)

(** The methods other code may call on the monitor and on its reply
    manager once both are constructed. *)
Inductive op :=
| OpSendAutoReply (chat_id user_name : pystr)
| OpProcessAutoReplies (unread_messages : list message)
| OpSaveSentReplies
| OpManagerToken (force_refresh : bool)
| OpSaveProcessedIds
| OpResetProcessedIds
| OpMonitorToken (force_refresh : bool)
| OpGetChats (unread_only : bool) (limit : option nat) (offset : nat)
| OpGetUnreadMessages
| OpGetAllChats
| OpCheckForUpdates.

Section Runs.

Variable E : Env.

(** The state after a call; what it returned or raised is dropped. *)
Definition run_op (o : op) (w : world) : world :=
  match o with
  | OpSendAutoReply c u => snd (AutoReplyManager.send_auto_reply E c u w)
  | OpProcessAutoReplies msgs =>
      snd (AutoReplyManager.process_auto_replies E msgs w)
  | OpSaveSentReplies => snd (AutoReplyManager._save_sent_replies E w)
  | OpManagerToken f => snd (AutoReplyManager.get_access_token E f w)
  | OpSaveProcessedIds => snd (AvitoChatMonitor._save_processed_ids E w)
  | OpResetProcessedIds => snd (AvitoChatMonitor.reset_processed_ids E w)
  | OpMonitorToken f => snd (AvitoChatMonitor.get_access_token E f w)
  | OpGetChats u l o => snd (AvitoChatMonitor.get_chats E u l o w)
  | OpGetUnreadMessages => snd (AvitoChatMonitor.get_unread_messages E w)
  | OpGetAllChats => snd (AvitoChatMonitor.get_all_chats E w)
  | OpCheckForUpdates => snd (AvitoChatMonitor.check_for_updates E w)
  end.

Definition run_ops (ops : list op) (w : world) : world :=
  fold_left (fun w o => run_op o w) ops w.

(** The messages a call hands to its caller: the list that
    [get_unread_messages] returns and the second component of the triple
    that [check_for_updates] returns. *)
Definition surfaced_by (o : op) (w : world) : list message :=
  match o with
  | OpGetUnreadMessages =>
      match fst (AvitoChatMonitor.get_unread_messages E w) with
      | Ok unread => unread
      | Raise _ => []
      end
  | OpCheckForUpdates =>
      match fst (AvitoChatMonitor.check_for_updates E w) with
      | Ok (_, unread, _) => unread
      | Raise _ => []
      end
  | _ => []
  end.

(** Everything a sequence of calls surfaced, in order. *)
Fixpoint surfaced (ops : list op) (w : world) : list message :=
  match ops with
  | [] => []
  | o :: rest => surfaced_by o w ++ surfaced rest (run_op o w)
  end.

Definition is_reset (o : op) : bool :=
  match o with
  | OpResetProcessedIds => true
  | _ => false
  end.

End Runs.

(** ** Reading traces and snapshots *)

(** Number of successful replies to chat [c] recorded in a trace. *)
Fixpoint replies_sent (c : pystr) (tr : list event) : nat :=
  match tr with
  | [] => 0
  | ReplySent c' :: tr' =>
      (if str_eqb c c' then 1 else 0) + replies_sent c tr'
  | _ :: tr' => replies_sent c tr'
  end.

(** The calls of [send_auto_reply] in a trace, oldest first. *)
Fixpoint send_calls (tr : list event) : list (pystr * pystr) :=
  match tr with
  | [] => []
  | SendCall c u :: tr' => send_calls tr' ++ [(c, u)]
  | _ :: tr' => send_calls tr'
  end.

(** The offsets of the chat-list requests in a trace, oldest first. *)
Fixpoint chat_offsets (tr : list event) : list nat :=
  match tr with
  | [] => []
  | ChatsRequest _ offset _ :: tr' => chat_offsets tr' ++ [offset]
  | _ :: tr' => chat_offsets tr'
  end.

(** Number of token exchanges in a trace. *)
Fixpoint token_requests (tr : list event) : nat :=
  match tr with
  | [] => 0
  | TokenRequest :: tr' => S (token_requests tr')
  | _ :: tr' => token_requests tr'
  end.

Definition snapshot_chats (v : pyval) : list pyval :=
  match py_getitem v (lit "chats") with
  | Ok (PList l) => l
  | _ => []
  end.

Definition snapshot_total (v : pyval) : option Z :=
  match py_getitem v (lit "total_chats") with
  | Ok (PInt n) => Some n
  | _ => None
  end.

(** The list stored under a key of the state file. *)
Definition saved_list (key : pystr) (f : file) : option (list pyval) :=
  match f with
  | Holds (PDict d) =>
      match dict_lookup key d with
      | Some (PList l) => Some l
      | _ => None
      end
  | _ => None
  end.

(** ** Concrete environments and states for the examples *)

Module Examples.

Definition ascii_lower (s : pystr) : pystr :=
  map (fun c => if ((65 <=? c) && (c <=? 90))%N then (c + 32)%N else c) s.

(** An environment that answers the HTTP requests from a script (and fails
    once the script is over), with a clock that advances one second per
    reading from a day in 2025, a disk that works, and sets listed in the
    order of [elements]. *)
Definition scripted (answers : list http_result) : Env :=
  {| net := fun n => nth n answers HttpFail;
     clock := fun n => 63900000000000000 + Z.of_nat n * 1000000;
     disk := fun _ => Written;
     str_lower := ascii_lower;
     py_repr := fun _ => lit "<object>";
     strftime_formatted := fun _ => lit "<date>";
     strftime_human := fun _ => lit "<date>";
     fromtimestamp_ok := fun _ => true;
     isoformat := fun _ => lit "<date>";
     strftime_now := fun _ => lit "<date>";
     set_order := elements;
     timedelta_float := fun _ => None |}.

Definition no_stats : stats_t :=
  {| total_checks := 0; total_unread_messages := 0; total_auto_replies := 0;
     total_system_messages := 0; total_regular_messages := 0;
     last_unread_count := 0; last_error := None; last_user_names := [] |}.

(** The state right after construction with no state file. *)
Definition fresh : world :=
  {| access_token := PNone; token_expires := None; auto_reply_enabled := true;
     processed_message_ids := ∅; stats := no_stats;
     mgr_access_token := PNone; mgr_token_expires := None; sent_replies := ∅;
     state_file := Absent; json_file := Absent;
     net_calls := 0; clock_reads := 0; disk_writes := 0; trace := [] |}.

Definition token_answer : http_result :=
  HttpOk (PDict [(lit "access_token", PStr (lit "tok"));
                 (lit "expires_in", PInt 86400)]).

(** A chat whose last message is unread and incoming. *)
Definition chat_with (id mid txt : string) : pyval :=
  PDict [(lit "id", PStr (lit id));
         (lit "users", PList [PDict [(lit "name", PStr (lit "Ann"))]]);
         (lit "last_message",
          PDict [(lit "id", PStr (lit mid));
                 (lit "direction", PStr (lit "in"));
                 (lit "content", PDict [(lit "text", PStr (lit txt))])])].

Definition chats_answer (chats : list pyval) : http_result :=
  HttpOk (PDict [(lit "chats", PList chats)]).

End Examples.

(** * Properties *)

(** ** Rules for relations that every step of a statement respects *)

(** [keeps R m]: running [m] moves the state along [R], whether [m] returns
    or raises. *)
Definition keeps {A} (R : relation world) (m : M A) : Prop :=
  forall w, R w (snd (m w)).

Section KeepsRules.

Context (R : relation world) `{!PreOrder R}.

Lemma keeps_ret {A} (a : A) : keeps R (ret a).
Proof. intros w. reflexivity. Qed.

Lemma keeps_raise {A} (e : exn) : keeps R (@raise A e).
Proof. intros w. reflexivity. Qed.

Lemma keeps_liftR {A} (r : res A) : keeps R (liftR r).
Proof. intros w. reflexivity. Qed.

Lemma keeps_gets {A} (f : world -> A) : keeps R (gets f).
Proof. intros w. reflexivity. Qed.

Lemma keeps_modify (f : world -> world) :
  (forall w, R w (f w)) -> keeps R (modify f).
Proof. intros H w. apply H. Qed.

Lemma keeps_bind {A B} (m : M A) (k : A -> M B) :
  keeps R m -> (forall a, keeps R (k a)) -> keeps R (bind m k).
Proof.
  intros Hm Hk w. unfold bind. specialize (Hm w).
  destruct (m w) as [[a | e] w1]; simpl in *.
  - etransitivity; [exact Hm | apply Hk].
  - exact Hm.
Qed.

Lemma keeps_catch {A} (m : M A) (h : exn -> M A) :
  keeps R m -> (forall e, keeps R (h e)) -> keeps R (catch m h).
Proof.
  intros Hm Hh w. unfold catch. specialize (Hm w).
  destruct (m w) as [[a | e] w1]; simpl in *.
  - exact Hm.
  - etransitivity; [exact Hm | apply Hh].
Qed.

End KeepsRules.

Lemma keeps_weaken {A} (R R' : relation world) (m : M A) :
  (forall w w', R w w' -> R' w w') -> keeps R m -> keeps R' m.
Proof. intros H Hm w. apply H, Hm. Qed.

Create HintDb keeps.

(** Splits a statement along its binds, handlers and case distinctions and
    closes the leaves with the rules above and the [keeps] hints. *)
Ltac keeps_split :=
  repeat first
    [ apply keeps_ret; apply _
    | apply keeps_raise; apply _
    | apply keeps_liftR; apply _
    | apply keeps_gets; apply _
    | apply keeps_bind; [ apply _ | | intros ? ]
    | apply keeps_catch; [ apply _ | | intros ? ]
    | match goal with
      | |- keeps _ (if ?b then _ else _) => destruct b
      | |- keeps _ (match ?x with _ => _ end) => destruct x
      end
    | solve [ eauto with keeps ] ].

(** ** Steps that do not touch the reply state *)

(** [quiet w w']: from [w] to [w'] no chat was marked as replied, no reply
    was sent and [send_auto_reply] was not entered. *)
Record quiet (w w' : world) : Prop := {
  quiet_sent : sent_replies w' = sent_replies w;
  quiet_replies : forall c, replies_sent c (trace w') = replies_sent c (trace w);
  quiet_calls : send_calls (trace w') = send_calls (trace w)
}.

#[export] Instance quiet_preorder : PreOrder quiet.
Proof.
  split.
  - intros w. split; reflexivity.
  - intros w1 w2 w3 [a b c] [a' b' c']. split.
    + congruence.
    + intros x. rewrite b'. apply b.
    + congruence.
Qed.

(** [still w w']: [quiet], and the processed ids are the same as well. *)
Definition still (w w' : world) : Prop :=
  quiet w w' /\ processed_message_ids w' = processed_message_ids w.

#[export] Instance still_preorder : PreOrder still.
Proof.
  split.
  - intros w. split; reflexivity.
  - intros w1 w2 w3 [a b] [a' b']. split.
    + etransitivity; eassumption.
    + congruence.
Qed.

Lemma still_quiet w w' : still w w' -> quiet w w'.
Proof. intros [H _]. exact H. Qed.

Definition plain_event (e : event) : bool :=
  match e with
  | ReplySent _ | SendCall _ _ => false
  | _ => true
  end.

Lemma still_intro w w' :
  sent_replies w' = sent_replies w ->
  processed_message_ids w' = processed_message_ids w ->
  trace w' = trace w ->
  still w w'.
Proof.
  intros H1 H2 H3. split; [split |]; try assumption.
  - intros c. rewrite H3. reflexivity.
  - rewrite H3. reflexivity.
Qed.

Lemma still_event w w' e :
  plain_event e = true ->
  sent_replies w' = sent_replies w ->
  processed_message_ids w' = processed_message_ids w ->
  trace w' = e :: trace w ->
  still w w'.
Proof.
  intros He H1 H2 H3. split; [split |]; try assumption.
  - intros c. rewrite H3. destruct e; simpl; try reflexivity; discriminate.
  - rewrite H3. destruct e; simpl; try reflexivity; discriminate.
Qed.

Section StillLeaves.

Variable E : Env.

Lemma still_now : keeps still (now E).
Proof. intros w. apply still_intro; reflexivity. Qed.

Lemma still_request e : plain_event e = true -> keeps still (request E e).
Proof. intros He w. apply (still_event _ _ e); try reflexivity. exact He. Qed.

Lemma still_load_state : keeps still load_state.
Proof.
  intros w. unfold load_state.
  destruct (state_file w); apply still_intro; reflexivity.
Qed.

Lemma still_dump_state v : keeps still (dump_state E v).
Proof.
  intros w. unfold dump_state.
  destruct (disk E (disk_writes w)); apply still_intro; reflexivity.
Qed.

Lemma still_dump_chats v : keeps still (dump_chats E v).
Proof.
  intros w. unfold dump_chats.
  destruct (disk E (disk_writes w)); apply still_intro; reflexivity.
Qed.

Lemma still_set_error m : keeps still (modify (set_error m)).
Proof. intros w. apply still_intro; reflexivity. Qed.

Lemma still_set_stats (f : world -> stats_t) :
  keeps still (modify (fun w => set_stats (f w) w)).
Proof. intros w. apply still_intro; reflexivity. Qed.

End StillLeaves.

#[export] Hint Resolve still_now still_request still_load_state
  still_dump_state still_dump_chats still_set_error still_set_stats : keeps.

Ltac still_leaf :=
  first
    [ solve [ eauto with keeps ]
    | apply keeps_modify; intros ?; apply still_intro; reflexivity ].

Ltac still_split := keeps_split; try still_leaf.

Section StillMethods.

Variable E : Env.

Lemma still_mgr_save : keeps still (AutoReplyManager._save_sent_replies E).
Proof. unfold AutoReplyManager._save_sent_replies. still_split. Qed.

Lemma still_mgr_refresh : keeps still (AutoReplyManager.refresh_token E).
Proof. unfold AutoReplyManager.refresh_token. still_split. Qed.

Lemma still_mgr_token f : keeps still (AutoReplyManager.get_access_token E f).
Proof.
  unfold AutoReplyManager.get_access_token. still_split.
Qed.

Lemma still_save_ids : keeps still (AvitoChatMonitor._save_processed_ids E).
Proof. unfold AvitoChatMonitor._save_processed_ids. still_split. Qed.

Lemma still_refresh : keeps still (AvitoChatMonitor.refresh_token E).
Proof. unfold AvitoChatMonitor.refresh_token. still_split. Qed.

Lemma still_token f : keeps still (AvitoChatMonitor.get_access_token E f).
Proof.
  unfold AvitoChatMonitor.get_access_token. still_split.
Qed.

Lemma still_get_chats u l o : keeps still (AvitoChatMonitor.get_chats E u l o).
Proof.
  unfold AvitoChatMonitor.get_chats. cbv zeta. still_split.
Qed.

Lemma still_paging fuel : forall all_chats offset,
  keeps still (AvitoChatMonitor.paging E fuel all_chats offset).
Proof.
  induction fuel as [| fuel IH]; intros all_chats offset; simpl.
  - apply keeps_ret; apply _.
  - apply keeps_bind; [apply _ | apply still_get_chats |].
    intros batch. destruct (AvitoChatMonitor.after_page E all_chats batch).
    + apply IH.
    + apply keeps_ret; apply _.
Qed.

Lemma still_get_all_chats : keeps still (AvitoChatMonitor.get_all_chats E).
Proof.
  unfold AvitoChatMonitor.get_all_chats.
  apply keeps_bind; [apply _ | apply still_paging | intros outcome].
  still_split.
Qed.

End StillMethods.

#[export] Hint Resolve still_mgr_save still_mgr_token still_save_ids
  still_token still_get_chats still_get_all_chats : keeps.

Lemma quiet_of_still {A} (m : M A) : keeps still m -> keeps quiet m.
Proof. apply keeps_weaken. exact still_quiet. Qed.

Lemma quiet_intro w w' :
  sent_replies w' = sent_replies w -> trace w' = trace w -> quiet w w'.
Proof.
  intros H1 H2. split; [assumption | |]; rewrite H2; reflexivity.
Qed.

#[export] Hint Resolve quiet_of_still : keeps.

Ltac quiet_leaf :=
  first
    [ solve [ eauto with keeps ]
    | apply keeps_modify; intros ?; apply quiet_intro; reflexivity ].

Ltac quiet_split := keeps_split; try quiet_leaf.

Section QuietMethods.

Variable E : Env.

Lemma quiet_scan_chat chat unread seen :
  keeps quiet (AvitoChatMonitor.scan_chat E chat unread seen).
Proof. unfold AvitoChatMonitor.scan_chat. cbv zeta. quiet_split. Qed.

Lemma quiet_scan_chats chats : forall unread seen,
  keeps quiet (AvitoChatMonitor.scan_chats E chats unread seen).
Proof.
  induction chats as [| chat rest IH]; intros unread seen; simpl.
  - apply keeps_ret; apply _.
  - apply keeps_bind; [apply _ | apply quiet_scan_chat |].
    intros p. apply IH.
Qed.

Lemma quiet_get_unread_messages :
  keeps quiet (AvitoChatMonitor.get_unread_messages E).
Proof.
  unfold AvitoChatMonitor.get_unread_messages.
  apply keeps_catch; [apply _ | | intros e; quiet_split].
  apply keeps_bind; [apply _ | quiet_leaf | intros chats_data].
  apply keeps_bind; [apply _ | quiet_split | intros chats].
  apply keeps_bind; [apply _ | quiet_split | intros n].
  apply keeps_bind; [apply _ | quiet_split | intros items].
  apply keeps_bind; [apply _ | apply quiet_scan_chats | intros unread].
  quiet_split.
Qed.

Lemma quiet_reset_processed_ids :
  keeps quiet (AvitoChatMonitor.reset_processed_ids E).
Proof. unfold AvitoChatMonitor.reset_processed_ids. quiet_split. Qed.

End QuietMethods.

#[export] Hint Resolve quiet_get_unread_messages quiet_reset_processed_ids
  : keeps.

(** ** One call of [send_auto_reply] *)

Lemma catch_returns {A} (m : M A) (a0 : A) w :
  exists a w', catch m (fun _ => ret a0) w = (Ok a, w').
Proof.
  unfold catch. destruct (m w) as [[a | e] w']; eauto.
Qed.

Lemma mgr_save_returns E w :
  exists w', AutoReplyManager._save_sent_replies E w = (Ok tt, w').
Proof.
  destruct (catch_returns
    (perform state <- load_state;
     perform replied <- gets sent_replies;
     perform state1 <-
       liftR (py_setitem state (lit "sent_replies") (PList (list_of_set E replied)));
     perform t <- now E;
     perform state2 <-
       liftR (py_setitem state1 (lit "last_updated") (PStr (isoformat E t)));
     dump_state E state2) tt w) as ([] & w' & H).
  exists w'. exact H.
Qed.

(** Every way [send_auto_reply] can end. *)
Inductive send_outcome (c u : pystr) (w : world) : res send_result * world -> Prop :=
| send_skipped :
    c ∈ sent_replies w ->
    send_outcome c u w (Ok AlreadyReplied, set_trace (SendCall c u :: trace w) w)
| send_failed err w' :
    c ∉ sent_replies w ->
    still (set_trace (SendCall c u :: trace w) w) w' ->
    send_outcome c u w (Ok (SendError err), w')
| send_done body w1 w2 :
    c ∉ sent_replies w ->
    still (set_trace (SendCall c u :: trace w) w) w1 ->
    still (set_sent_replies ({[c]} ∪ sent_replies w1) w1) w2 ->
    send_outcome c u w
      (Ok (SendResponse body), set_trace (ReplySent c :: trace w2) w2).

Lemma send_auto_reply_outcome E c u w :
  send_outcome c u w (AutoReplyManager.send_auto_reply E c u w).
Proof.
  unfold AutoReplyManager.send_auto_reply.
  unfold bind at 1. unfold emit at 1, modify at 1.
  unfold bind at 1. unfold gets at 1. cbn [sent_replies set_trace].
  destruct (bool_decide (c ∈ sent_replies w)) eqn:Hin.
  - apply bool_decide_eq_true in Hin. unfold ret. apply send_skipped. exact Hin.
  - apply bool_decide_eq_false in Hin.
    set (w0 := set_trace (SendCall c u :: trace w) w).
    unfold bind at 1, catch at 1, bind at 1.
    pose proof (still_mgr_token E false w0) as H1.
    destruct (AutoReplyManager.get_access_token E false w0) as [[t | e] w1];
      cbn [snd] in H1; unfold ret at 1.
    + unfold bind at 1.
      pose proof (still_request E (SendRequest c) eq_refl w1) as H2.
      unfold request at 1. unfold request in H2. cbn [snd] in H2.
      set (w2 := set_trace (SendRequest c :: trace w1)
                   (set_net_calls (S (net_calls w1)) w1)) in *.
      destruct (response_json (net E (net_calls w1))) as [result | e].
      * unfold bind at 1. unfold modify at 1.
        unfold bind at 1.
        pose proof (still_mgr_save E
          (set_sent_replies ({[c]} ∪ sent_replies w2) w2)) as H3.
        destruct (mgr_save_returns E
          (set_sent_replies ({[c]} ∪ sent_replies w2) w2)) as [w3 Hs].
        rewrite Hs in *. cbn [snd] in H3.
        unfold bind at 1, emit at 1, modify at 1, ret.
        apply (send_done c u w result w2 w3); try assumption.
        etransitivity; eassumption.
      * unfold ret. apply send_failed; [assumption |].
        etransitivity; eassumption.
    + apply send_failed; assumption.
Qed.

(** What one call of [send_auto_reply] changes, by the kind of its result. *)
Lemma send_auto_reply_effect E c u w :
  let r := fst (AutoReplyManager.send_auto_reply E c u w) in
  let w' := snd (AutoReplyManager.send_auto_reply E c u w) in
  send_calls (trace w') = send_calls (trace w) ++ [(c, u)] /\
  match r with
  | Ok AlreadyReplied =>
      (c ∈ sent_replies w) /\ w' = set_trace (SendCall c u :: trace w) w
  | Ok (SendError _) =>
      (c ∉ sent_replies w) /\ sent_replies w' = sent_replies w /\
      forall c', replies_sent c' (trace w') = replies_sent c' (trace w)
  | Ok (SendResponse _) =>
      (c ∉ sent_replies w) /\ sent_replies w' = {[c]} ∪ sent_replies w /\
      forall c', replies_sent c' (trace w')
                 = ((if str_eqb c' c then 1 else 0) + replies_sent c' (trace w))%nat
  | Raise _ => False
  end.
Proof.
  cbv zeta.
  destruct (send_auto_reply_outcome E c u w)
    as [Hin | err w' Hin [[Hs Hr Hc] _] | body w1 w2 Hin [[Hs1 Hr1 Hc1] _] [[Hs2 Hr2 Hc2] _]];
    cbn [fst snd].
  - split; [reflexivity | split; [exact Hin | reflexivity]].
  - split; [rewrite Hc; reflexivity |].
    split; [exact Hin |]. split; [exact Hs |].
    intros c'. rewrite Hr. reflexivity.
  - cbn [trace set_trace set_sent_replies sent_replies send_calls] in *.
    split; [rewrite Hc2, Hc1; reflexivity |].
    split; [exact Hin |]. split; [rewrite Hs2, Hs1; reflexivity |].
    intros c'. cbn [replies_sent]. rewrite Hr2, Hr1. reflexivity.
Qed.

(** ** The reply state only grows *)

(** [safe c w]: so far at most one reply went to [c], and if one did then
    [c] is marked as replied. *)
Definition safe (c : pystr) (w : world) : Prop :=
  (replies_sent c (trace w) <= 1)%nat /\
  ((0 < replies_sent c (trace w))%nat -> c ∈ sent_replies w).

(** [advance w w']: no chat lost its mark, [safe] was preserved, and no
    reply went to a chat that was already marked. *)
Definition advance (w w' : world) : Prop :=
  sent_replies w ⊆ sent_replies w' /\
  forall c,
    (safe c w -> safe c w') /\
    (c ∈ sent_replies w ->
     replies_sent c (trace w') = replies_sent c (trace w)).

#[export] Instance advance_preorder : PreOrder advance.
Proof.
  split.
  - intros w. split; [reflexivity | intros c; split; auto].
  - intros w1 w2 w3 [S12 H12] [S23 H23]. split.
    + etransitivity; eassumption.
    + intros c. destruct (H12 c) as [a b], (H23 c) as [a' b']. split.
      * auto.
      * intros Hc. rewrite b' by (apply S12, Hc). apply b, Hc.
Qed.

Lemma advance_of_quiet w w' : quiet w w' -> advance w w'.
Proof.
  intros [Hs Hr _]. split.
  - rewrite Hs. reflexivity.
  - intros c. split.
    + unfold safe. rewrite Hr, Hs. auto.
    + intros _. apply Hr.
Qed.

Lemma advance_same w w' :
  sent_replies w' = sent_replies w ->
  (forall c, replies_sent c (trace w') = replies_sent c (trace w)) ->
  advance w w'.
Proof.
  intros Hs Hr. split.
  - rewrite Hs. reflexivity.
  - intros c. split.
    + unfold safe. rewrite Hr, Hs. auto.
    + intros _. apply Hr.
Qed.

Lemma keeps_advance_quiet {A} (m : M A) : keeps quiet m -> keeps advance m.
Proof. apply keeps_weaken. exact advance_of_quiet. Qed.

#[export] Hint Resolve keeps_advance_quiet : keeps.

Lemma str_eqb_true a b : str_eqb a b = true <-> a = b.
Proof. unfold str_eqb. apply bool_decide_eq_true. Qed.


Section AdvanceMethods.

Variable E : Env.

Lemma advance_send c u : keeps advance (AutoReplyManager.send_auto_reply E c u).
Proof.
  intros w. pose proof (send_auto_reply_effect E c u w) as [_ H].
  cbv zeta in H.
  destruct (AutoReplyManager.send_auto_reply E c u w) as [[[| err | body] | e] w'];
    cbn [fst snd] in *.
  - destruct H as [_ ->]. apply advance_same; reflexivity.
  - destruct H as (_ & Hs & Hr). apply advance_same; assumption.
  - destruct H as (Hin & Hs & Hr). split.
    + rewrite Hs. set_solver.
    + intros c'. split.
      * unfold safe. rewrite Hr, Hs. intros [Hle Hm].
        destruct (str_eqb c' c) eqn:Hc.
        -- apply str_eqb_true in Hc. subst c'.
           assert (replies_sent c (trace w) = 0%nat) as ->.
           { destruct (replies_sent c (trace w)) as [| n]; [reflexivity |].
             exfalso. apply Hin, Hm. lia. }
           split; [lia | intros _; set_solver].
        -- split; [simpl; lia |]. simpl. intros Hp. set_solver.
      * intros Hc'. rewrite Hr.
        destruct (str_eqb c' c) eqn:Hc; [| reflexivity].
        apply str_eqb_true in Hc. subst c'. contradiction.
  - contradiction.
Qed.

Lemma advance_emit_delay : keeps advance (emit ReplyDelay).
Proof. intros w. apply advance_same; [reflexivity | intros c; reflexivity]. Qed.

Lemma advance_reply_loop msgs : forall sent,
  keeps advance (AutoReplyManager.reply_loop E msgs sent).
Proof.
  induction msgs as [| message rest IH]; intros sent; simpl.
  - apply keeps_ret; apply _.
  - apply keeps_bind; [apply _ | apply keeps_liftR; apply _ | intros _].
    apply keeps_bind; [apply _ | apply advance_send | intros result].
    apply keeps_bind; [apply _ | apply keeps_liftR; apply _ | intros sent'].
    apply keeps_bind; [apply _ | | intros _; apply IH].
    destruct rest; [apply keeps_ret; apply _ | apply advance_emit_delay].
Qed.

Lemma advance_process msgs :
  keeps advance (AutoReplyManager.process_auto_replies E msgs).
Proof.
  unfold AutoReplyManager.process_auto_replies.
  destruct msgs as [| m msgs]; [apply keeps_ret; apply _ |].
  cbv zeta.
  destruct (List.filter _ _); [apply keeps_ret; apply _ | apply advance_reply_loop].
Qed.

Lemma advance_stats (f : world -> stats_t) :
  keeps advance (modify (fun w => set_stats (f w) w)).
Proof. intros w. apply advance_of_quiet, quiet_intro; reflexivity. Qed.

Lemma advance_set_error m : keeps advance (modify (set_error m)).
Proof. intros w. apply advance_of_quiet, quiet_intro; reflexivity. Qed.

Lemma advance_check_for_updates :
  keeps advance (AvitoChatMonitor.check_for_updates E).
Proof.
  unfold AvitoChatMonitor.check_for_updates. cbv zeta.
  apply keeps_bind; [apply _ | apply advance_stats | intros _].
  apply keeps_catch; [apply _ | | intros e].
  - apply keeps_bind; [apply _ | eauto with keeps | intros unread].
    apply keeps_bind; [apply _ | apply advance_stats | intros _].
    apply keeps_bind; [apply _ | apply keeps_liftR; apply _ | intros _].
    apply keeps_bind; [apply _ | apply keeps_gets; apply _ | intros enabled].
    apply keeps_bind; [apply _ | | intros results].
    + destruct (enabled && _).
      * apply keeps_bind; [apply _ | apply advance_process | intros r].
        apply keeps_bind; [apply _ | apply advance_stats | intros _].
        apply keeps_ret; apply _.
      * apply keeps_ret; apply _.
    + apply keeps_bind; [apply _ | eauto with keeps | intros all_chats].
      apply keeps_bind; [apply _ | | intros _].
      * apply keeps_catch; [apply _ | eauto with keeps | intros e].
        apply advance_set_error.
      * apply keeps_bind; [apply _ | apply advance_set_error | intros _].
        apply keeps_ret; apply _.
  - apply keeps_bind; [apply _ | apply advance_set_error | intros _].
    apply keeps_ret; apply _.
Qed.

Lemma advance_run_op o w : advance w (run_op E o w).
Proof.
  destruct o; simpl.
  - apply advance_send.
  - apply advance_process.
  - apply keeps_advance_quiet, quiet_of_still, still_mgr_save.
  - apply keeps_advance_quiet, quiet_of_still, still_mgr_token.
  - apply keeps_advance_quiet, quiet_of_still, still_save_ids.
  - apply keeps_advance_quiet, quiet_reset_processed_ids.
  - apply keeps_advance_quiet, quiet_of_still, still_token.
  - apply keeps_advance_quiet, quiet_of_still, still_get_chats.
  - apply keeps_advance_quiet, quiet_get_unread_messages.
  - apply keeps_advance_quiet, quiet_of_still, still_get_all_chats.
  - apply advance_check_for_updates.
Qed.

Lemma advance_run_ops ops : forall w, advance w (run_ops E ops w).
Proof.
  induction ops as [| o ops IH]; intros w; simpl.
  - reflexivity.
  - etransitivity; [apply advance_run_op | apply IH].
Qed.

End AdvanceMethods.

(** ** Replies per chat *)

(** C1. Over any sequence of calls on the monitor and its reply manager
    (among them [send_auto_reply] and [process_auto_replies]), started
    before any reply to chat [c] went out: at most one successful reply
    goes to [c]; none at all when [c] was already in [sent_replies]; and a
    chat that got its reply is in [sent_replies].  A call of
    [send_auto_reply] for a chat in [sent_replies] returns the
    already-replied status and changes nothing but the record of the call
    (no request is made), and a call that returns the remote's answer has
    put the chat into [sent_replies]. *)
Theorem at_most_one_reply_per_chat E (ops : list op) (w : world) (c : pystr) :
  replies_sent c (trace w) = 0%nat ->
  let w' := run_ops E ops w in
  (replies_sent c (trace w') <= 1)%nat /\
  (c ∈ sent_replies w -> replies_sent c (trace w') = 0%nat) /\
  ((0 < replies_sent c (trace w'))%nat -> c ∈ sent_replies w') /\
  (forall u w0, c ∈ sent_replies w0 ->
     AutoReplyManager.send_auto_reply E c u w0
     = (Ok AlreadyReplied, set_trace (SendCall c u :: trace w0) w0)) /\
  (forall u w0 body w1,
     AutoReplyManager.send_auto_reply E c u w0 = (Ok (SendResponse body), w1) ->
     c ∈ sent_replies w1 /\
     replies_sent c (trace w1) = S (replies_sent c (trace w0))).
Proof.
  intros H0 w'.
  destruct (advance_run_ops E ops w) as [_ Hadv].
  destruct (Hadv c) as [Hsafe Hstay].
  assert (safe c w) as Hw by (unfold safe; rewrite H0; split; lia).
  destruct (Hsafe Hw) as [Hle Hin].
  split; [exact Hle |].
  split; [intros Hc; fold w' in Hstay; rewrite (Hstay Hc); exact H0 |].
  split; [exact Hin |].
  split.
  - intros u w0 Hc.
    pose proof (send_auto_reply_effect E c u w0) as [_ H]. cbv zeta in H.
    destruct (AutoReplyManager.send_auto_reply E c u w0)
      as [[[| err | body] | e] w1]; cbn [fst snd] in H.
    + destruct H as [_ ->]. reflexivity.
    + destruct H as [Hn _]. contradiction.
    + destruct H as [Hn _]. contradiction.
    + contradiction.
  - intros u w0 body w1 Hrun.
    pose proof (send_auto_reply_effect E c u w0) as [_ H]. cbv zeta in H.
    rewrite Hrun in H. cbn [fst snd] in H.
    destruct H as (_ & Hs & Hr). split.
    + rewrite Hs. set_solver.
    + rewrite Hr. unfold str_eqb. rewrite bool_decide_eq_true_2 by reflexivity.
      reflexivity.
Qed.

(** Two calls for the same chat, the first answered by the remote: one
    reply. *)
Lemma at_most_one_reply_per_chat_witness :
  replies_sent (lit "c1") (trace Examples.fresh) = 0%nat /\
  (replies_sent (lit "c1")
     (trace (run_ops
               (Examples.scripted
                  [Examples.token_answer;
                   HttpOk (PDict [(lit "id", PStr (lit "r1"))])])
               [OpSendAutoReply (lit "c1") (lit "Ann");
                OpSendAutoReply (lit "c1") (lit "Ann")]
               Examples.fresh)) <= 1)%nat.
Proof.
  split; [reflexivity |].
  apply (at_most_one_reply_per_chat
           (Examples.scripted
              [Examples.token_answer;
               HttpOk (PDict [(lit "id", PStr (lit "r1"))])])
           [OpSendAutoReply (lit "c1") (lit "Ann");
            OpSendAutoReply (lit "c1") (lit "Ann")]
           Examples.fresh (lit "c1")).
  reflexivity.
Defined.

(** ** What the state file holds after a save *)

Ltac world_simpl :=
  cbn [fst snd
       access_token token_expires auto_reply_enabled processed_message_ids
       stats mgr_access_token mgr_token_expires sent_replies state_file
       json_file net_calls clock_reads disk_writes trace
       set_access_token set_token_expires set_auto_reply_enabled
       set_processed_message_ids set_stats set_mgr_access_token
       set_mgr_token_expires set_sent_replies set_state_file set_json_file
       set_net_calls set_clock_reads set_disk_writes set_trace set_error].

Ltac world_simpl_in H :=
  cbn [fst snd
       access_token token_expires auto_reply_enabled processed_message_ids
       stats mgr_access_token mgr_token_expires sent_replies state_file
       json_file net_calls clock_reads disk_writes trace
       set_access_token set_token_expires set_auto_reply_enabled
       set_processed_message_ids set_stats set_mgr_access_token
       set_mgr_token_expires set_sent_replies set_state_file set_json_file
       set_net_calls set_clock_reads set_disk_writes set_trace set_error] in H.

Ltac run_prims :=
  unfold bind, catch, ret, raise, liftR, gets, modify, emit, now, request,
    load_state, dump_state, dump_chats, rbind.

(** The dict that [_save_processed_ids] dumps when the state it loaded is
    the dict [d]: the ids in the order [list] gives them, the time stamp,
    and the ids again, cut to the last 1000, when there are more. *)
Definition ids_state (E : Env) (ids : gset pystr) (t : Z)
    (d : list (pystr * pyval)) : list (pystr * pyval) :=
  let d2 :=
    dict_set (lit "last_updated") (PStr (isoformat E t))
      (dict_set (lit "processed_message_ids") (PList (list_of_set E ids)) d) in
  if (1000 <? length (list_of_set E ids))%nat
  then dict_set (lit "processed_message_ids")
         (PList (last_n 1000 (list_of_set E ids))) d2
  else d2.

(** The dict the state file is read as, when the save can go on. *)
Definition loaded_dict (f : file) : option (list (pystr * pyval)) :=
  match f with
  | Absent => Some []
  | Holds (PDict d) => Some d
  | _ => None
  end.

(** The state file after a save that was to write the dict [new]. *)
Definition written_file (r : write_result) (new : list (pystr * pyval))
    (old : file) : file :=
  match r with
  | Written => Holds (PDict new)
  | NotOpened => old
  | Truncated => Corrupt
  end.

(** [_save_processed_ids] returns, and either leaves the file alone (it
    could not be read as a dict, or not be opened), replaces it, or leaves
    it damaged. *)
Lemma save_ids_file E w :
  exists w', AvitoChatMonitor._save_processed_ids E w = (Ok tt, w') /\
    match loaded_dict (state_file w) with
    | Some d =>
        state_file w'
        = written_file (disk E (disk_writes w))
            (ids_state E (processed_message_ids w) (clock E (clock_reads w)) d)
            (state_file w)
    | None => state_file w' = state_file w
    end.
Proof.
  unfold AvitoChatMonitor._save_processed_ids, ids_state, written_file.
  run_prims.
  destruct (state_file w) as [| | v] eqn:Hf; world_simpl.
  - cbn [py_setitem loaded_dict].
    destruct (1000 <? length (list_of_set E (processed_message_ids w)))%nat;
      cbn [py_setitem]; world_simpl;
      destruct (disk E (disk_writes w)); eexists; split; try reflexivity;
      world_simpl; auto.
  - eexists; split; [reflexivity |]. cbn [loaded_dict]. exact Hf.
  - destruct v; cbn [py_setitem loaded_dict]; world_simpl;
      try (eexists; split; [reflexivity | exact Hf]).
    destruct (1000 <? length (list_of_set E (processed_message_ids w)))%nat;
      cbn [py_setitem]; world_simpl;
      destruct (disk E (disk_writes w)); eexists; split; try reflexivity;
      world_simpl; auto.
Qed.

(** ** Resetting the processed ids *)

Lemma dict_lookup_set_other k k' v d :
  k <> k' -> dict_lookup k (dict_set k' v d) = dict_lookup k d.
Proof.
  intros Hne. induction d as [| [k0 v0] d IH]; simpl.
  - destruct (str_eqb k k') eqn:Hk; [| reflexivity].
    apply str_eqb_true in Hk. contradiction.
  - destruct (str_eqb k' k0) eqn:Hk0; simpl.
    + apply str_eqb_true in Hk0. subst k0.
      destruct (str_eqb k k') eqn:Hk; [| reflexivity].
      apply str_eqb_true in Hk. contradiction.
    + destruct (str_eqb k k0); [reflexivity | exact IH].
Qed.

Lemma saved_list_set_other key k v d :
  key <> k ->
  saved_list key (Holds (PDict (dict_set k v d))) = saved_list key (Holds (PDict d)).
Proof. intros Hne. simpl. rewrite dict_lookup_set_other by exact Hne. reflexivity. Qed.

Lemma ids_state_keeps_replies E ids t d :
  saved_list (lit "sent_replies") (Holds (PDict (ids_state E ids t d)))
  = saved_list (lit "sent_replies") (Holds (PDict d)).
Proof.
  unfold ids_state.
  destruct (1000 <? _)%nat;
    rewrite ?saved_list_set_other by (vm_compute; congruence); reflexivity.
Qed.

(** [_save_processed_ids] leaves the list saved under ["sent_replies"]
    as it was, unless [open] emptied the file and the dump failed. *)
Lemma save_ids_keeps_saved_replies E w :
  saved_list (lit "sent_replies")
    (state_file (snd (AvitoChatMonitor._save_processed_ids E w)))
  = saved_list (lit "sent_replies") (state_file w)
  \/ (disk E (disk_writes w) = Truncated /\
      state_file (snd (AvitoChatMonitor._save_processed_ids E w)) = Corrupt).
Proof.
  destruct (save_ids_file E w) as (w' & -> & H). cbn [snd].
  destruct (loaded_dict (state_file w)) as [d |] eqn:Hd;
    [| left; rewrite H; reflexivity].
  rewrite H. destruct (disk E (disk_writes w)); cbn [written_file].
  - left. rewrite ids_state_keeps_replies.
    destruct (state_file w) as [| | []]; try discriminate Hd;
      injection Hd as <-; reflexivity.
  - left. reflexivity.
  - right. split; reflexivity.
Qed.

(** C10. [reset_processed_ids] empties [processed_message_ids] and leaves
    the set [sent_replies] as it was; the list saved under ["sent_replies"]
    in the state file is as it was too, unless the reset's own write
    emptied the file and then failed, which leaves the file unreadable.
    No sequence of calls on the monitor and its reply manager removes a
    chat from [sent_replies]; so a chat that is marked as replied gets the
    already-replied status from [send_auto_reply] after any such sequence,
    resets included. *)
Theorem reset_keeps_sent_replies E (ops : list op) (w : world) :
  let w1 := snd (AvitoChatMonitor.reset_processed_ids E w) in
  processed_message_ids w1 = ∅ /\
  sent_replies w1 = sent_replies w /\
  (saved_list (lit "sent_replies") (state_file w1)
   = saved_list (lit "sent_replies") (state_file w)
   \/ (disk E (disk_writes w) = Truncated /\ state_file w1 = Corrupt)) /\
  sent_replies w ⊆ sent_replies (run_ops E ops w) /\
  (forall c u, c ∈ sent_replies w ->
     fst (AutoReplyManager.send_auto_reply E c u
            (run_ops E (ops ++ [OpResetProcessedIds]) w))
     = Ok AlreadyReplied).
Proof.
  intros w1. split; [| split; [| split; [| split]]].
  - subst w1. unfold AvitoChatMonitor.reset_processed_ids.
    unfold bind at 1, modify at 1.
    destruct (still_save_ids E (set_processed_message_ids ∅ w)) as [_ H].
    rewrite H. reflexivity.
  - destruct (quiet_reset_processed_ids E w) as [H _ _]. exact H.
  - subst w1. unfold AvitoChatMonitor.reset_processed_ids.
    unfold bind at 1, modify at 1.
    exact (save_ids_keeps_saved_replies E (set_processed_message_ids ∅ w)).
  - destruct (advance_run_ops E ops w) as [H _]. exact H.
  - intros c u Hc.
    destruct (advance_run_ops E (ops ++ [OpResetProcessedIds]) w) as [H _].
    pose proof (send_auto_reply_effect E c u
                  (run_ops E (ops ++ [OpResetProcessedIds]) w)) as [_ Hr].
    cbv zeta in Hr.
    destruct (AutoReplyManager.send_auto_reply E c u _)
      as [[[| err | body] | e] w2]; cbn [fst snd] in *.
    + reflexivity.
    + destruct Hr as [Hn _]. exfalso. apply Hn, H, Hc.
    + destruct Hr as [Hn _]. exfalso. apply Hn, H, Hc.
    + contradiction.
Qed.

(** A chat replied to stays marked across a reset. *)
Lemma reset_keeps_sent_replies_witness :
  fst (AutoReplyManager.send_auto_reply (Examples.scripted []) (lit "c1") (lit "Ann")
         (run_ops (Examples.scripted []) ([] ++ [OpResetProcessedIds])
            (set_sent_replies {[ lit "c1" ]} Examples.fresh)))
  = Ok AlreadyReplied.
Proof.
  apply (reset_keeps_sent_replies (Examples.scripted []) []
           (set_sent_replies {[ lit "c1" ]} Examples.fresh)).
  simpl. set_solver.
Defined.

(** ** System messages and the reply dispatcher *)

(** The arguments [send_auto_reply] gets for a message. *)
Definition call_of (m : message) : pystr * pystr := (chat_id m, user_name m).

Definition regular (m : message) : bool := negb (is_system m).

Lemma reply_loop_calls E msgs : forall sent w,
  exists k,
    send_calls (trace (snd (AutoReplyManager.reply_loop E msgs sent w)))
    = send_calls (trace w) ++ firstn k (map call_of msgs).
Proof.
  induction msgs as [| m rest IH]; intros sent w.
  - exists 0%nat. simpl. rewrite app_nil_r. reflexivity.
  - cbn [AutoReplyManager.reply_loop].
    unfold bind at 1, liftR at 1.
    destruct (py_slice_ok (text m)) as [[] | e].
    2:{ exists 0%nat. simpl. rewrite app_nil_r. reflexivity. }
    unfold bind at 1.
    pose proof (send_auto_reply_effect E (chat_id m) (user_name m) w) as [Hc Hr].
    cbv zeta in Hc, Hr.
    destruct (AutoReplyManager.send_auto_reply E (chat_id m) (user_name m) w)
      as [[result | e] w1]; cbn [fst snd] in Hc, Hr; [| contradiction].
    unfold bind at 1, liftR at 1.
    destruct (AutoReplyManager.record_result m result sent) as [sent' | e].
    2:{ exists 1%nat. cbn [snd]. rewrite Hc. reflexivity. }
    unfold bind at 1.
    destruct rest as [| m' rest'].
    + unfold ret at 1. exists 1%nat. cbn [AutoReplyManager.reply_loop ret snd].
      rewrite Hc. reflexivity.
    + unfold emit at 1, modify at 1.
      destruct (IH sent' (set_trace (ReplyDelay :: trace w1) w1)) as [k Hk].
      exists (S k). rewrite Hk. cbn [trace set_trace send_calls].
      rewrite Hc, <- app_assoc. reflexivity.
Qed.

(** C4. The calls of [send_auto_reply] that [process_auto_replies] makes for
    a batch are, in order, calls for the first messages of the batch that
    are not system messages (all of them unless an exception ends the loop
    early); a system message is the cause of none.  For a batch of system
    messages only, nothing at all happens. *)
Theorem system_messages_never_replied E (unread_messages : list message)
    (w : world) :
  let w' := snd (AutoReplyManager.process_auto_replies E unread_messages w) in
  (exists k,
     send_calls (trace w')
     = send_calls (trace w)
       ++ firstn k (map call_of (List.filter regular unread_messages))) /\
  (forallb is_system unread_messages = true -> w' = w).
Proof.
  intros w'. subst w'. unfold AutoReplyManager.process_auto_replies.
  destruct unread_messages as [| m0 rest0].
  - split; [exists 0%nat; simpl; rewrite app_nil_r; reflexivity | reflexivity].
  - cbv zeta. fold regular.
    destruct (List.filter regular (m0 :: rest0)) as [| m rest] eqn:Hf.
    + split; [exists 0%nat; simpl; rewrite app_nil_r; reflexivity | reflexivity].
    + split; [apply reply_loop_calls |].
      intros Hall. exfalso.
      assert (In m (List.filter regular (m0 :: rest0))) as Hin
        by (rewrite Hf; left; reflexivity).
      apply filter_In in Hin. destruct Hin as [Hin Hreg].
      rewrite forallb_forall in Hall. specialize (Hall m Hin).
      unfold regular in Hreg. rewrite Hall in Hreg. discriminate.
Qed.

(** A batch with one system message: no call, no request, no change. *)
Lemma system_messages_never_replied_witness :
  snd (AutoReplyManager.process_auto_replies (Examples.scripted [])
         [ {| chat_id := lit "c1"; message_id := lit "m1";
              text := PStr (lit "api"); created := PStr [];
              created_timestamp := PInt 0; is_system := true;
              user_name := lit "Ann" |} ]
         Examples.fresh)
  = Examples.fresh.
Proof.
  apply (system_messages_never_replied (Examples.scripted [])
           [ {| chat_id := lit "c1"; message_id := lit "m1";
                text := PStr (lit "api"); created := PStr [];
                created_timestamp := PInt 0; is_system := true;
                user_name := lit "Ann" |} ]
           Examples.fresh).
  reflexivity.
Defined.

(** ** Processed message ids *)

Ltac split_res :=
  match goal with
  | |- context [match ?r with Ok _ => _ | Raise _ => _ end] =>
      lazymatch r with
      | context [match _ with _ => _ end] => fail
      | _ => destruct r
      end
  | |- context [if ?b then _ else _] =>
      lazymatch b with
      | context [match _ with _ => _ end] => fail
      | _ => destruct b eqn:?
      end
  end.

(** What one iteration of the scan does to the list and to the ids: nothing,
    or it appends one message whose id was not processed and now is. *)
Inductive scan_step (unread : list message) (w : world)
  : res (list message * gset pystr) * world -> Prop :=
| scan_same seen' :
    scan_step unread w (Ok (unread, seen'), w)
| scan_raise e :
    scan_step unread w (Raise e, w)
| scan_new m seen' w' :
    message_id m ∉ processed_message_ids w ->
    processed_message_ids w' = {[message_id m]} ∪ processed_message_ids w ->
    scan_step unread w (Ok (unread ++ [m], seen'), w').

Lemma scan_chat_step E chat unread seen w :
  scan_step unread w (AvitoChatMonitor.scan_chat E chat unread seen w).
Proof.
  unfold AvitoChatMonitor.scan_chat. cbv zeta. run_prims.
  repeat (cbn beta iota; split_res; try apply scan_same; try apply scan_raise).
  all: apply scan_new; [cbn [message_id]; eapply bool_decide_eq_false_1; eassumption | reflexivity].
Qed.

(** The messages a scan appends have pairwise different ids, none of which
    was processed before, and all of which are processed afterwards. *)
Definition fresh_ids (new : list message) (w w' : world) : Prop :=
  NoDup (map message_id new) /\
  forall m, In m new ->
    (message_id m ∉ processed_message_ids w) /\
    message_id m ∈ processed_message_ids w'.

Lemma scan_chats_ids E chats : forall unread seen w,
  let r := AvitoChatMonitor.scan_chats E chats unread seen w in
  processed_message_ids w ⊆ processed_message_ids (snd r) /\
  match fst r with
  | Ok unread' => exists new, unread' = unread ++ new /\ fresh_ids new w (snd r)
  | Raise _ => True
  end.
Proof.
  induction chats as [| chat rest IH]; intros unread seen w; cbv zeta.
  - cbn [AvitoChatMonitor.scan_chats ret fst snd]. split; [reflexivity |].
    exists []. rewrite app_nil_r. split; [reflexivity |].
    split; [constructor | intros m []].
  - cbn [AvitoChatMonitor.scan_chats]. unfold bind.
    destruct (scan_chat_step E chat unread seen w) as [seen' | e | m seen' w1 Hnew Hw1].
    + cbn [fst snd]. apply IH.
    + cbn [fst snd]. split; [reflexivity | exact I].
    + cbn [fst snd].
      specialize (IH (unread ++ [m]) seen' w1). cbv zeta in IH.
      destruct IH as [Hsub IH]. split.
      * etransitivity; [| exact Hsub]. rewrite Hw1. set_solver.
      * destruct (fst (AvitoChatMonitor.scan_chats E rest (unread ++ [m]) seen' w1))
          as [unread' | e]; [| exact I].
        destruct IH as (new & -> & Hnd & Hall).
        exists (m :: new). rewrite <- app_assoc. split; [reflexivity |].
        split.
        -- cbn [map]. constructor; [| exact Hnd].
           intros Hin. apply list_elem_of_In, in_map_iff in Hin.
           destruct Hin as (m' & Heq & Hin).
           destruct (Hall m' Hin) as [Hn _]. apply Hn. rewrite Heq, Hw1.
           set_solver.
        -- intros m' [<- | Hin].
           ++ split; [exact Hnew |]. apply Hsub. rewrite Hw1. set_solver.
           ++ destruct (Hall m' Hin) as [Hn Hy]. split; [| exact Hy].
              intros Hc. apply Hn. rewrite Hw1. set_solver.
Qed.

Lemma save_ids_returns E w :
  exists w', AvitoChatMonitor._save_processed_ids E w = (Ok tt, w').
Proof. destruct (save_ids_file E w) as (w' & H & _). eauto. Qed.

(** [get_unread_messages] always returns, and what it returns is new. *)
Lemma get_unread_messages_ids E w :
  exists unread w',
    AvitoChatMonitor.get_unread_messages E w = (Ok unread, w') /\
    processed_message_ids w ⊆ processed_message_ids w' /\
    fresh_ids unread w w'.
Proof.
  assert (forall w1 : world, fresh_ids [] w w1) as Hnil
    by (intros w1; split; [constructor | intros m []]).
  unfold AvitoChatMonitor.get_unread_messages.
  unfold catch at 1. unfold bind at 1.
  destruct (still_get_chats E false None 0%nat w) as [_ H0].
  destruct (AvitoChatMonitor.get_chats E false None 0 w) as [[chats_data | e] w0];
    cbn [snd] in H0.
  2:{ run_prims. world_simpl. do 2 eexists. split; [reflexivity |].
      world_simpl. rewrite H0. split; [reflexivity | apply Hnil]. }
  unfold bind at 1, liftR at 1.
  destruct (py_get chats_data (lit "chats") (PList [])) as [chats | e].
  2:{ run_prims. world_simpl. do 2 eexists. split; [reflexivity |].
      world_simpl. rewrite H0. split; [reflexivity | apply Hnil]. }
  unfold bind at 1, liftR at 1.
  destruct (py_len chats) as [n | e].
  2:{ run_prims. world_simpl. do 2 eexists. split; [reflexivity |].
      world_simpl. rewrite H0. split; [reflexivity | apply Hnil]. }
  unfold bind at 1, liftR at 1.
  destruct (py_iter chats) as [items | e].
  2:{ run_prims. world_simpl. do 2 eexists. split; [reflexivity |].
      world_simpl. rewrite H0. split; [reflexivity | apply Hnil]. }
  unfold bind at 1.
  pose proof (scan_chats_ids E items [] ∅ w0) as [Hsub Hr]. cbv zeta in Hsub, Hr.
  destruct (AvitoChatMonitor.scan_chats E items [] ∅ w0) as [[unread | e] w1];
    cbn [fst snd] in Hsub, Hr.
  2:{ run_prims. world_simpl. do 2 eexists. split; [reflexivity |].
      world_simpl. rewrite <- H0. split; [exact Hsub | apply Hnil]. }
  destruct Hr as (new & Hnew & Hnd & Hall). cbn [app] in Hnew. subst new.
  unfold bind at 1.
  destruct unread as [| m unread].
  - run_prims. do 2 eexists. split; [reflexivity |].
    rewrite <- H0. split; [exact Hsub | apply Hnil].
  - destruct (save_ids_returns E w1) as [w2 Hs].
    destruct (still_save_ids E w1) as [_ H2]. rewrite Hs in H2 |- *.
    cbn [snd] in H2. unfold ret. do 2 eexists. split; [reflexivity |].
    rewrite H2, <- H0. split; [exact Hsub |]. split; [exact Hnd |].
    intros m' Hin. rewrite H2, <- H0. apply Hall, Hin.
Qed.

(** The reply manager never touches the processed ids. *)
Definition same_ids (w w' : world) : Prop :=
  processed_message_ids w' = processed_message_ids w.

#[export] Instance same_ids_preorder : PreOrder same_ids.
Proof.
  split.
  - intros w. reflexivity.
  - intros w1 w2 w3 H12 H23. unfold same_ids in *. congruence.
Qed.

Lemma same_ids_of_still {A} (m : M A) : keeps still m -> keeps same_ids m.
Proof. apply keeps_weaken. intros w w' [_ H]. exact H. Qed.

Ltac same_ids_leaf :=
  first
    [ apply same_ids_of_still; solve [ eauto with keeps ]
    | intros ?; reflexivity ].

Lemma same_ids_send E c u :
  keeps same_ids (AutoReplyManager.send_auto_reply E c u).
Proof.
  unfold AutoReplyManager.send_auto_reply. keeps_split; same_ids_leaf.
Qed.

Lemma same_ids_reply_loop E msgs : forall sent,
  keeps same_ids (AutoReplyManager.reply_loop E msgs sent).
Proof.
  induction msgs as [| m rest IH]; intros sent; cbn [AutoReplyManager.reply_loop].
  - apply keeps_ret; apply _.
  - apply keeps_bind; [apply _ | apply keeps_liftR; apply _ | intros _].
    apply keeps_bind; [apply _ | apply same_ids_send | intros result].
    apply keeps_bind; [apply _ | apply keeps_liftR; apply _ | intros sent'].
    apply keeps_bind; [apply _ | | intros _; apply IH].
    destruct rest; [apply keeps_ret; apply _ | intros ?; reflexivity].
Qed.

Lemma same_ids_process E msgs :
  keeps same_ids (AutoReplyManager.process_auto_replies E msgs).
Proof.
  unfold AutoReplyManager.process_auto_replies.
  destruct msgs; [apply keeps_ret; apply _ |].
  destruct (List.filter _ _); [apply keeps_ret; apply _ |].
  apply same_ids_reply_loop.
Qed.

(** What [check_for_updates] returns as unread messages is what its call
    of [get_unread_messages] returned, or nothing; the processed ids are
    left as that call left them. *)
Lemma check_for_updates_ids E w :
  exists found w1 snap unread replies w',
    AvitoChatMonitor.get_unread_messages E
      (set_stats (set_total_checks (S (total_checks (stats w))) (stats w)) w)
    = (Ok found, w1) /\
    AvitoChatMonitor.check_for_updates E w = (Ok (snap, unread, replies), w') /\
    processed_message_ids w' = processed_message_ids w1 /\
    (unread = found \/ unread = []).
Proof.
  unfold AvitoChatMonitor.check_for_updates. cbv zeta.
  unfold bind at 1, modify at 1.
  set (w0 := set_stats _ w).
  unfold catch at 1, bind at 1.
  destruct (get_unread_messages_ids E w0) as (found & w1 & -> & _).
  exists found, w1.
  unfold bind at 1, modify at 1.
  set (w2 := set_stats _ w1).
  assert (processed_message_ids w2 = processed_message_ids w1) as Hids
    by reflexivity.
  clearbody w2.
  unfold bind at 1, liftR at 1.
  destruct (AvitoChatMonitor.log_messages (firstn 3 found)) as [[] | e].
  2:{ run_prims. do 4 eexists. split; [reflexivity |]. split; [reflexivity |].
      split; [exact Hids | right; reflexivity]. }
  unfold bind at 1, gets at 1. unfold bind at 1.
  assert (exists r w3,
    (if auto_reply_enabled w2
        && match List.filter (fun msg => negb (is_system msg)) found with
           | [] => false | _ => true end
     then
       perform results <- AutoReplyManager.process_auto_replies E found;
       perform _ <-
         modify (fun w =>
           set_stats
             (set_total_auto_replies
                (total_auto_replies (stats w) + length results)%nat (stats w)) w);
       ret results
     else ret []) w2 = (r, w3) /\
    processed_message_ids w3 = processed_message_ids w1) as (r & w3 & -> & Hids3).
  { destruct (auto_reply_enabled w2 && _).
    - unfold bind at 1.
      pose proof (same_ids_process E found w2) as H. unfold same_ids in H.
      destruct (AutoReplyManager.process_auto_replies E found w2)
        as [[results | e] w3];
        cbn [snd] in H; run_prims; do 2 eexists; (split; [reflexivity |]);
        world_simpl; congruence.
    - unfold ret. eauto. }
  clear Hids w2.
  destruct r as [replies | e].
  2:{ run_prims. do 4 eexists. split; [reflexivity |]. split; [reflexivity |].
      split; [exact Hids3 | right; reflexivity]. }
  unfold bind at 1.
  destruct (still_get_all_chats E w3) as [_ H4].
  destruct (AvitoChatMonitor.get_all_chats E w3) as [[snap | e] w4]; cbn [snd] in H4.
  2:{ run_prims. do 4 eexists. split; [reflexivity |]. split; [reflexivity |].
      split; [world_simpl; congruence | right; reflexivity]. }
  unfold bind at 1, catch at 1.
  destruct (still_dump_chats E snap w4) as [_ H5].
  destruct (dump_chats E snap w4) as [[[] | e] w5]; cbn [snd] in H5;
    run_prims; do 4 eexists; (split; [reflexivity |]); (split; [reflexivity |]);
    (split; [world_simpl; congruence | left; reflexivity]).
Qed.

(** A call other than [reset_processed_ids] leaves every processed id in
    the set, and what it surfaces is new. *)
Lemma op_surfaces E o w :
  is_reset o = false ->
  processed_message_ids w ⊆ processed_message_ids (run_op E o w) /\
  fresh_ids (surfaced_by E o w) w (run_op E o w).
Proof.
  assert (forall w1 : world, fresh_ids [] w w1) as Hnil
    by (intros w1; split; [constructor | intros m []]).
  assert (forall w1 : world,
            processed_message_ids w1 = processed_message_ids w ->
            processed_message_ids w ⊆ processed_message_ids w1 /\
            fresh_ids [] w w1) as Hsame
    by (intros w1 ->; split; [reflexivity | apply Hnil]).
  destruct o; intros Hr; try discriminate Hr;
    cbn [run_op surfaced_by].
  - apply Hsame, same_ids_send.
  - apply Hsame, same_ids_process.
  - apply Hsame. apply (still_mgr_save E w).
  - apply Hsame. apply (still_mgr_token E force_refresh w).
  - apply Hsame. apply (still_save_ids E w).
  - apply Hsame. apply (still_token E force_refresh w).
  - apply Hsame. apply (still_get_chats E unread_only limit offset w).
  - destruct (get_unread_messages_ids E w) as (unread & w1 & -> & Hsub & Hfresh).
    cbn [fst snd]. split; assumption.
  - apply Hsame. apply (still_get_all_chats E w).
  - destruct (check_for_updates_ids E w)
      as (found & w1 & snap & unread & replies & w' & Hget & -> & Hids & Hu).
    cbn [fst snd].
    destruct (get_unread_messages_ids E
                (set_stats
                   (set_total_checks (S (total_checks (stats w))) (stats w)) w))
      as (found' & w1' & Hget' & Hsub & Hnd & Hall).
    rewrite Hget in Hget'. injection Hget' as <- <-.
    cbn [processed_message_ids set_stats] in Hsub, Hall.
    split; [rewrite Hids; exact Hsub |].
    destruct Hu as [-> | ->]; [| apply Hnil].
    split; [exact Hnd |]. intros m Hin. rewrite Hids.
    destruct (Hall m Hin) as [Hn Hy]. split; assumption.
Qed.

(** C2. Over any sequence of calls on the monitor and its reply manager in
    which [reset_processed_ids] does not occur, the messages surfaced by
    [get_unread_messages] and by [check_for_updates] have pairwise
    different message ids: an id is surfaced at most once.  Every id
    surfaced was outside [processed_message_ids] when the calls started and
    is inside at the end, and none of the calls takes an id out of the
    set. *)
Theorem message_surfaced_at_most_once E (ops : list op) (w : world) :
  forallb (fun o => negb (is_reset o)) ops = true ->
  NoDup (map message_id (surfaced E ops w)) /\
  (forall m, In m (surfaced E ops w) ->
     (message_id m ∉ processed_message_ids w) /\
     message_id m ∈ processed_message_ids (run_ops E ops w)) /\
  processed_message_ids w ⊆ processed_message_ids (run_ops E ops w).
Proof.
  revert w. induction ops as [| o ops IH]; intros w Hops.
  - cbn [surfaced run_ops fold_left map]. split; [constructor |].
    split; [intros m [] | reflexivity].
  - cbn [forallb] in Hops. apply andb_true_iff in Hops.
    destruct Hops as [Ho Hops]. apply negb_true_iff in Ho.
    destruct (op_surfaces E o w Ho) as (Hsub & Hnd & Hall).
    destruct (IH (run_op E o w) Hops) as (Hnd2 & Hall2 & Hsub2).
    cbn [surfaced]. change (run_ops E (o :: ops) w)
      with (run_ops E ops (run_op E o w)).
    split; [| split].
    + rewrite map_app. apply NoDup_app. split; [exact Hnd |]. split; [| exact Hnd2].
      intros x Hx Hx2.
      apply list_elem_of_In, in_map_iff in Hx. destruct Hx as (m & <- & Hm).
      apply list_elem_of_In, in_map_iff in Hx2. destruct Hx2 as (m2 & Heq & Hm2).
      destruct (Hall m Hm) as [_ Hin]. destruct (Hall2 m2 Hm2) as [Hout _].
      apply Hout. rewrite Heq. exact Hin.
    + intros m Hin. apply in_app_or in Hin. destruct Hin as [Hin | Hin].
      * destruct (Hall m Hin) as [Hn Hy]. split; [exact Hn | apply Hsub2, Hy].
      * destruct (Hall2 m Hin) as [Hn Hy]. split; [| exact Hy].
        intros Hc. apply Hn, Hsub, Hc.
    + etransitivity; eassumption.
Qed.

(** A poll that finds a message, then a full cycle that is served the same
    chat list: the message is surfaced once. *)
Lemma message_surfaced_at_most_once_witness :
  NoDup
    (map message_id
       (surfaced
          (Examples.scripted
             [Examples.token_answer;
              Examples.chats_answer [Examples.chat_with "c1" "m1" "Hello"];
              Examples.chats_answer [Examples.chat_with "c1" "m1" "Hello"]])
          [OpGetUnreadMessages; OpCheckForUpdates] Examples.fresh)).
Proof.
  apply (message_surfaced_at_most_once
           (Examples.scripted
              [Examples.token_answer;
               Examples.chats_answer [Examples.chat_with "c1" "m1" "Hello"];
               Examples.chats_answer [Examples.chat_with "c1" "m1" "Hello"]])
           [OpGetUnreadMessages; OpCheckForUpdates] Examples.fresh).
  reflexivity.
Defined.

(** With a reset between two polls that are served the same chat list, the
    message "m1" is surfaced twice. *)
Lemma reset_resurfaces_message :
  map message_id
    (surfaced
       (Examples.scripted
          [Examples.token_answer;
           Examples.chats_answer [Examples.chat_with "c1" "m1" "Hello"];
           Examples.chats_answer [Examples.chat_with "c1" "m1" "Hello"]])
       [OpGetUnreadMessages; OpResetProcessedIds; OpGetUnreadMessages]
       Examples.fresh)
  = [lit "m1"; lit "m1"].
Proof. vm_compute. reflexivity. Qed.

(** ** User names *)

(** [d.get(k, default)] on the items of a dict. *)
Definition field (d : list (pystr * pyval)) (k : string) (default : pyval)
  : pyval :=
  match dict_lookup (lit k) d with
  | Some v => v
  | None => default
  end.

(** A name a source offers: a string that is not blank, stripped. *)
Definition clean_name (v : pyval) : option pystr :=
  match v with
  | PStr s => match str_strip s with [] => None | t => Some t end
  | _ => None
  end.

(** (a) the first participant record with a name *)
Fixpoint participant_name (users : list pyval) : option pystr :=
  match users with
  | [] => None
  | PDict u :: rest =>
      match clean_name (field u "name" PNone) with
      | Some n => Some n
      | None => participant_name rest
      end
  | _ :: rest => participant_name rest
  end.

Definition participants (d : list (pystr * pyval)) : option pystr :=
  match field d "users" PNone with
  | PList l => participant_name l
  | _ => None
  end.

(** (c) the item title of the context *)
Definition item_title_field (d : list (pystr * pyval)) : pyval :=
  match field d "context" PNone with
  | PDict c => field c "item_title" PNone
  | _ => PNone
  end.

(** (d), (e): the name made from the chat id *)
Definition id_name (E : Env) (d : list (pystr * pyval)) : pystr :=
  let chat_id := py_str E (field d "id" (PStr [])) in
  if (10 <? length chat_id)%nat
  then lit "User_" ++ last_n 8 chat_id
  else lit "Unknown User".

(** (c), (d), (e): the chain from the item title on *)
Definition late_chain (E : Env) (d : list (pystr * pyval)) : pystr :=
  match clean_name (item_title_field d) with
  | Some t => lit "User from: " ++ t
  | None => id_name E d
  end.

(** The fallback chain as the specification words it: the first
    participant name that is not empty, the chat's name, the chat's title,
    ["User from: "] and the item title, ["User_"] and the last 8 characters
    of a chat id longer than 10, ["Unknown User"]. *)
Definition priority_chain (E : Env) (d : list (pystr * pyval)) : pystr :=
  match participants d with
  | Some n => n
  | None =>
      match clean_name (field d "name" PNone) with
      | Some n => n
      | None =>
          match clean_name (field d "title" PNone) with
          | Some n => n
          | None => late_chain E d
          end
      end
  end.

(** A value that can stand where a name is expected: a string, or
    something falsy. *)
Definition name_like (v : pyval) : bool :=
  match v with
  | PStr _ => true
  | _ => negb (truthy v)
  end.

(** The participant names the loop reads, up to the first it returns, are
    strings or falsy. *)
Fixpoint participants_typed (users : list pyval) : bool :=
  match users with
  | [] => true
  | PDict u :: rest =>
      name_like (field u "name" PNone)
      && match clean_name (field u "name" PNone) with
         | Some _ => true
         | None => participants_typed rest
         end
  | _ :: rest => participants_typed rest
  end.

(** The value of [chat_data.get('name') or chat_data.get('title')], which
    is what the code strips at its second stage. *)
Definition name_or_title (d : list (pystr * pyval)) : pyval :=
  if truthy (field d "name" PNone) then field d "name" PNone
  else field d "title" PNone.

(** The context is a dict or falsy, and its item title a string or falsy. *)
Definition context_typed (d : list (pystr * pyval)) : bool :=
  match field d "context" PNone with
  | PDict c => name_like (field c "item_title" PNone)
  | v => negb (truthy v)
  end.

(** Every value the code reads before it returns has the type it expects
    there.  What it does not get to read is not constrained: after a
    participant name is found nothing else is read, and after a chat name
    the context is not. *)
Definition typed_on_path (d : list (pystr * pyval)) : bool :=
  match field d "users" PNone with
  | PList l => participants_typed l
  | _ => true
  end
  && match participants d with
     | Some _ => true
     | None =>
         name_like (name_or_title d)
         && match clean_name (name_or_title d) with
            | Some _ => true
            | None => context_typed d
            end
     end.

(** The chat's name is a string of white space only, so that it is taken
    in place of the title and then dropped, while the title holds a name;
    and no participant name comes first. *)
Definition name_hides_title (d : list (pystr * pyval)) : bool :=
  match participants d with
  | Some _ => false
  | None =>
      truthy (field d "name" PNone)
      && match clean_name (field d "name" PNone),
               clean_name (field d "title" PNone) with
         | None, Some _ => true
         | _, _ => false
         end
  end.

Lemma py_get_field d k default :
  py_get (PDict d) (lit k) default = Ok (field d k default).
Proof. reflexivity. Qed.

Lemma truthy_str_length s : truthy (PStr s) = (0 <? length s)%nat.
Proof. destruct s; reflexivity. Qed.

Lemma field_default_falsy d k v :
  truthy v = false -> clean_name v = None ->
  (truthy (field d k v) = truthy (field d k PNone)) /\
  (clean_name (field d k v) = clean_name (field d k PNone)) /\
  (truthy (field d k v) = true -> field d k v = field d k PNone).
Proof.
  intros Hv Hc. unfold field. destruct (dict_lookup (lit k) d).
  - auto.
  - rewrite Hv, Hc. split; [reflexivity | split; [reflexivity | discriminate]].
Qed.

Lemma clean_name_falsy v : truthy v = false -> clean_name v = None.
Proof. destruct v; try reflexivity. destruct s; [reflexivity | discriminate]. Qed.

Lemma name_like_falsy v : truthy v = false -> name_like v = true.
Proof. intros H. destruct v; cbn [name_like]; rewrite ?H; reflexivity. Qed.

(** A truthy value with a name in it is a string, and [strip] gives the
    name. *)
Lemma strip_clean v :
  truthy v = true ->
  match py_strip v with
  | Ok s =>
      name_like v = true /\
      clean_name v = match s with [] => None | _ => Some s end
  | Raise _ => name_like v = false
  end.
Proof.
  intros Hv. destruct v; cbn [py_strip clean_name name_like];
    try (rewrite Hv; reflexivity).
  split; [reflexivity |]. destruct (str_strip s); reflexivity.
Qed.

Lemma first_user_name_chain users :
  match first_user_name users with
  | Ok r => r = participant_name users /\ participants_typed users = true
  | Raise _ => participants_typed users = false
  end.
Proof.
  induction users as [| user rest IH]; [split; reflexivity |].
  cbn [first_user_name participant_name participants_typed].
  destruct user as [| | | | | | u |]; cbn [is_dict]; try exact IH.
  rewrite py_get_field. cbn [rbind].
  destruct (field_default_falsy u "name" (PDict []) eq_refl eq_refl)
    as (Ht & Hc & Hsame).
  rewrite Ht. destruct (truthy (field u "name" PNone)) eqn:Htr.
  - rewrite (Hsame Ht).
    pose proof (strip_clean _ Htr) as Hs.
    destruct (py_strip (field u "name" PNone)) as [s | e]; cbn [rbind].
    + destruct Hs as [Hl Hs]. rewrite Hs, Hl. cbn [andb].
      destruct s; [exact IH | split; reflexivity].
    + rewrite Hs. reflexivity.
  - rewrite (clean_name_falsy _ Htr), (name_like_falsy _ Htr). exact IH.
Qed.

Lemma users_stage_chain d :
  match match field d "users" (PList []) with
        | PList l =>
            if truthy (field d "users" (PList [])) then first_user_name l
            else Ok None
        | _ => Ok None
        end with
  | Ok r =>
      r = participants d /\
      match field d "users" PNone with
      | PList l => participants_typed l
      | _ => true
      end = true
  | Raise _ =>
      match field d "users" PNone with
      | PList l => participants_typed l
      | _ => true
      end = false
  end.
Proof.
  unfold participants, field.
  destruct (dict_lookup (lit "users") d) as [v |]; [| split; reflexivity].
  destruct v as [| | | | | l | |]; try (split; reflexivity).
  destruct l as [| u l]; [split; reflexivity |]. cbn [truthy].
  apply first_user_name_chain.
Qed.

(** One source of the chain: a truthy value is stripped and taken unless
    blank. *)
Lemma name_stage {A} (v : pyval) (f : pystr -> A) :
  match (if truthy v then
           do stripped <- py_strip v;
           match stripped with
           | [] => Ok None
           | _ => Ok (Some (f stripped))
           end
         else Ok None) with
  | Ok r => r = option_map f (clean_name v) /\ name_like v = true
  | Raise _ => name_like v = false
  end.
Proof.
  destruct (truthy v) eqn:Hv.
  - pose proof (strip_clean v Hv) as Hs.
    destruct (py_strip v) as [s | e]; cbn [rbind].
    + destruct Hs as [Hl Hs]. rewrite Hs. destruct s; split; auto.
    + exact Hs.
  - rewrite (clean_name_falsy v Hv). split; [reflexivity |].
    apply name_like_falsy, Hv.
Qed.

Lemma context_stage d :
  match (if truthy (field d "context" (PDict [])) then
           do item_title <-
             py_get (field d "context" (PDict [])) (lit "item_title") PNone;
           if truthy item_title then
             do stripped <- py_strip item_title;
             match stripped with
             | [] => Ok None
             | _ => Ok (Some (lit "User from: " ++ stripped))
             end
           else Ok None
         else Ok None) with
  | Ok r =>
      r = option_map (app (lit "User from: ")) (clean_name (item_title_field d))
      /\ context_typed d = true
  | Raise _ => context_typed d = false
  end.
Proof.
  unfold item_title_field, context_typed, field.
  destruct (dict_lookup (lit "context") d) as [v |]; [| split; reflexivity].
  destruct (truthy v) eqn:Hv.
  - destruct v as [| | | | | | c |]; cbn [py_get rbind];
      try (rewrite Hv; reflexivity).
    apply (name_stage (field c "item_title" PNone) (app (lit "User from: "))).
  - destruct v as [| | | | | | c |]; cbn [negb];
      try (rewrite Hv; split; reflexivity).
    destruct c; [split; reflexivity | discriminate].
Qed.

Lemma user_name_from_id_name E d :
  user_name_from_id E (PDict d) = Ok (id_name E d).
Proof.
  unfold user_name_from_id, id_name. rewrite py_get_field. cbn [rbind].
  rewrite truthy_str_length.
  destruct (py_str E (field d "id" (PStr []))) as [| c s]; [reflexivity |].
  change (0 <? length (c :: s))%nat with true. cbn [andb].
  destruct (10 <? length (c :: s))%nat; reflexivity.
Qed.

(** What the second stage of the code makes of the name and the title,
    against what the chain makes of them. *)
Lemma name_or_title_chain d :
  participants d = None ->
  name_like (name_or_title d) = true ->
  clean_name (name_or_title d)
  = if name_hides_title d then None
    else match clean_name (field d "name" PNone) with
         | Some n => Some n
         | None => clean_name (field d "title" PNone)
         end.
Proof.
  intros Hp Hl. unfold name_hides_title, name_or_title in *. rewrite Hp.
  destruct (truthy (field d "name" PNone)) eqn:Hn; cbn [andb].
  - destruct (clean_name (field d "name" PNone)) as [n |]; [reflexivity |].
    destruct (clean_name (field d "title" PNone)); reflexivity.
  - rewrite (clean_name_falsy _ Hn). reflexivity.
Qed.

(** Where the [try] block returns, every value read was well typed, and
    the result is the one of the chain, or of the chain without the title
    when a blank name hides it; where it raises, a value read was ill
    typed. *)
Lemma try_chain E d :
  match extract_user_name_try (PDict d) with
  | Ok r =>
      typed_on_path d = true /\
      match r with
      | Some n => n
      | None => id_name E d
      end = if name_hides_title d then late_chain E d else priority_chain E d
  | Raise _ => typed_on_path d = false
  end.
Proof.
  unfold extract_user_name_try, typed_on_path.
  rewrite !py_get_field. cbn [rbind].
  pose proof (users_stage_chain d) as Hu.
  destruct (match field d "users" (PList []) with
            | PList l => _
            | _ => _
            end) as [from_users | e]; cbn [rbind].
  2:{ rewrite Hu. reflexivity. }
  destruct Hu as [-> ->]. cbn [andb].
  destruct (participants d) as [n |] eqn:Hp.
  { split; [reflexivity |]. unfold name_hides_title, priority_chain.
    rewrite Hp. reflexivity. }
  replace (if truthy (field d "name" PNone)
           then Ok (field d "name" PNone) else Ok (field d "title" PNone))
    with (Ok (A:=pyval) (name_or_title d))
    by (unfold name_or_title; destruct (truthy (field d "name" PNone)); reflexivity).
  cbn [rbind].
  pose proof (name_stage (name_or_title d) (fun s => s)) as Hn.
  destruct (if truthy (name_or_title d) then _ else _) as [from_chat | e];
    cbn [rbind].
  2:{ rewrite Hn. reflexivity. }
  destruct Hn as [-> Hl]. rewrite Hl. cbn [andb].
  pose proof (name_or_title_chain d Hp Hl) as Hb.
  unfold priority_chain. rewrite Hp.
  destruct (clean_name (name_or_title d)) as [n |]; cbn [option_map].
  { split; [reflexivity |].
    destruct (name_hides_title d); [discriminate Hb |].
    destruct (clean_name (field d "name" PNone)) as [n1 |].
    - injection Hb as ->. reflexivity.
    - rewrite <- Hb. reflexivity. }
  pose proof (context_stage d) as Hc.
  destruct (if truthy (field d "context" (PDict [])) then _ else _)
    as [from_item | e].
  2:{ exact Hc. }
  destruct Hc as [-> Hc]. split; [exact Hc |].
  transitivity (late_chain E d).
  { unfold late_chain. destruct (clean_name (item_title_field d)); reflexivity. }
  destruct (name_hides_title d); [reflexivity |].
  destruct (clean_name (field d "name" PNone)); [discriminate Hb |].
  rewrite <- Hb. reflexivity.
Qed.

(** C8.  On every chat dict [extract_user_name] returns a string.  The
    string is the one of the priority chain (the first participant name
    that is not blank, else the chat's name, else its title, else ["User
    from: "] and the item title, else ["User_"] and the last 8 characters
    of a chat id longer than 10, else ["Unknown User"]) under two
    conditions: every value the code reads on its way has the type it
    expects there, and the chat's name is not a string of white space that
    hides a title.  When a value read is ill typed, the string is the one
    made from the chat id, whatever the later sources hold; when a blank
    name hides the title, it is the one of the chain from the item title
    on. *)
Theorem extract_user_name_total_and_ordered E (d : list (pystr * pyval)) :
  (exists s, extract_user_name E (PDict d) = Ok s) /\
  (typed_on_path d = true -> name_hides_title d = false ->
   extract_user_name E (PDict d) = Ok (priority_chain E d)) /\
  (typed_on_path d = false ->
   extract_user_name E (PDict d) = Ok (id_name E d)) /\
  (typed_on_path d = true -> name_hides_title d = true ->
   extract_user_name E (PDict d) = Ok (late_chain E d)).
Proof.
  pose proof (try_chain E d) as H. unfold extract_user_name.
  rewrite user_name_from_id_name.
  destruct (extract_user_name_try (PDict d)) as [r | e].
  - destruct H as [Ht H]. rewrite Ht.
    assert (match r with
            | Some name => Ok name
            | None => Ok (id_name E d)
            end
            = Ok (match r with Some n => n | None => id_name E d end)) as ->
      by (destruct r; reflexivity).
    rewrite H.
    split; [eauto |]. split; [intros _ ->; reflexivity |].
    split; [discriminate | intros _ ->; reflexivity].
  - rewrite H. split; [eauto |]. split; [discriminate |].
    split; [reflexivity | discriminate].
Qed.

(** A chat with a blank participant name, a number as chat name behind a
    context that is never read, and a title: the title is taken. *)
Lemma extract_user_name_total_and_ordered_witness :
  extract_user_name (Examples.scripted [])
    (PDict [(lit "users", PList [PDict [(lit "name", PStr (lit "  "))]]);
            (lit "title", PStr (lit " Bob "));
            (lit "context", PInt 5)])
  = Ok (lit "Bob").
Proof.
  apply (proj1 (proj2 (extract_user_name_total_and_ordered (Examples.scripted [])
           [(lit "users", PList [PDict [(lit "name", PStr (lit "  "))]]);
            (lit "title", PStr (lit " Bob "));
            (lit "context", PInt 5)]))); reflexivity.
Defined.

(** Two chats on which the call leaves the chain.  A participant record
    whose name is a number: the chat's name is there, and the chain takes
    it, but the call returns ["Unknown User"].  A chat name of three
    spaces: the title is there, and the chain takes it, but the call
    returns ["Unknown User"]. *)
Lemma extract_user_name_leaves_the_chain :
  (extract_user_name (Examples.scripted [])
     (PDict [(lit "users", PList [PDict [(lit "name", PInt 5)]]);
             (lit "name", PStr (lit "Bob"))])
   = Ok (lit "Unknown User")
   /\ priority_chain (Examples.scripted [])
        [(lit "users", PList [PDict [(lit "name", PInt 5)]]);
         (lit "name", PStr (lit "Bob"))]
      = lit "Bob")
  /\
  (extract_user_name (Examples.scripted [])
     (PDict [(lit "name", PStr (lit "   "));
             (lit "title", PStr (lit "Bob"))])
   = Ok (lit "Unknown User")
   /\ priority_chain (Examples.scripted [])
        [(lit "name", PStr (lit "   "));
         (lit "title", PStr (lit "Bob"))]
      = lit "Bob").
Proof. repeat split; reflexivity. Qed.

(** ** The pause between two cycles *)

Lemma sleep_loop_facts running n : forall i,
  let k := MonitorService.sleep_loop running i n in
  (k <= n)%nat /\
  (forall j, (j < k)%nat -> running (i + j)%nat = true) /\
  ((k < n)%nat -> running (i + k)%nat = false).
Proof.
  induction n as [| n IH]; intros i; cbv zeta; cbn [MonitorService.sleep_loop].
  - split; [lia |]. split; intros; lia.
  - destruct (running i) eqn:Hi.
    + destruct (IH (S i)) as (Hle & Htrue & Hstop). split; [lia |]. split.
      * intros [| j] Hj; [rewrite Nat.add_0_r; exact Hi |].
        replace (i + S j)%nat with (S i + j)%nat by lia. apply Htrue. lia.
      * intros Hlt.
        replace (i + S (MonitorService.sleep_loop running (S i) n))%nat
          with (S i + MonitorService.sleep_loop running (S i) n)%nat by lia.
        apply Hstop. lia.
    + split; [lia |]. split; [intros j Hj; lia |].
      intros _. rewrite Nat.add_0_r. exact Hi.
Qed.

(** The floor of the value of a float, when it has one. *)
Definition floor_of (x : spec_float) : option Z :=
  match x with
  | S754_zero _ => Some 0
  | S754_finite s m e => Some (Z.shiftl (if s then Zneg m else Zpos m) e)
  | _ => None
  end.

(** [q] is the floor of [a * 2^e]. *)
Definition is_floor (q a e : Z) : Prop :=
  if 0 <=? e then q = a * 2 ^ e
  else q * 2 ^ (- e) <= a < (q + 1) * 2 ^ (- e).

Lemma shiftl_is_floor a e : is_floor (Z.shiftl a e) a e.
Proof.
  unfold is_floor. destruct (0 <=? e) eqn:He.
  - apply Z.leb_le in He. apply Z.shiftl_mul_pow2, He.
  - apply Z.leb_gt in He. rewrite Z.shiftl_div_pow2 by lia.
    assert (0 < 2 ^ (- e)) as Hp by (apply Z.pow_pos_nonneg; lia).
    pose proof (Z.div_mod a (2 ^ (- e)) ltac:(lia)) as Hd.
    pose proof (Z.mod_pos_bound a (2 ^ (- e)) Hp) as Hm.
    nia.
Qed.

Lemma shiftl_pred a e : Z.shiftl a (e - 1) = Z.shiftl a e / 2.
Proof.
  destruct (Z_le_gt_dec e 0) as [He | He].
  - rewrite !Z.shiftl_div_pow2 by lia.
    replace (- (e - 1)) with (- e + 1) by lia.
    rewrite Z.pow_add_r by lia. rewrite Z.pow_1_r.
    rewrite Z.div_div by (try apply Z.pow_pos_nonneg; lia). reflexivity.
  - rewrite !Z.shiftl_mul_pow2 by lia.
    replace e with (e - 1 + 1) at 2 by lia.
    rewrite Z.pow_add_r by lia. rewrite Z.pow_1_r, Z.mul_assoc.
    rewrite Z.div_mul by lia. reflexivity.
Qed.

Lemma gt_10_whole q : MonitorService.gt_10 (MonitorService.whole q) = (10 <? q).
Proof.
  destruct q as [| p | p]; cbn [MonitorService.whole MonitorService.gt_10];
    [reflexivity | | reflexivity].
  change (0 <=? 0) with true. cbn beta iota. rewrite Z.pow_0_r, Z.mul_1_r.
  reflexivity.
Qed.

Lemma py_int_whole q :
  MonitorService.py_int (MonitorService.NFloat (MonitorService.whole q)) = Ok q.
Proof. destruct q; reflexivity. Qed.

(** [max(10, x // 2)] for a float with a value. *)
Lemma max_floor_half x q :
  floor_of x = Some q ->
  MonitorService.max_10 (MonitorService.floor_half (MonitorService.NFloat x))
  = if 10 <? q / 2
    then MonitorService.NFloat (MonitorService.whole (q / 2))
    else MonitorService.NInt 10.
Proof.
  destruct x as [s | s | | s m e]; try discriminate; intros [= <-];
    cbn [MonitorService.floor_half MonitorService.max_10].
  - reflexivity.
  - rewrite gt_10_whole, shiftl_pred. reflexivity.
Qed.

(** C9.  The sleep time of an iteration is [max(10, interval // 2)] after
    a cycle that counted unread messages and [interval] otherwise, for an
    [int] and for a [float] interval.  For an integer [I] the former is
    the maximum of 10 and the floor of [I / 2].  For a float with a value,
    whose floor is [q], it is the maximum of 10 and the floor of half the
    value, which is the floor of [q / 2]; for an infinity or a NaN it is
    10, and without unread messages [int(sleep_time)] then raises, which
    ends the loop.  The sleep is a run of one-second naps, [int(sleep_time)]
    at most, the flag being tested before each: a nap is taken only after
    the flag was read as set, the naps end early only when the flag is read
    as cleared, and once it is read as cleared at the [k]-th test no more
    than [k] naps were taken. *)
Theorem sleep_between_cycles (interval : MonitorService.number) (st : stats_t)
    (running : nat -> bool) :
  ((0 < last_unread_count st)%nat ->
   MonitorService.sleep_time interval (Some st)
   = MonitorService.max_10 (MonitorService.floor_half interval)) /\
  (last_unread_count st = 0%nat ->
   MonitorService.sleep_time interval (Some st) = interval) /\
  MonitorService.sleep_time interval None = interval /\
  (forall I,
     MonitorService.max_10 (MonitorService.floor_half (MonitorService.NInt I))
     = MonitorService.NInt (Z.max 10 (I / 2)) /\
     2 * (I / 2) <= I < 2 * (I / 2) + 2) /\
  (forall (s : bool) m e q,
     floor_of (S754_finite s m e) = Some q ->
     is_floor q (if s then Zneg m else Zpos m) e) /\
  (forall x q, floor_of x = Some q ->
     MonitorService.py_int
       (MonitorService.max_10
          (MonitorService.floor_half (MonitorService.NFloat x)))
     = Ok (Z.max 10 (q / 2)) /\
     (0 <= q -> MonitorService.py_int (MonitorService.NFloat x) = Ok q)) /\
  (forall x, floor_of x = None ->
     MonitorService.max_10 (MonitorService.floor_half (MonitorService.NFloat x))
     = MonitorService.NInt 10 /\
     exists e, MonitorService.py_int (MonitorService.NFloat x) = Raise e) /\
  (forall n, MonitorService.py_int
               (MonitorService.sleep_time interval (Some st)) = Ok n ->
     let slept := MonitorService.sleep_loop running 0 (Z.to_nat n) in
     MonitorService.seconds_slept running interval (Some st) = Ok slept /\
     (slept <= Z.to_nat n)%nat /\
     (forall i, (i < slept)%nat -> running i = true) /\
     ((slept < Z.to_nat n)%nat -> running slept = false) /\
     (forall k, (k < Z.to_nat n)%nat -> running k = false -> (slept <= k)%nat)).
Proof.
  split; [| split; [| split; [| split; [| split; [| split; [| split]]]]]].
  - intros Hpos. unfold MonitorService.sleep_time.
    destruct (0 <? last_unread_count st)%nat eqn:H; [reflexivity |].
    apply Nat.ltb_ge in H. lia.
  - intros Hz. unfold MonitorService.sleep_time. rewrite Hz. reflexivity.
  - reflexivity.
  - intros I. split; [reflexivity |].
    pose proof (Z.div_mod I 2 ltac:(lia)) as Hd.
    pose proof (Z.mod_pos_bound I 2 ltac:(lia)) as Hm. lia.
  - intros s m e q [= <-]. apply shiftl_is_floor.
  - intros x q Hq. split.
    + rewrite (max_floor_half x q Hq).
      destruct (10 <? q / 2) eqn:Hc.
      * rewrite py_int_whole. apply Z.ltb_lt in Hc. f_equal. lia.
      * apply Z.ltb_ge in Hc. cbn [MonitorService.py_int]. f_equal. lia.
    + intros Hpos. destruct x as [s | s | | s m e]; try discriminate;
        injection Hq as <-; cbn [MonitorService.py_int]; [reflexivity |].
      destruct s; [| reflexivity].
      pose proof (shiftl_is_floor (Zneg m) e) as Hf. unfold is_floor in Hf.
      destruct (0 <=? e) eqn:He.
      * apply Z.leb_le in He.
        assert (0 < 2 ^ e) by (apply Z.pow_pos_nonneg; lia). nia.
      * apply Z.leb_gt in He.
        assert (0 < 2 ^ (- e)) by (apply Z.pow_pos_nonneg; lia). nia.
  - intros x Hx. destruct x as [s | s | | s m e]; try discriminate;
      (split; [reflexivity | eexists; reflexivity]).
  - intros n Hn. cbv zeta.
    unfold MonitorService.seconds_slept. rewrite Hn. cbn [rbind].
    destruct (sleep_loop_facts running (Z.to_nat n) 0) as (Hle & Htrue & Hstop).
    cbn [Nat.add] in Htrue, Hstop.
    split; [reflexivity |]. split; [exact Hle |]. split; [exact Htrue |].
    split; [exact Hstop |].
    intros k Hk Hoff.
    destruct (Nat.le_gt_cases
                (MonitorService.sleep_loop running 0 (Z.to_nat n)) k)
      as [H | H]; [exact H |].
    rewrite (Htrue k H) in Hoff. discriminate.
Qed.

(** An interval of 45.5 seconds, as the web route passes it.  After a
    cycle with one unread message the sleep time is the float 22.0, and
    with a stop seen at the fourth test three naps are taken; after a
    cycle without unread messages the sleep time is 45.5 and the loop
    takes 45 naps when it is not stopped. *)
Lemma sleep_between_cycles_witness :
  MonitorService.sleep_time (MonitorService.of_float 45.5%float)
    (Some (set_last_unread_count 1 Examples.no_stats))
  = MonitorService.max_10
      (MonitorService.floor_half (MonitorService.of_float 45.5%float))
  /\ MonitorService.seconds_slept (fun i => (i <? 3)%nat)
       (MonitorService.of_float 45.5%float)
       (Some (set_last_unread_count 1 Examples.no_stats)) = Ok 3%nat
  /\ MonitorService.seconds_slept (fun _ => true)
       (MonitorService.of_float 45.5%float)
       (Some Examples.no_stats) = Ok 45%nat.
Proof.
  split; [| split; vm_compute; reflexivity].
  apply (sleep_between_cycles (MonitorService.of_float 45.5%float)
           (set_last_unread_count 1 Examples.no_stats)
           (fun i => (i <? 3)%nat)).
  cbn. lia.
Defined.

(** An infinite interval, which the web route accepts: after a cycle with
    unread messages the sleep time is 10, not the maximum of 10 and half
    the interval; after a cycle without unread messages [int(sleep_time)]
    raises [OverflowError] and no nap is taken. *)
Lemma sleep_with_infinite_interval :
  MonitorService.sleep_time (MonitorService.of_float infinity)
    (Some (set_last_unread_count 1 Examples.no_stats))
  = MonitorService.NInt 10
  /\ MonitorService.seconds_slept (fun _ => true)
       (MonitorService.of_float infinity) (Some Examples.no_stats)
     = Raise OverflowError.
Proof. split; vm_compute; reflexivity. Qed.

(** ** The token cache *)

(** The cached token can be used at the [reads]-th reading of the clock:
    there is one, and the clock is before its expiry. *)
Definition valid_cache (E : Env) (tok : pyval) (expires : option Z)
    (reads : nat) : bool :=
  truthy tok
  && match expires with
     | Some e => clock E reads <? e
     | None => false
     end.

(** The reading of the clock that stamps an exchange: the test of the
    cache has read the clock before when there is a token with an expiry. *)
Definition reads_at_exchange (tok : pyval) (expires : option Z) (reads : nat)
  : nat :=
  if truthy tok
  then match expires with
       | Some _ => S reads
       | None => reads
       end
  else reads.

(** [t + timedelta(seconds=expires_in - 300)] *)
Definition expiry_after (E : Env) (t : Z) (expires_in : pyval) : res Z :=
  do secs <- py_sub_300 expires_in;
  do d <- timedelta_seconds E secs;
  datetime_add t d.

(** The answer [token_data] of the token endpoint gives the token [tok]
    and, at the time [t], the expiry [e]. *)
Definition good_answer (E : Env) (token_data tok : pyval) (t e : Z) : Prop :=
  exists expires_in,
    py_getitem token_data (lit "access_token") = Ok tok /\
    py_get token_data (lit "expires_in") (PInt 86400) = Ok expires_in /\
    expiry_after E t expires_in = Ok e.

(** One exchange at the token endpoint took place between [w] and the end
    of the call [r], stamped by the [reads]-th reading of the clock.  The
    call returns a token exactly when the answer is a good one, and then
    the token and the expiry of the answer are what it returns and leaves
    in the fields [tok_of] and [exp_of]. *)
Definition token_exchanged (E : Env) (w : world) (r : res pyval * world)
    (tok_of : world -> pyval) (exp_of : world -> option Z) (reads : nat)
  : Prop :=
  net_calls (snd r) = S (net_calls w) /\
  trace (snd r) = TokenRequest :: trace w /\
  (forall tok, fst r = Ok tok ->
     exists token_data e,
       net E (net_calls w) = HttpOk token_data /\
       good_answer E token_data tok (clock E reads) e) /\
  (forall token_data tok e,
     net E (net_calls w) = HttpOk token_data ->
     good_answer E token_data tok (clock E reads) e ->
     fst r = Ok tok /\ tok_of (snd r) = tok /\ exp_of (snd r) = Some e).

Lemma expiry_after_int E t n e :
  expiry_after E t (PInt n) = Ok e -> e = t + (n - 300) * 1000000.
Proof.
  unfold expiry_after. cbn [py_sub_300 rbind timedelta_seconds].
  destruct (_ && _); cbn [rbind]; [| discriminate].
  unfold datetime_add. destruct (_ && _); [| discriminate].
  intros [= <-]. reflexivity.
Qed.

Lemma expiry_after_in_range E t n :
  -999999999 <= (n - 300) / 86400 <= 999999999 ->
  0 <= t + (n - 300) * 1000000 <= DATETIME_MAX ->
  expiry_after E t (PInt n) = Ok (t + (n - 300) * 1000000).
Proof.
  intros Hd Ht. unfold expiry_after. cbn [py_sub_300 rbind timedelta_seconds].
  replace ((-999999999 <=? (n - 300) / 86400)
           && ((n - 300) / 86400 <=? 999999999)) with true
    by (symmetry; apply andb_true_iff; split; apply Z.leb_le; lia).
  cbn [rbind]. unfold datetime_add.
  replace ((0 <=? t + (n - 300) * 1000000)
           && (t + (n - 300) * 1000000 <=? DATETIME_MAX)) with true
    by (symmetry; apply andb_true_iff; split; apply Z.leb_le; lia).
  reflexivity.
Qed.

(** The exchange failed at a step that a good answer passes. *)
Ltac exchange_failed :=
  split; [reflexivity |]; split; [reflexivity |];
  split; [intros ? [=] |];
  let Hn := fresh "Hn" in
  let Hg := fresh "Hg" in
  let Hp := fresh "Hp" in
  let He := fresh "He" in
  intros ? ? ? Hn (? & Hg & Hp & He);
  try discriminate Hn; injection Hn as <-;
  first
    [ congruence
    | match goal with
      | H2 : py_get _ _ _ = Ok ?x, H3 : py_sub_300 ?x = _ |- _ =>
          rewrite H2 in Hp; injection Hp as <-;
          unfold expiry_after in He; rewrite H3 in He; cbn [rbind] in He;
          try discriminate He;
          match goal with
          | H4 : timedelta_seconds _ _ = _ |- _ =>
              rewrite H4 in He; cbn [rbind] in He; try discriminate He
          end;
          congruence
      end ].

Ltac exchange_done token_data e H1 H2 H3 H4 Ha :=
  split; [reflexivity |]; split; [reflexivity |]; split;
  [ intros ? [= <-]; exists token_data, e; split; [reflexivity |];
    eexists; split; [exact H1 |]; split; [exact H2 |];
    unfold expiry_after; rewrite H3; cbn [rbind]; rewrite H4; cbn [rbind];
    exact Ha
  | let Hn := fresh "Hn" in
    let Hg := fresh "Hg" in
    let Hp := fresh "Hp" in
    let He := fresh "He" in
    intros ? ? ? Hn (? & Hg & Hp & He); injection Hn as <-;
    rewrite H1 in Hg; injection Hg as <-;
    rewrite H2 in Hp; injection Hp as <-;
    unfold expiry_after in He; rewrite H3 in He; cbn [rbind] in He;
    rewrite H4 in He; cbn [rbind] in He; rewrite Ha in He;
    injection He as <-;
    split; [reflexivity | split; reflexivity] ].

Lemma refresh_exchanged E w :
  token_exchanged E w (AvitoChatMonitor.refresh_token E w)
    access_token token_expires (clock_reads w).
Proof.
  unfold token_exchanged, AvitoChatMonitor.refresh_token.
  run_prims. cbn beta iota. world_simpl.
  destruct (net E (net_calls w)) as [token_data | | code |] eqn:Hnet;
    cbn [response_json]; world_simpl; try exchange_failed.
  destruct (py_getitem token_data (lit "access_token")) as [tok | e] eqn:H1;
    world_simpl; [| exchange_failed].
  destruct (py_get token_data (lit "expires_in") (PInt 86400))
    as [expires_in | e] eqn:H2; world_simpl; [| exchange_failed].
  destruct (py_sub_300 expires_in) as [secs | e] eqn:H3; world_simpl;
    [| exchange_failed].
  destruct (timedelta_seconds E secs) as [d | e] eqn:H4; world_simpl;
    [| exchange_failed].
  destruct (datetime_add _ d) as [e | e] eqn:Ha; world_simpl;
    [| exchange_failed].
  exchange_done token_data e H1 H2 H3 H4 Ha.
Qed.

Lemma token_call_unfold E w :
  AvitoChatMonitor.get_access_token E false w
  = if valid_cache E (access_token w) (token_expires w) (clock_reads w)
    then (Ok (access_token w), set_clock_reads (S (clock_reads w)) w)
    else AvitoChatMonitor.refresh_token E
           (if truthy (access_token w)
            then match token_expires w with
                 | Some _ => set_clock_reads (S (clock_reads w)) w
                 | None => w
                 end
            else w).
Proof.
  unfold valid_cache, AvitoChatMonitor.get_access_token.
  unfold bind, gets, now, ret. cbn [negb andb].
  destruct (truthy (access_token w)); cbn [andb]; [| reflexivity].
  destruct (token_expires w) as [e |]; [| reflexivity].
  destruct (clock E (clock_reads w) <? e); reflexivity.
Qed.

Lemma token_call E w :
  (valid_cache E (access_token w) (token_expires w) (clock_reads w) = true ->
   AvitoChatMonitor.get_access_token E false w
   = (Ok (access_token w), set_clock_reads (S (clock_reads w)) w)) /\
  (valid_cache E (access_token w) (token_expires w) (clock_reads w) = false ->
   token_exchanged E w (AvitoChatMonitor.get_access_token E false w)
     access_token token_expires
     (reads_at_exchange (access_token w) (token_expires w) (clock_reads w))).
Proof.
  rewrite token_call_unfold. unfold reads_at_exchange.
  split; intros ->; [reflexivity |].
  destruct (truthy (access_token w)); [| apply refresh_exchanged].
  destruct (token_expires w); [| apply refresh_exchanged].
  exact (refresh_exchanged E (set_clock_reads (S (clock_reads w)) w)).
Qed.

Lemma mgr_refresh_exchanged E w :
  token_exchanged E w (AutoReplyManager.refresh_token E w)
    mgr_access_token mgr_token_expires (clock_reads w).
Proof.
  unfold token_exchanged, AutoReplyManager.refresh_token.
  run_prims. cbn beta iota. world_simpl.
  destruct (net E (net_calls w)) as [token_data | | code |] eqn:Hnet;
    cbn [response_json]; world_simpl; try exchange_failed.
  destruct (py_getitem token_data (lit "access_token")) as [tok | e] eqn:H1;
    world_simpl; [| exchange_failed].
  destruct (py_get token_data (lit "expires_in") (PInt 86400))
    as [expires_in | e] eqn:H2; world_simpl; [| exchange_failed].
  destruct (py_sub_300 expires_in) as [secs | e] eqn:H3; world_simpl;
    [| exchange_failed].
  destruct (timedelta_seconds E secs) as [d | e] eqn:H4; world_simpl;
    [| exchange_failed].
  destruct (datetime_add _ d) as [e | e] eqn:Ha; world_simpl;
    [| exchange_failed].
  exchange_done token_data e H1 H2 H3 H4 Ha.
Qed.

Lemma mgr_token_call_unfold E w :
  AutoReplyManager.get_access_token E false w
  = if valid_cache E (mgr_access_token w) (mgr_token_expires w) (clock_reads w)
    then (Ok (mgr_access_token w), set_clock_reads (S (clock_reads w)) w)
    else AutoReplyManager.refresh_token E
           (if truthy (mgr_access_token w)
            then match mgr_token_expires w with
                 | Some _ => set_clock_reads (S (clock_reads w)) w
                 | None => w
                 end
            else w).
Proof.
  unfold valid_cache, AutoReplyManager.get_access_token.
  unfold bind, gets, now, ret. cbn [negb andb].
  destruct (truthy (mgr_access_token w)); cbn [andb]; [| reflexivity].
  destruct (mgr_token_expires w) as [e |]; [| reflexivity].
  destruct (clock E (clock_reads w) <? e); reflexivity.
Qed.

Lemma mgr_token_call E w :
  (valid_cache E (mgr_access_token w) (mgr_token_expires w) (clock_reads w) = true ->
   AutoReplyManager.get_access_token E false w
   = (Ok (mgr_access_token w), set_clock_reads (S (clock_reads w)) w)) /\
  (valid_cache E (mgr_access_token w) (mgr_token_expires w) (clock_reads w) = false ->
   token_exchanged E w (AutoReplyManager.get_access_token E false w)
     mgr_access_token mgr_token_expires
     (reads_at_exchange (mgr_access_token w) (mgr_token_expires w)
        (clock_reads w))).
Proof.
  rewrite mgr_token_call_unfold. unfold reads_at_exchange.
  split; intros ->; [reflexivity |].
  destruct (truthy (mgr_access_token w)); [| apply mgr_refresh_exchanged].
  destruct (mgr_token_expires w); [| apply mgr_refresh_exchanged].
  exact (mgr_refresh_exchanged E (set_clock_reads (S (clock_reads w)) w)).
Qed.

(** C5. For the token cache of the monitor and for the one of the reply
    manager: when a token is cached and the clock is before its expiry,
    [get_access_token()] returns the cached token and leaves everything but
    the clock as it was, so no request is made.  Otherwise exactly one
    request goes to the token endpoint; the call returns a token exactly
    when the answer has an ["access_token"] and an expiry can be computed
    from its ["expires_in"] (86400 when the answer has none), and then it
    returns and caches that token, with the expiry: the time read after
    the answer plus [expires_in - 300] seconds.  For an integer [n] this
    is that time plus [(n - 300) * 1000000] microseconds, whenever the
    result is a date [datetime] can hold. *)
Theorem token_reused_until_expiry E (w : world) :
  (valid_cache E (access_token w) (token_expires w) (clock_reads w) = true ->
   AvitoChatMonitor.get_access_token E false w
   = (Ok (access_token w), set_clock_reads (S (clock_reads w)) w)) /\
  (valid_cache E (access_token w) (token_expires w) (clock_reads w) = false ->
   token_exchanged E w (AvitoChatMonitor.get_access_token E false w)
     access_token token_expires
     (reads_at_exchange (access_token w) (token_expires w) (clock_reads w))) /\
  (valid_cache E (mgr_access_token w) (mgr_token_expires w) (clock_reads w) = true ->
   AutoReplyManager.get_access_token E false w
   = (Ok (mgr_access_token w), set_clock_reads (S (clock_reads w)) w)) /\
  (valid_cache E (mgr_access_token w) (mgr_token_expires w) (clock_reads w) = false ->
   token_exchanged E w (AutoReplyManager.get_access_token E false w)
     mgr_access_token mgr_token_expires
     (reads_at_exchange (mgr_access_token w) (mgr_token_expires w)
        (clock_reads w))) /\
  (forall t n e, expiry_after E t (PInt n) = Ok e -> e = t + (n - 300) * 1000000) /\
  (forall t n,
     -999999999 <= (n - 300) / 86400 <= 999999999 ->
     0 <= t + (n - 300) * 1000000 <= DATETIME_MAX ->
     expiry_after E t (PInt n) = Ok (t + (n - 300) * 1000000)).
Proof.
  destruct (token_call E w) as [H1 H2].
  destruct (mgr_token_call E w) as [H3 H4].
  split; [exact H1 |]. split; [exact H2 |]. split; [exact H3 |].
  split; [exact H4 |]. split.
  - intros t n e. apply expiry_after_int.
  - intros t n. apply expiry_after_in_range.
Qed.

(** On a fresh state and an endpoint that answers with the token "tok"
    for 86400 seconds: the reply manager's first call returns "tok" and
    caches it with the expiry 86100 seconds after the reading of the
    clock, and so does the monitor's; the monitor's second call returns
    the cached token and makes no request. *)
Lemma token_reused_until_expiry_witness :
  (fst (AutoReplyManager.get_access_token
          (Examples.scripted [Examples.token_answer]) false Examples.fresh)
   = Ok (PStr (lit "tok")) /\
   mgr_access_token
     (snd (AutoReplyManager.get_access_token
             (Examples.scripted [Examples.token_answer]) false Examples.fresh))
   = PStr (lit "tok") /\
   mgr_token_expires
     (snd (AutoReplyManager.get_access_token
             (Examples.scripted [Examples.token_answer]) false Examples.fresh))
   = Some (63900000000000000 + 86100 * 1000000)) /\
  (fst (AvitoChatMonitor.get_access_token
          (Examples.scripted [Examples.token_answer]) false Examples.fresh)
   = Ok (PStr (lit "tok")) /\
   access_token
     (snd (AvitoChatMonitor.get_access_token
             (Examples.scripted [Examples.token_answer]) false Examples.fresh))
   = PStr (lit "tok") /\
   token_expires
     (snd (AvitoChatMonitor.get_access_token
             (Examples.scripted [Examples.token_answer]) false Examples.fresh))
   = Some (63900000000000000 + 86100 * 1000000)) /\
  AvitoChatMonitor.get_access_token (Examples.scripted [Examples.token_answer])
    false
    (snd (AvitoChatMonitor.get_access_token
            (Examples.scripted [Examples.token_answer]) false Examples.fresh))
  = (Ok (PStr (lit "tok")),
     set_clock_reads 2
       (snd (AvitoChatMonitor.get_access_token
               (Examples.scripted [Examples.token_answer]) false Examples.fresh))).
Proof.
  split; [| split].
  - destruct (token_reused_until_expiry
                (Examples.scripted [Examples.token_answer]) Examples.fresh)
      as (_ & _ & _ & H & _).
    destruct (H eq_refl) as (_ & _ & _ & Hgood).
    apply (Hgood _ _ _ eq_refl).
    exists (PInt 86400). split; [reflexivity |]. split; reflexivity.
  - destruct (token_reused_until_expiry
                (Examples.scripted [Examples.token_answer]) Examples.fresh)
      as (_ & H & _).
    destruct (H eq_refl) as (_ & _ & _ & Hgood).
    apply (Hgood _ _ _ eq_refl).
    exists (PInt 86400). split; [reflexivity |]. split; reflexivity.
  - apply (token_reused_until_expiry
             (Examples.scripted [Examples.token_answer])
             (snd (AvitoChatMonitor.get_access_token
                     (Examples.scripted [Examples.token_answer]) false
                     Examples.fresh))).
    vm_compute. reflexivity.
Defined.

(** ** Paging through the chat list *)

(** The trace gained no chat-list request. *)
Definition no_chats_request (w w' : world) : Prop :=
  chat_offsets (trace w') = chat_offsets (trace w).

#[export] Instance no_chats_request_preorder : PreOrder no_chats_request.
Proof.
  split.
  - intros w. reflexivity.
  - intros w1 w2 w3 H12 H23. unfold no_chats_request in *. congruence.
Qed.

















(** [total_chats] of the snapshot a call returned. *)
Definition total_returned (r : res pyval * world) : option Z :=
  match fst r with
  | Ok snap => snapshot_total snap
  | Raise _ => None
  end.

(** C7, at the input that shows the defect: the first page holds 201 chats
    followed by a [null].  The exception raised at the [null] ends the
    loop after the 201 chats were appended and before the cut to
    [MAX_CHATS], so the snapshot has 201 chats, one more than
    [MAX_CHATS = 200].  The same page without the [null] goes through the
    cut and gives 200 chats. *)
Theorem get_all_chats_over_the_cap :
  total_returned
    (AvitoChatMonitor.get_all_chats
       (Examples.scripted
          [Examples.token_answer;
           Examples.chats_answer
             (repeat (Examples.chat_with "c1" "m1" "Hello") 201 ++ [PNone])])
       Examples.fresh)
  = Some 201
  /\ Z.of_nat MAX_CHATS = 200
  /\ total_returned
       (AvitoChatMonitor.get_all_chats
          (Examples.scripted
             [Examples.token_answer;
              Examples.chats_answer
                (repeat (Examples.chat_with "c1" "m1" "Hello") 201)])
          Examples.fresh)
     = Some 200.
Proof. split; [| split]; vm_compute; reflexivity. Qed.

(** ** The cycle and [last_error] *)

Ltac split_run :=
  match goal with
  | |- context [let (_, _) := ?X in _] =>
      lazymatch X with
      | context [let (_, _) := _ in _] => fail
      | context [match _ with _ => _ end] => fail
      | _ => destruct X as [[? | ?] ?]
      end
  | |- context [match ?r with Ok _ => _ | Raise _ => _ end] =>
      lazymatch r with
      | context [let (_, _) := _ in _] => fail
      | context [match _ with _ => _ end] => fail
      | _ => destruct r
      end
  | |- context [if ?b then _ else _] =>
      lazymatch b with
      | context [let (_, _) := _ in _] => fail
      | context [match _ with _ => _ end] => fail
      | _ => destruct b
      end
  | |- context [match ?d with Written => _ | NotOpened => _ | Truncated => _ end] =>
      lazymatch d with
      | context [let (_, _) := _ in _] => fail
      | context [match _ with _ => _ end] => fail
      | _ => destruct d
      end
  end.

(** [check_for_updates] never raises.  When it is over, [last_error] is
    either empty, or it is the error of an exception that reached the outer
    handler, and then the result is the empty triple. *)
Lemma check_for_updates_returns E w :
  exists triple w',
    AvitoChatMonitor.check_for_updates E w = (Ok triple, w') /\
    (last_error (stats w') = None \/
     exists e, last_error (stats w') = Some (ErrCheckForUpdates e) /\
               triple = (AvitoChatMonitor.no_chats, [], [])).
Proof.
  unfold AvitoChatMonitor.check_for_updates. cbv zeta. run_prims.
  repeat (cbn beta iota; world_simpl; try split_run).
  all: do 2 eexists; (split; [reflexivity |]); world_simpl; cbn [stats set_stats last_error set_last_error]; eauto.
Qed.

(** C3, at the input that shows the defect: the token endpoint answers
    every request with HTTP 401.  Nothing is raised and the cycle returns a
    triple with no chats, no messages and no replies; the error is recorded
    while the chats are fetched (after [get_unread_messages] the state
    holds "Error getting chats"), but at the end of the cycle [last_error]
    is [None], although the cycle did not succeed. *)
Theorem check_for_updates_forgets_401 :
  last_error
    (stats (snd (AvitoChatMonitor.get_unread_messages
                   (Examples.scripted (repeat (HttpStatus 401) 2))
                   Examples.fresh)))
  = Some (ErrGetChats (HTTPError 401))
  /\ (let r := AvitoChatMonitor.check_for_updates
                 (Examples.scripted (repeat (HttpStatus 401) 2))
                 Examples.fresh in
      match fst r with
      | Ok (snap, unread, replies) =>
          snapshot_chats snap = [] /\ unread = [] /\ replies = []
      | Raise _ => False
      end
      /\ token_requests (trace (snd r)) = 2%nat
      /\ last_error (stats (snd r)) = None).
Proof. vm_compute. repeat split. Qed.

(** ** The cap on the saved ids *)

Lemma dict_lookup_set_same k v d : dict_lookup k (dict_set k v d) = Some v.
Proof.
  induction d as [| [k0 v0] d IH]; simpl.
  - unfold str_eqb. rewrite bool_decide_eq_true_2 by reflexivity. reflexivity.
  - destruct (str_eqb k k0) eqn:Hk; simpl; rewrite Hk; [reflexivity | exact IH].
Qed.

Lemma length_last_n {A} n (l : list A) : (length (last_n n l) <= n)%nat.
Proof. unfold last_n. rewrite length_skipn. lia. Qed.

(** The saved ids are those of the set, cut to the last 1000 of the list. *)
Lemma ids_state_saved E ids t d :
  saved_list (lit "processed_message_ids") (Holds (PDict (ids_state E ids t d)))
  = Some (if (1000 <? length (list_of_set E ids))%nat
          then last_n 1000 (list_of_set E ids)
          else list_of_set E ids).
Proof.
  unfold ids_state, saved_list.
  destruct (1000 <? length (list_of_set E ids))%nat.
  - rewrite dict_lookup_set_same. reflexivity.
  - rewrite dict_lookup_set_other by (vm_compute; congruence).
    rewrite dict_lookup_set_same. reflexivity.
Qed.

(** Whenever [_save_processed_ids] rewrites the state file, the list it
    saves has at most 1000 entries, and they are the last entries, at most
    1000, of the set enumerated in the order of [list]. *)
Lemma save_ids_capped E w l :
  state_file (snd (AvitoChatMonitor._save_processed_ids E w)) <> state_file w ->
  saved_list (lit "processed_message_ids")
    (state_file (snd (AvitoChatMonitor._save_processed_ids E w))) = Some l ->
  (length l <= 1000)%nat /\
  l = last_n 1000 (list_of_set E (processed_message_ids w)).
Proof.
  destruct (save_ids_file E w) as (w' & -> & H). cbn [snd]. intros Hch Hl.
  destruct (loaded_dict (state_file w)) as [d |]; [| contradiction].
  destruct (disk E (disk_writes w)); cbn [written_file] in H;
    [| contradiction | rewrite H in Hl; discriminate Hl].
  rewrite H, ids_state_saved in Hl. injection Hl as <-.
  destruct (1000 <? length (list_of_set E (processed_message_ids w)))%nat eqn:Hn.
  - split; [apply length_last_n | reflexivity].
  - apply Nat.ltb_ge in Hn. split; [exact Hn |].
    unfold last_n. replace (_ - 1000)%nat with 0%nat by lia. reflexivity.
Qed.

Module CapExample.

(** The ids "0", "1", ..., "1000", taken as surfaced in this order: "0" is
    the oldest and "1000" the newest. *)
Definition ids : list pystr :=
  map (fun i => str_of_Z (Z.of_nat i)) (seq 0 1001).

(** An environment in which the set happens to be enumerated newest id
    first. *)
Definition newest_first : Env :=
  {| net := fun _ => HttpFail;
     clock := fun _ => 63900000000000000;
     disk := fun _ => Written;
     str_lower := Examples.ascii_lower;
     py_repr := fun _ => lit "<object>";
     strftime_formatted := fun _ => lit "<date>";
     strftime_human := fun _ => lit "<date>";
     fromtimestamp_ok := fun _ => true;
     isoformat := fun _ => lit "<date>";
     strftime_now := fun _ => lit "<date>";
     set_order := fun s => List.filter (fun x => bool_decide (x ∈ s)) (rev ids);
     timedelta_float := fun _ => None |}.

Definition full : world :=
  set_processed_message_ids (list_to_set ids) Examples.fresh.

Definition saved : option (list pyval) :=
  saved_list (lit "processed_message_ids")
    (state_file (snd (AvitoChatMonitor._save_processed_ids newest_first full))).

Definition has (id : string) (l : list pyval) : bool :=
  existsb (fun v => is_str v (lit id)) l.

End CapExample.

Lemma filter_members (s : gset pystr) (l : list pystr) :
  (forall x, In x l -> x ∈ s) ->
  List.filter (fun x => bool_decide (x ∈ s)) l = l.
Proof.
  induction l as [| a l IH]; intros H; [reflexivity |].
  cbn [List.filter].
  rewrite (bool_decide_eq_true_2 _ (H a (or_introl eq_refl))).
  f_equal. apply IH. intros x Hx. apply H. right. exact Hx.
Qed.

Lemma set_order_newest_first (s : gset pystr) :
  set_order CapExample.newest_first s
  = List.filter (fun x => bool_decide (x ∈ s)) (rev CapExample.ids).
Proof. reflexivity. Qed.

Lemma cap_example_full x :
  In x CapExample.ids -> x ∈ processed_message_ids CapExample.full.
Proof.
  intros Hx. unfold CapExample.full.
  cbn [processed_message_ids set_processed_message_ids].
  apply elem_of_list_to_set, list_elem_of_In. exact Hx.
Qed.

(** In the example the set is enumerated as the ids from the newest to the
    oldest. *)
Lemma cap_example_order :
  list_of_set CapExample.newest_first (processed_message_ids CapExample.full)
  = map PStr (rev CapExample.ids).
Proof.
  unfold list_of_set. rewrite set_order_newest_first.
  rewrite filter_members; [reflexivity |].
  intros x Hx. apply cap_example_full, in_rev. exact Hx.
Qed.

Lemma cap_example_file :
  state_file CapExample.full = Absent /\
  disk CapExample.newest_first (disk_writes CapExample.full) = Written.
Proof. split; reflexivity. Qed.

(** What the example leaves in the file: the ids "999" down to "0". *)
Lemma cap_example_saved :
  CapExample.saved
  = Some (map PStr
            (rev (map (fun i => str_of_Z (Z.of_nat i)) (seq 0 1000)))).
Proof.
  unfold CapExample.saved.
  destruct (save_ids_file CapExample.newest_first CapExample.full)
    as (w' & Hrun & H).
  rewrite Hrun. cbn [snd].
  destruct cap_example_file as [Hfile Hdisk].
  rewrite Hfile, Hdisk in H. cbn [loaded_dict written_file] in H.
  rewrite H, ids_state_saved, cap_example_order.
  assert (length (map PStr (rev CapExample.ids)) = 1001%nat) as Hlen.
  { rewrite length_map, length_rev. unfold CapExample.ids.
    rewrite length_map, length_seq. reflexivity. }
  unfold last_n. rewrite Hlen.
  change (1000 <? 1001)%nat with true. cbn beta iota.
  change (1001 - 1000)%nat with 1%nat.
  unfold CapExample.ids. change 1001%nat with (S 1000).
  rewrite seq_S, map_app, rev_app_distr. reflexivity.
Qed.

(** C6, at the input that shows the defect: 1001 ids in the set, which the
    set enumerates newest first.  The saved list has exactly 1000 entries,
    the newest id "1000" is not among them, and the oldest id "0" is. *)
Theorem save_processed_ids_drops_newest :
  option_map length CapExample.saved = Some 1000%nat
  /\ option_map (CapExample.has "1000") CapExample.saved = Some false
  /\ option_map (CapExample.has "0") CapExample.saved = Some true.
Proof.
  rewrite cap_example_saved. cbn [option_map]. split; [| split].
  - rewrite length_map, length_rev, length_map, length_seq. reflexivity.
  - vm_compute. reflexivity.
  - apply (f_equal Some). unfold CapExample.has. apply existsb_exists.
    exists (PStr (str_of_Z (Z.of_nat 0))). split; [| reflexivity].
    apply in_map. apply -> in_rev. apply in_map_iff.
    exists 0%nat. split; [reflexivity | apply in_seq; lia].
Qed.

(** * Further properties of the code *)

(** ** Statistics *)

(** The counters agree: every message counted as unread was counted as a
    system message or as a regular one. *)
Definition balanced (s : stats_t) : Prop :=
  total_unread_messages s
  = (total_system_messages s + total_regular_messages s)%nat.

(** [stats['last_user_names']] holds at most 20 entries. *)
Definition names_bounded (s : stats_t) : Prop :=
  (length (last_user_names s) <= 20)%nat.

(** [tidy w w']: the step left the auto-reply switch, the number of checks
    and the last unread count alone and kept the two properties of the
    statistics. *)
Record tidy (w w' : world) : Prop := {
  tidy_enabled : auto_reply_enabled w' = auto_reply_enabled w;
  tidy_checks : total_checks (stats w') = total_checks (stats w);
  tidy_last_unread :
    last_unread_count (stats w') = last_unread_count (stats w);
  tidy_balanced : balanced (stats w) -> balanced (stats w');
  tidy_names : names_bounded (stats w) -> names_bounded (stats w')
}.

#[export] Instance tidy_preorder : PreOrder tidy.
Proof.
  split.
  - intros w. split; auto.
  - intros w1 w2 w3 [a b l c d] [a' b' l' c' d']. split; auto; congruence.
Qed.

Lemma tidy_same_stats w w' :
  auto_reply_enabled w' = auto_reply_enabled w ->
  stats w' = stats w ->
  tidy w w'.
Proof. intros He Hs. split; rewrite ?Hs; auto. Qed.

Lemma tidy_only_error w w' m :
  auto_reply_enabled w' = auto_reply_enabled w ->
  stats w' = set_last_error m (stats w) ->
  tidy w w'.
Proof. intros He Hs. split; rewrite ?Hs; auto. Qed.

Create HintDb tidy.

Section TidyLeaves.

Variable E : Env.

Lemma tidy_now : keeps tidy (now E).
Proof. intros w. apply tidy_same_stats; reflexivity. Qed.

Lemma tidy_request e : keeps tidy (request E e).
Proof. intros w. apply tidy_same_stats; reflexivity. Qed.

Lemma tidy_emit e : keeps tidy (emit e).
Proof. intros w. apply tidy_same_stats; reflexivity. Qed.

Lemma tidy_load_state : keeps tidy load_state.
Proof.
  intros w. unfold load_state.
  destruct (state_file w); apply tidy_same_stats; reflexivity.
Qed.

Lemma tidy_dump_state v : keeps tidy (dump_state E v).
Proof.
  intros w. unfold dump_state.
  destruct (disk E (disk_writes w)); apply tidy_same_stats; reflexivity.
Qed.

Lemma tidy_dump_chats v : keeps tidy (dump_chats E v).
Proof.
  intros w. unfold dump_chats.
  destruct (disk E (disk_writes w)); apply tidy_same_stats; reflexivity.
Qed.

Lemma tidy_set_error m : keeps tidy (modify (set_error m)).
Proof. intros w. apply (tidy_only_error _ _ m); reflexivity. Qed.

Lemma length_last_n_le {A} n (l : list A) : (length (last_n n l) <= n)%nat.
Proof. unfold last_n. rewrite length_skipn. lia. Qed.

Lemma tidy_note_user_name name system :
  keeps tidy (modify (AvitoChatMonitor.note_user_name name system)).
Proof.
  intros w. unfold modify, AvitoChatMonitor.note_user_name. cbn [snd].
  split; try reflexivity; cbn [stats set_stats]; [auto |].
  intros _. unfold names_bounded. cbn [last_user_names set_last_user_names].
  destruct (20 <? _)%nat eqn:Hn.
  - apply length_last_n_le.
  - apply Nat.ltb_ge in Hn. exact Hn.
Qed.

End TidyLeaves.

#[export] Hint Resolve tidy_now tidy_request tidy_emit tidy_load_state
  tidy_dump_state tidy_dump_chats tidy_set_error tidy_note_user_name : tidy.

Ltac tidy_leaf :=
  first
    [ solve [ eauto with tidy ]
    | apply keeps_modify; intros ?; apply tidy_same_stats; reflexivity ].

Ltac tidy_split :=
  repeat first
    [ apply keeps_ret; apply _
    | apply keeps_raise; apply _
    | apply keeps_liftR; apply _
    | apply keeps_gets; apply _
    | tidy_leaf
    | apply keeps_bind; [ apply _ | | intros ? ]
    | apply keeps_catch; [ apply _ | | intros ? ]
    | match goal with
      | |- keeps _ (if ?b then _ else _) => destruct b
      | |- keeps _ (match ?x with _ => _ end) => destruct x
      end ].

Section TidyMethods.

Variable E : Env.

Lemma tidy_mgr_save : keeps tidy (AutoReplyManager._save_sent_replies E).
Proof. unfold AutoReplyManager._save_sent_replies. tidy_split. Qed.

Lemma tidy_mgr_token f : keeps tidy (AutoReplyManager.get_access_token E f).
Proof.
  unfold AutoReplyManager.get_access_token, AutoReplyManager.refresh_token.
  tidy_split.
Qed.

Lemma tidy_save_ids : keeps tidy (AvitoChatMonitor._save_processed_ids E).
Proof. unfold AvitoChatMonitor._save_processed_ids. tidy_split. Qed.

Lemma tidy_reset : keeps tidy (AvitoChatMonitor.reset_processed_ids E).
Proof.
  unfold AvitoChatMonitor.reset_processed_ids.
  apply keeps_bind; [apply _ | tidy_leaf | intros _; apply tidy_save_ids].
Qed.

Lemma tidy_token f : keeps tidy (AvitoChatMonitor.get_access_token E f).
Proof.
  unfold AvitoChatMonitor.get_access_token, AvitoChatMonitor.refresh_token.
  tidy_split.
Qed.

Lemma tidy_get_chats u l o : keeps tidy (AvitoChatMonitor.get_chats E u l o).
Proof.
  unfold AvitoChatMonitor.get_chats. cbv zeta.
  apply keeps_catch; [apply _ | | intros e; tidy_split].
  apply keeps_bind; [apply _ | apply tidy_token | intros tok].
  tidy_split.
Qed.

Lemma tidy_scan_chat chat unread seen :
  keeps tidy (AvitoChatMonitor.scan_chat E chat unread seen).
Proof. unfold AvitoChatMonitor.scan_chat. cbv zeta. tidy_split. Qed.

Lemma tidy_scan_chats chats : forall unread seen,
  keeps tidy (AvitoChatMonitor.scan_chats E chats unread seen).
Proof.
  induction chats as [| chat rest IH]; intros unread seen; simpl.
  - apply keeps_ret; apply _.
  - apply keeps_bind; [apply _ | apply tidy_scan_chat |].
    intros p. apply IH.
Qed.

Lemma tidy_get_unread_messages :
  keeps tidy (AvitoChatMonitor.get_unread_messages E).
Proof.
  unfold AvitoChatMonitor.get_unread_messages.
  apply keeps_catch; [apply _ | | intros e; tidy_split].
  apply keeps_bind; [apply _ | apply tidy_get_chats | intros chats_data].
  apply keeps_bind; [apply _ | tidy_split | intros chats].
  apply keeps_bind; [apply _ | tidy_split | intros n].
  apply keeps_bind; [apply _ | tidy_split | intros items].
  apply keeps_bind; [apply _ | apply tidy_scan_chats | intros unread].
  apply keeps_bind; [apply _ | | intros _; tidy_split].
  destruct unread; [tidy_split | apply tidy_save_ids].
Qed.

Lemma tidy_paging fuel : forall all_chats offset,
  keeps tidy (AvitoChatMonitor.paging E fuel all_chats offset).
Proof.
  induction fuel as [| fuel IH]; intros all_chats offset; simpl.
  - apply keeps_ret; apply _.
  - apply keeps_bind; [apply _ | apply tidy_get_chats |].
    intros batch. destruct (AvitoChatMonitor.after_page E all_chats batch).
    + apply IH.
    + apply keeps_ret; apply _.
Qed.

Lemma tidy_get_all_chats : keeps tidy (AvitoChatMonitor.get_all_chats E).
Proof.
  unfold AvitoChatMonitor.get_all_chats.
  apply keeps_bind; [apply _ | apply tidy_paging | intros outcome].
  tidy_split.
Qed.

Lemma tidy_send c u : keeps tidy (AutoReplyManager.send_auto_reply E c u).
Proof.
  unfold AutoReplyManager.send_auto_reply.
  apply keeps_bind; [apply _ | tidy_leaf | intros _].
  apply keeps_bind; [apply _ | tidy_split | intros replied].
  destruct (bool_decide _); [tidy_split |].
  apply keeps_bind; [apply _ | | intros token].
  - apply keeps_catch; [apply _ | | intros e; tidy_split].
    apply keeps_bind; [apply _ | apply tidy_mgr_token | intros t; tidy_split].
  - destruct token as [t | e]; [| tidy_split].
    apply keeps_bind; [apply _ | tidy_leaf | intros r].
    destruct (response_json r); [| tidy_split].
    apply keeps_bind; [apply _ | tidy_leaf | intros _].
    apply keeps_bind; [apply _ | apply tidy_mgr_save | intros _].
    tidy_split.
Qed.

Lemma tidy_reply_loop msgs : forall sent,
  keeps tidy (AutoReplyManager.reply_loop E msgs sent).
Proof.
  induction msgs as [| message rest IH]; intros sent; simpl.
  - apply keeps_ret; apply _.
  - apply keeps_bind; [apply _ | apply keeps_liftR; apply _ | intros _].
    apply keeps_bind; [apply _ | apply tidy_send | intros result].
    apply keeps_bind; [apply _ | apply keeps_liftR; apply _ | intros sent'].
    apply keeps_bind; [apply _ | | intros _; apply IH].
    destruct rest; [apply keeps_ret; apply _ | apply tidy_emit].
Qed.

Lemma tidy_process msgs :
  keeps tidy (AutoReplyManager.process_auto_replies E msgs).
Proof.
  unfold AutoReplyManager.process_auto_replies.
  destruct msgs as [| m msgs]; [apply keeps_ret; apply _ |].
  cbv zeta.
  destruct (List.filter _ _); [apply keeps_ret; apply _ | apply tidy_reply_loop].
Qed.

End TidyMethods.

#[export] Hint Resolve tidy_mgr_save tidy_mgr_token tidy_save_ids tidy_reset
  tidy_token tidy_get_chats tidy_get_unread_messages tidy_get_all_chats
  tidy_send tidy_process : tidy.

Lemma length_filter_split {A} (p : A -> bool) (l : list A) :
  length l
  = (length (List.filter p l) + length (List.filter (fun x => negb (p x)) l))%nat.
Proof.
  induction l as [| a l IH]; [reflexivity |].
  cbn [List.filter]. destruct (p a); cbn [negb length]; lia.
Qed.

(** [sound w w']: the step kept the auto-reply switch and the two
    properties of the statistics. *)
Definition sound (w w' : world) : Prop :=
  auto_reply_enabled w' = auto_reply_enabled w /\
  (balanced (stats w) -> balanced (stats w')) /\
  (names_bounded (stats w) -> names_bounded (stats w')).

#[export] Instance sound_preorder : PreOrder sound.
Proof.
  split.
  - intros w. repeat split; auto.
  - intros w1 w2 w3 (a & b & c) (a' & b' & c'). repeat split; auto; congruence.
Qed.

Lemma sound_of_tidy w w' : tidy w w' -> sound w w'.
Proof. intros [a b l c d]. repeat split; auto. Qed.

(** The part of [check_for_updates] inside its [try]: it leaves the number
    of checks alone. *)
Definition checked (w w' : world) : Prop :=
  sound w w' /\ total_checks (stats w') = total_checks (stats w).

#[export] Instance checked_preorder : PreOrder checked.
Proof.
  split.
  - intros w. split; reflexivity.
  - intros w1 w2 w3 [a b] [a' b']. split; [etransitivity; eassumption | congruence].
Qed.

Lemma checked_of_tidy w w' : tidy w w' -> checked w w'.
Proof. intros H. split; [apply sound_of_tidy, H | apply H]. Qed.

Lemma keeps_checked_tidy {A} (m : M A) : keeps tidy m -> keeps checked m.
Proof. apply keeps_weaken. exact checked_of_tidy. Qed.

Lemma checked_count unread system regular :
  unread = (system + regular)%nat ->
  keeps checked
    (modify (fun w =>
       set_stats (AvitoChatMonitor.count_messages unread system regular (stats w)) w)).
Proof.
  intros Hsum w. unfold modify. cbn [snd]. split; [| reflexivity].
  repeat split; try reflexivity; cbn [stats set_stats]; [| auto].
  unfold balanced, AvitoChatMonitor.count_messages.
  cbn [total_unread_messages total_system_messages total_regular_messages
       set_last_unread_count set_total_regular_messages
       set_total_system_messages set_total_unread_messages].
  lia.
Qed.

Lemma checked_auto_replies n :
  keeps checked
    (modify (fun w =>
       set_stats
         (set_total_auto_replies (total_auto_replies (stats w) + n)%nat (stats w))
         w)).
Proof.
  intros w. unfold modify. cbn [snd]. split; [| reflexivity].
  repeat split; auto.
Qed.

Lemma checked_body E :
  keeps checked
    (catch
       (perform unread_messages <- AvitoChatMonitor.get_unread_messages E;
        perform _ <-
          modify (fun w =>
            set_stats
              (AvitoChatMonitor.count_messages (length unread_messages)
                 (length (List.filter is_system unread_messages))
                 (length (List.filter (fun msg => negb (is_system msg))
                            unread_messages))
                 (stats w)) w);
        perform _ <-
          liftR (AvitoChatMonitor.log_messages (firstn 3 unread_messages));
        perform enabled <- gets auto_reply_enabled;
        perform auto_reply_results <-
          (if enabled
              && match List.filter (fun msg => negb (is_system msg))
                         unread_messages with
                 | [] => false
                 | _ => true
                 end
           then
             perform results <-
               AutoReplyManager.process_auto_replies E unread_messages;
             perform _ <-
               modify (fun w =>
                 set_stats
                   (set_total_auto_replies
                      (total_auto_replies (stats w) + length results)%nat
                      (stats w)) w);
             ret results
           else ret []);
        perform all_chats <- AvitoChatMonitor.get_all_chats E;
        perform _ <-
          catch (dump_chats E all_chats)
                (fun e => modify (set_error (Some (ErrSaveFile e))));
        perform _ <- modify (set_error None);
        ret (all_chats, unread_messages, auto_reply_results))
       (fun e =>
          perform _ <- modify (set_error (Some (ErrCheckForUpdates e)));
          ret (AvitoChatMonitor.no_chats, [], []))).
Proof.
  apply keeps_catch; [apply _ | | intros e].
  - apply keeps_bind;
      [apply _ | apply keeps_checked_tidy, tidy_get_unread_messages | intros unread].
    apply keeps_bind;
      [apply _ | apply checked_count, length_filter_split | intros _].
    apply keeps_bind; [apply _ | apply keeps_liftR; apply _ | intros _].
    apply keeps_bind; [apply _ | apply keeps_gets; apply _ | intros enabled].
    apply keeps_bind; [apply _ | | intros results].
    + destruct (enabled && _).
      * apply keeps_bind;
          [apply _ | apply keeps_checked_tidy, tidy_process | intros r].
        apply keeps_bind; [apply _ | apply checked_auto_replies | intros _].
        apply keeps_ret; apply _.
      * apply keeps_ret; apply _.
    + apply keeps_bind;
        [apply _ | apply keeps_checked_tidy, tidy_get_all_chats | intros all_chats].
      apply keeps_bind; [apply _ | | intros _].
      * apply keeps_catch;
          [apply _ | apply keeps_checked_tidy, tidy_dump_chats | intros e].
        apply keeps_checked_tidy, tidy_set_error.
      * apply keeps_bind;
          [apply _ | apply keeps_checked_tidy, tidy_set_error | intros _].
        apply keeps_ret; apply _.
  - apply keeps_bind;
      [apply _ | apply keeps_checked_tidy, tidy_set_error | intros _].
    apply keeps_ret; apply _.
Qed.

(** X1. Every call of [check_for_updates] adds exactly one to
    [total_checks], whether the cycle fails or not; it leaves the
    auto-reply switch as it was; and it keeps the statistics consistent:
    if [total_unread_messages] was the sum of [total_system_messages] and
    [total_regular_messages] it still is, and if [last_user_names] had at
    most 20 entries it still has. *)
Theorem check_for_updates_counts E (w : world) :
  let w' := snd (AvitoChatMonitor.check_for_updates E w) in
  total_checks (stats w') = S (total_checks (stats w)) /\
  auto_reply_enabled w' = auto_reply_enabled w /\
  (balanced (stats w) -> balanced (stats w')) /\
  (names_bounded (stats w) -> names_bounded (stats w')).
Proof.
  cbv zeta. unfold AvitoChatMonitor.check_for_updates. cbv zeta.
  unfold bind at 1, modify at 1.
  destruct (checked_body E
              (set_stats (set_total_checks (S (total_checks (stats w))) (stats w)) w))
    as [(He & Hb & Hn) Hc].
  split; [exact Hc |]. split; [exact He |]. split; [exact Hb | exact Hn].
Qed.

(** A cycle against a remote that answers nothing: one more check, and the
    counters of a fresh monitor still agree. *)
Lemma check_for_updates_counts_witness :
  balanced
    (stats (snd (AvitoChatMonitor.check_for_updates (Examples.scripted [])
                   Examples.fresh))).
Proof.
  apply (check_for_updates_counts (Examples.scripted []) Examples.fresh).
  reflexivity.
Defined.

Lemma sound_run_op E o w : sound w (run_op E o w).
Proof.
  destruct o; simpl.
  - apply sound_of_tidy, tidy_send.
  - apply sound_of_tidy, tidy_process.
  - apply sound_of_tidy, tidy_mgr_save.
  - apply sound_of_tidy, tidy_mgr_token.
  - apply sound_of_tidy, tidy_save_ids.
  - apply sound_of_tidy, tidy_reset.
  - apply sound_of_tidy, tidy_token.
  - apply sound_of_tidy, tidy_get_chats.
  - apply sound_of_tidy, tidy_get_unread_messages.
  - apply sound_of_tidy, tidy_get_all_chats.
  - unfold AvitoChatMonitor.check_for_updates. cbv zeta.
    unfold bind at 1, modify at 1.
    destruct (checked_body E
                (set_stats
                   (set_total_checks (S (total_checks (stats w))) (stats w)) w))
      as [(He & Hb & Hn) _].
    repeat split; assumption.
Qed.

(** X2. Over any sequence of calls on the monitor and its reply manager,
    statistics that start consistent stay consistent: the total of unread
    messages is the sum of the system and the regular ones, and
    [last_user_names] never holds more than 20 entries.  No call changes
    the auto-reply switch. *)
Theorem statistics_stay_consistent E (ops : list op) (w : world) :
  balanced (stats w) ->
  names_bounded (stats w) ->
  balanced (stats (run_ops E ops w)) /\
  names_bounded (stats (run_ops E ops w)) /\
  auto_reply_enabled (run_ops E ops w) = auto_reply_enabled w.
Proof.
  revert w. induction ops as [| o ops IH]; intros w Hb Hn; cbn [run_ops fold_left].
  - auto.
  - destruct (sound_run_op E o w) as (He & Hb' & Hn').
    destruct (IH (run_op E o w) (Hb' Hb) (Hn' Hn)) as (H1 & H2 & H3).
    split; [exact H1 |]. split; [exact H2 |]. rewrite <- He. exact H3.
Qed.

(** Two cycles on a fresh monitor, the first finding one message. *)
Lemma statistics_stay_consistent_witness :
  balanced
    (stats (run_ops
              (Examples.scripted
                 [Examples.token_answer;
                  Examples.chats_answer [Examples.chat_with "c1" "m1" "Hello"]])
              [OpCheckForUpdates; OpCheckForUpdates] Examples.fresh)).
Proof.
  apply (statistics_stay_consistent
           (Examples.scripted
              [Examples.token_answer;
               Examples.chats_answer [Examples.chat_with "c1" "m1" "Hello"]])
           [OpCheckForUpdates; OpCheckForUpdates] Examples.fresh).
  - reflexivity.
  - unfold names_bounded. cbn. lia.
Defined.

(** X3. [check_for_updates] never raises, and it ends in one of two ways.
    Either [last_error] is empty and the call returns the messages that
    [get_unread_messages] found; or an exception reached the outer handler,
    [last_error] holds its text, and the call returns no chats, no messages
    and no replies, whatever was found before the exception.  In both cases
    [last_unread_count] is the number of messages that
    [get_unread_messages] found in this very cycle. *)
Theorem check_for_updates_outcome E (w : world) :
  exists found w1 snap unread replies w',
    AvitoChatMonitor.get_unread_messages E
      (set_stats (set_total_checks (S (total_checks (stats w))) (stats w)) w)
    = (Ok found, w1) /\
    AvitoChatMonitor.check_for_updates E w = (Ok (snap, unread, replies), w') /\
    last_unread_count (stats w') = length found /\
    ((last_error (stats w') = None /\ unread = found)
     \/
     (exists e, last_error (stats w') = Some (ErrCheckForUpdates e) /\
        snap = AvitoChatMonitor.no_chats /\ unread = [] /\ replies = [])).
Proof.
  unfold AvitoChatMonitor.check_for_updates. cbv zeta.
  unfold bind at 1, modify at 1.
  set (w0 := set_stats _ w).
  unfold catch at 1, bind at 1.
  destruct (get_unread_messages_ids E w0) as (found & w1 & -> & _).
  exists found, w1.
  unfold bind at 1, modify at 1.
  set (w2 := set_stats _ w1).
  assert (last_unread_count (stats w2) = length found) as Hcount by reflexivity.
  clearbody w2.
  unfold bind at 1, liftR at 1.
  destruct (AvitoChatMonitor.log_messages (firstn 3 found)) as [[] | e].
  2:{ run_prims. do 4 eexists. split; [reflexivity |]. split; [reflexivity |].
      split; [exact Hcount |]. right. eauto. }
  unfold bind at 1, gets at 1. unfold bind at 1.
  assert (exists r w3,
    (if auto_reply_enabled w2
        && match List.filter (fun msg => negb (is_system msg)) found with
           | [] => false | _ => true end
     then
       perform results <- AutoReplyManager.process_auto_replies E found;
       perform _ <-
         modify (fun w =>
           set_stats
             (set_total_auto_replies
                (total_auto_replies (stats w) + length results)%nat (stats w)) w);
       ret results
     else ret []) w2 = (r, w3) /\
    last_unread_count (stats w3) = length found) as (r & w3 & -> & Hcount3).
  { destruct (auto_reply_enabled w2 && _).
    - unfold bind at 1.
      pose proof (tidy_last_unread _ _ (tidy_process E found w2)) as H.
      destruct (AutoReplyManager.process_auto_replies E found w2) as [[results | e] w3];
        cbn [snd] in H; run_prims; do 2 eexists; (split; [reflexivity |]);
        world_simpl; cbn [stats set_stats]; try (rewrite <- Hcount, <- H; reflexivity).
    - unfold ret. eauto. }
  clear Hcount w2.
  destruct r as [replies | e].
  2:{ run_prims. do 4 eexists. split; [reflexivity |]. split; [reflexivity |].
      split; [exact Hcount3 |]. right. eauto. }
  unfold bind at 1.
  pose proof (tidy_last_unread _ _ (tidy_get_all_chats E w3)) as H4.
  destruct (AvitoChatMonitor.get_all_chats E w3) as [[snap | e] w4]; cbn [snd] in H4.
  2:{ run_prims. do 4 eexists. split; [reflexivity |]. split; [reflexivity |].
      split; [world_simpl; cbn [last_unread_count set_last_error]; congruence |]. right. eauto. }
  unfold bind at 1.
  assert (exists w5,
    catch (dump_chats E snap)
          (fun e => modify (set_error (Some (ErrSaveFile e)))) w4 = (Ok tt, w5) /\
    last_unread_count (stats w5) = length found) as (w5 & -> & Hcount5).
  { unfold catch.
    pose proof (tidy_last_unread _ _ (tidy_dump_chats E snap w4)) as H5.
    destruct (dump_chats E snap w4) as [[[] | e] w5]; cbn [snd] in H5.
    - eexists. split; [reflexivity |]. congruence.
    - unfold modify. eexists. split; [reflexivity |].
      cbn [stats set_error set_stats]. cbn. congruence. }
  run_prims. do 4 eexists. split; [reflexivity |]. split; [reflexivity |].
  split; [exact Hcount5 |]. left. split; reflexivity.
Qed.

(** ** What [process_auto_replies] reports *)

(** [reported w0 w s]: since [w0] exactly one reply went to the chat of the
    entry [s], which was not marked in [w0] and is marked in [w]. *)
Definition reported (w0 w : world) (s : sent_reply) : Prop :=
  (sr_chat_id s ∉ sent_replies w0) /\
  sr_chat_id s ∈ sent_replies w /\
  replies_sent (sr_chat_id s) (trace w)
  = S (replies_sent (sr_chat_id s) (trace w0)).

(** The invariant of the loop: no mark was lost, an unmarked chat got no
    reply, and the entries collected so far are for different chats and
    are all [reported]. *)
Definition accounted (w0 w : world) (sent : list sent_reply) : Prop :=
  sent_replies w0 ⊆ sent_replies w /\
  (forall c, c ∉ sent_replies w ->
     replies_sent c (trace w) = replies_sent c (trace w0)) /\
  NoDup (map sr_chat_id sent) /\
  Forall (reported w0 w) sent.

(** The entry comes from the regular message [m]. *)
Definition reply_to (m : message) (s : sent_reply) : Prop :=
  is_system m = false /\
  sr_chat_id s = chat_id m /\
  sr_user_name s = user_name m /\
  sr_original_message_id s = message_id m.

Lemma record_result_cases m result sent sent' :
  AutoReplyManager.record_result m result sent = Ok sent' ->
  sent' = sent \/
  exists body s,
    result = SendResponse body /\ sent' = sent ++ [s] /\
    sr_chat_id s = chat_id m /\ sr_user_name s = user_name m /\
    sr_original_message_id s = message_id m.
Proof.
  unfold AutoReplyManager.record_result.
  destruct result as [| err | body].
  - intros [= <-]. left. reflexivity.
  - intros [= <-]. left. reflexivity.
  - unfold rbind.
    destruct (py_contains (lit "error") body) as [[] | e]; [| | discriminate].
    + destruct (py_getitem body (lit "error")); [| discriminate].
      intros [= <-]. left. reflexivity.
    + destruct (py_get body (lit "status") PNone) as [status | e]; [| discriminate].
      destruct (is_str status (lit "already_replied")).
      * intros [= <-]. left. reflexivity.
      * destruct (py_get body (lit "id") PNone) as [id | e]; [| discriminate].
        intros [= <-]. right. do 2 eexists.
        split; [reflexivity |]. split; [reflexivity |]. auto.
Qed.

Lemma accounted_trace w0 w sent e :
  (forall c, replies_sent c (e :: trace w) = replies_sent c (trace w)) ->
  accounted w0 w sent -> accounted w0 (set_trace (e :: trace w) w) sent.
Proof.
  intros He (Hsub & Hun & Hnd & Hall). unfold accounted.
  world_simpl. split; [exact Hsub |]. split.
  - intros c Hc. rewrite He. apply Hun, Hc.
  - split; [exact Hnd |]. eapply Forall_impl; [exact Hall |].
    intros s (H1 & H2 & H3). unfold reported. world_simpl.
    rewrite He. auto.
Qed.

Lemma accounted_send E m sent sent' result w0 w w' :
  accounted w0 w sent ->
  AutoReplyManager.send_auto_reply E (chat_id m) (user_name m) w = (Ok result, w') ->
  AutoReplyManager.record_result m result sent = Ok sent' ->
  accounted w0 w' sent'.
Proof.
  intros (Hsub & Hun & Hnd & Hall) Hsend Hrec.
  pose proof (send_auto_reply_effect E (chat_id m) (user_name m) w) as [_ Heff].
  cbv zeta in Heff. rewrite Hsend in Heff. cbn [fst snd] in Heff.
  destruct result as [| err | body].
  - destruct Heff as [_ ->]. cbn in Hrec. injection Hrec as <-.
    apply accounted_trace; [reflexivity |].
    unfold accounted; auto.
  - destruct Heff as (_ & Hs & Hr). cbn in Hrec. injection Hrec as <-.
    unfold accounted. rewrite Hs. split; [exact Hsub |]. split.
    + intros c Hc. rewrite Hr. apply Hun, Hc.
    + split; [exact Hnd |]. eapply Forall_impl; [exact Hall |].
      intros s (H1 & H2 & H3). unfold reported. rewrite Hs, Hr. auto.
  - destruct Heff as (Hnew & Hs & Hr).
    assert (forall s, reported w0 w s -> reported w0 w' s) as Hold.
    { intros s (H1 & H2 & H3). unfold reported. rewrite Hs, Hr.
      split; [exact H1 |]. split; [set_solver |].
      destruct (str_eqb (sr_chat_id s) (chat_id m)) eqn:Heq; [| exact H3].
      apply str_eqb_true in Heq. rewrite Heq in H2. contradiction. }
    assert (accounted w0 w' sent) as Hsame.
    { unfold accounted. rewrite Hs. split; [set_solver |]. split.
      - intros c Hc. rewrite Hr.
        destruct (str_eqb c (chat_id m)) eqn:Heq.
        + apply str_eqb_true in Heq. set_solver.
        + cbn [Nat.add]. apply Hun. set_solver.
      - split; [exact Hnd |]. eapply Forall_impl; [exact Hall | exact Hold]. }
    destruct (record_result_cases _ _ _ _ Hrec)
      as [-> | (body' & s & _ & -> & Hc & _)]; [exact Hsame |].
    destruct Hsame as (Hsub' & Hun' & _ & Hall').
    split; [exact Hsub' |]. split; [exact Hun' |]. split.
    + rewrite map_app. cbn [map]. apply NoDup_app. split; [exact Hnd |]. split.
      * intros c Hin Hin'. apply list_elem_of_In in Hin, Hin'.
        destruct Hin' as [<- | []]. apply in_map_iff in Hin.
        destruct Hin as (s' & Heq & Hin).
        rewrite Forall_forall in Hall.
        apply list_elem_of_In, Hall in Hin. destruct Hin as (_ & H2 & _).
        rewrite Heq, Hc in H2. contradiction.
      * apply NoDup_singleton.
    + apply Forall_app. split; [exact Hall' |]. constructor; [| constructor].
      unfold reported. rewrite Hc, Hs, Hr.
      split; [intros Hin; apply Hnew, Hsub, Hin |]. split; [set_solver |].
      replace (str_eqb (chat_id m) (chat_id m)) with true
        by (symmetry; apply str_eqb_true; reflexivity).
      cbn [Nat.add]. f_equal. apply Hun, Hnew.
Qed.

Lemma reply_loop_reports E w0 msgs : forall sent w,
  accounted w0 w sent ->
  match AutoReplyManager.reply_loop E msgs sent w with
  | (Ok replies, w') =>
      accounted w0 w' replies /\
      exists new, replies = sent ++ new /\
        Forall (fun s => exists m, In m msgs /\
                  sr_chat_id s = chat_id m /\ sr_user_name s = user_name m /\
                  sr_original_message_id s = message_id m) new
  | (Raise _, _) => True
  end.
Proof.
  induction msgs as [| m rest IH]; intros sent w Hacc.
  - cbn [AutoReplyManager.reply_loop]. unfold ret. split; [exact Hacc |].
    exists []. rewrite app_nil_r. split; [reflexivity | constructor].
  - cbn [AutoReplyManager.reply_loop].
    unfold bind at 1, liftR at 1.
    destruct (py_slice_ok (text m)) as [[] | e]; [| exact I].
    unfold bind at 1.
    destruct (AutoReplyManager.send_auto_reply E (chat_id m) (user_name m) w)
      as [[result | e] w1] eqn:Hsend; [| exact I].
    unfold bind at 1, liftR at 1.
    destruct (AutoReplyManager.record_result m result sent) as [sent' | e] eqn:Hrec;
      [| exact I].
    pose proof (accounted_send E m sent sent' result w0 w w1 Hacc Hsend Hrec) as Hacc1.
    assert (exists w2,
      (match rest with [] => ret tt | _ => emit ReplyDelay end) w1 = (Ok tt, w2) /\
      accounted w0 w2 sent') as (w2 & Hw2 & Hacc2).
    { destruct rest.
      - unfold ret. eauto.
      - unfold emit, modify. eexists. split; [reflexivity |].
        apply accounted_trace; [reflexivity | exact Hacc1]. }
    unfold bind at 1. rewrite Hw2.
    specialize (IH sent' w2 Hacc2).
    destruct (AutoReplyManager.reply_loop E rest sent' w2) as [[replies | e] w3];
      [| exact I].
    destruct IH as (Hacc3 & new & -> & Hnew). split; [exact Hacc3 |].
    assert (Forall (fun s => exists m0, In m0 (m :: rest) /\
                  sr_chat_id s = chat_id m0 /\ sr_user_name s = user_name m0 /\
                  sr_original_message_id s = message_id m0) new) as Hnew'.
    { eapply Forall_impl; [exact Hnew |].
      intros s (m0 & Hin & H). exists m0. split; [right; exact Hin | exact H]. }
    destruct (record_result_cases _ _ _ _ Hrec)
      as [-> | (body & s & _ & -> & Hc & Hu & Ho)].
    + exists new. split; [reflexivity | exact Hnew'].
    + exists (s :: new). rewrite <- app_assoc. split; [reflexivity |].
      constructor; [| exact Hnew'].
      exists m. split; [left; reflexivity | auto].
Qed.

(** X4. The list that [process_auto_replies] returns only names replies
    that were sent: each entry belongs to a regular message of the input,
    its chat was unmarked before the call and is marked after it, and
    during the call exactly one reply went to that chat.  No two entries
    are for the same chat. *)
Theorem process_auto_replies_reports_sent E (unread_messages : list message)
    (w : world) :
  match AutoReplyManager.process_auto_replies E unread_messages w with
  | (Ok replies, w') =>
      NoDup (map sr_chat_id replies) /\
      Forall (fun s =>
        reported w w' s /\
        exists m, In m unread_messages /\ reply_to m s) replies
  | (Raise _, _) => True
  end.
Proof.
  assert (accounted w w []) as Hacc0.
  { split; [reflexivity |]. split; [reflexivity |].
    split; [constructor | constructor]. }
  assert (forall l w', NoDup (map sr_chat_id []) /\
            Forall (fun s => reported w w' s /\
              exists m : message, In m l /\ reply_to m s) []) as Hnil
    by (intros l w'; split; constructor).
  unfold AutoReplyManager.process_auto_replies.
  destruct unread_messages as [| m0 rest0]; [apply (Hnil [] w) |].
  set (unread_messages := m0 :: rest0).
  destruct (List.filter (fun msg => negb (is_system msg)) unread_messages)
    as [| m1 rest1] eqn:Hf; [apply (Hnil unread_messages w) |].
  rewrite <- Hf.
  pose proof (reply_loop_reports E w
    (List.filter (fun msg => negb (is_system msg)) unread_messages) [] w Hacc0) as H.
  destruct (AutoReplyManager.reply_loop E _ [] w) as [[replies | e] w']; [| exact I].
  destruct H as ((_ & _ & Hnd & Hall) & new & Hnew & Hfrom).
  cbn [app] in Hnew. subst new. split; [exact Hnd |].
  rewrite Forall_forall in Hall, Hfrom |- *.
  intros s Hin. split; [apply Hall, Hin |].
  destruct (Hfrom s Hin) as (m & Hm & Hc & Hn & Ho).
  apply filter_In in Hm. destruct Hm as [Hm Hreg].
  exists m. split; [exact Hm |].
  split; [destruct (is_system m); [discriminate | reflexivity] | auto].
Qed.

(** X5. With auto-reply switched off, a cycle of [check_for_updates] sends
    nothing: [send_auto_reply] is not entered, no reply goes to any chat,
    no chat is marked as replied, and the list of replies the cycle
    returns is empty. *)
Theorem no_reply_when_disabled E (w : world) :
  auto_reply_enabled w = false ->
  let r := AvitoChatMonitor.check_for_updates E w in
  send_calls (trace (snd r)) = send_calls (trace w) /\
  (forall c, replies_sent c (trace (snd r)) = replies_sent c (trace w)) /\
  sent_replies (snd r) = sent_replies w /\
  exists snap unread, fst r = Ok (snap, unread, []).
Proof.
  intros Hoff. cbv zeta.
  enough (exists snap unread w',
            AvitoChatMonitor.check_for_updates E w = (Ok (snap, unread, []), w') /\
            quiet w w')
    as (snap & unread & w' & -> & [Hs Hr Hc]) by (cbn [fst snd]; eauto 10).
  unfold AvitoChatMonitor.check_for_updates. cbv zeta.
  unfold bind at 1, modify at 1.
  set (w0 := set_stats _ w).
  assert (quiet w w0) as Hq0 by (apply quiet_intro; reflexivity).
  assert (auto_reply_enabled w0 = false) as Hoff0 by exact Hoff.
  clearbody w0.
  unfold catch at 1, bind at 1.
  pose proof (quiet_get_unread_messages E w0) as Hq1.
  pose proof (tidy_enabled _ _ (tidy_get_unread_messages E w0)) as He1.
  destruct (AvitoChatMonitor.get_unread_messages E w0) as [[unread | e] w1];
    cbn [snd] in Hq1, He1.
  2:{ run_prims. do 3 eexists. split; [reflexivity |].
      etransitivity; [exact Hq0 |]. etransitivity; [exact Hq1 |].
      apply quiet_intro; reflexivity. }
  unfold bind at 1, modify at 1.
  set (w2 := set_stats _ w1).
  assert (quiet w w2) as Hq2.
  { etransitivity; [exact Hq0 |]. etransitivity; [exact Hq1 |].
    apply quiet_intro; reflexivity. }
  assert (auto_reply_enabled w2 = false) as Hoff2
    by (unfold w2; world_simpl; congruence).
  clearbody w2. clear Hq0 Hq1 He1 Hoff0 w0 w1.
  unfold bind at 1, liftR at 1.
  destruct (AvitoChatMonitor.log_messages (firstn 3 unread)) as [[] | e].
  2:{ run_prims. do 3 eexists. split; [reflexivity |].
      etransitivity; [exact Hq2 |]. apply quiet_intro; reflexivity. }
  unfold bind at 1, gets at 1. rewrite Hoff2. cbn [andb].
  unfold bind at 1, ret at 1. unfold bind at 1.
  pose proof (still_quiet _ _ (still_get_all_chats E w2)) as Hq3.
  destruct (AvitoChatMonitor.get_all_chats E w2) as [[snap | e] w3];
    cbn [snd] in Hq3.
  2:{ run_prims. do 3 eexists. split; [reflexivity |].
      etransitivity; [exact Hq2 |]. etransitivity; [exact Hq3 |].
      apply quiet_intro; reflexivity. }
  unfold bind at 1, catch at 1.
  pose proof (still_quiet _ _ (still_dump_chats E snap w3)) as Hq4.
  destruct (dump_chats E snap w3) as [[[] | e] w4]; cbn [snd] in Hq4;
    run_prims; do 3 eexists; (split; [reflexivity |]);
    (etransitivity; [exact Hq2 |]); (etransitivity; [exact Hq3 |]);
    (etransitivity; [exact Hq4 |]); apply quiet_intro; reflexivity.
Qed.

(** A cycle that finds a regular message while auto-reply is off. *)
Lemma no_reply_when_disabled_witness :
  send_calls
    (trace (snd (AvitoChatMonitor.check_for_updates
                   (Examples.scripted
                      [Examples.token_answer;
                       Examples.chats_answer
                         [Examples.chat_with "c1" "m1" "Hello"]])
                   (set_auto_reply_enabled false Examples.fresh))))
  = [].
Proof.
  apply (no_reply_when_disabled
           (Examples.scripted
              [Examples.token_answer;
               Examples.chats_answer [Examples.chat_with "c1" "m1" "Hello"]])
           (set_auto_reply_enabled false Examples.fresh)).
  reflexivity.
Defined.

(** ** What [get_chats] hands to its callers *)

Lemma refresh_ok_stats E w tok w' :
  AvitoChatMonitor.refresh_token E w = (Ok tok, w') -> stats w' = stats w.
Proof.
  unfold AvitoChatMonitor.refresh_token.
  run_prims. cbn beta iota. world_simpl.
  destruct (net E (net_calls w)) as [token_data | | code |];
    cbn [response_json]; world_simpl; try discriminate.
  repeat (world_simpl; split_run); world_simpl; intros H; try discriminate H;
    injection H as <- <-; reflexivity.
Qed.

Lemma token_ok_stats E f w tok w' :
  AvitoChatMonitor.get_access_token E f w = (Ok tok, w') -> stats w' = stats w.
Proof.
  unfold AvitoChatMonitor.get_access_token.
  unfold bind at 1, gets at 1. unfold bind at 1, gets at 1. unfold bind at 1.
  destruct (negb f && truthy (access_token w)).
  - destruct (token_expires w) as [e |].
    + unfold bind at 1, now at 1, ret at 1.
      destruct (clock E (clock_reads w) <? e).
      * unfold ret. intros [= <- <-]. reflexivity.
      * intros H. apply refresh_ok_stats in H. exact H.
    + unfold ret at 1. apply refresh_ok_stats.
  - unfold ret at 1. apply refresh_ok_stats.
Qed.

(** X6. [get_chats] never raises and always returns a dict whose ["chats"]
    entry (or the default [[]]) has a length, so that the [.get('chats',
    [])] and [len] of its callers cannot fail.  Either the call leaves
    [last_error] as it was and makes the request, or it records "Error
    getting chats" and returns [{"chats": []}]. *)
Theorem get_chats_always_answers E (unread_only : bool) (limit : option nat)
    (offset : nat) (w : world) :
  exists d chats n w',
    AvitoChatMonitor.get_chats E unread_only limit offset w = (Ok (PDict d), w') /\
    py_get (PDict d) (lit "chats") (PList []) = Ok chats /\
    py_len chats = Ok n /\
    ((last_error (stats w') = last_error (stats w) /\
      exists body, net E (Nat.pred (net_calls w')) = HttpOk body /\
        PDict d = AvitoChatMonitor._process_timestamps E body)
     \/
     (PDict d = AvitoChatMonitor.no_chats /\
      exists e, last_error (stats w') = Some (ErrGetChats e))).
Proof.
  unfold AvitoChatMonitor.get_chats. cbv zeta.
  unfold catch at 1, bind at 1.
  destruct (AvitoChatMonitor.get_access_token E false w) as [[tok | e] w0] eqn:Ht.
  2:{ run_prims. exists [(lit "chats", PList [])], (PList []), 0%nat. eexists.
      split; [reflexivity |]. split; [reflexivity |]. split; [reflexivity |].
      right. split; [reflexivity |]. eexists. reflexivity. }
  apply token_ok_stats in Ht.
  run_prims. cbn beta iota. world_simpl.
  destruct (net E (net_calls w0)) as [body | | code |] eqn:Hnet;
    cbn [response_json]; world_simpl.
  2,3,4: exists [(lit "chats", PList [])], (PList []), 0%nat; eexists;
    (split; [reflexivity |]); (split; [reflexivity |]); (split; [reflexivity |]);
    right; (split; [reflexivity |]); eexists; reflexivity.
  destruct (AvitoChatMonitor._process_timestamps E body) as [| | | | | | d |] eqn:Hp;
    cbn [py_get]; world_simpl;
    try (exists [(lit "chats", PList [])], (PList []), 0%nat; eexists;
         (split; [reflexivity |]); (split; [reflexivity |]); (split; [reflexivity |]);
         right; (split; [reflexivity |]); eexists; reflexivity).
  destruct (py_len (match dict_lookup (lit "chats") d with
                    | Some v => v
                    | None => PList []
                    end)) as [n | e] eqn:Hlen; world_simpl.
  - exists d. do 3 eexists. split; [reflexivity |]. split; [reflexivity |].
    split; [exact Hlen |]. left. world_simpl. split; [congruence |].
    exists body. cbn [Nat.pred]. split; [exact Hnet | symmetry; exact Hp].
  - exists [(lit "chats", PList [])], (PList []), 0%nat; eexists.
    split; [reflexivity |]. split; [reflexivity |]. split; [reflexivity |].
    right. split; [reflexivity |]. eexists. reflexivity.
Qed.

(** ** The phrases of [SYSTEM_MESSAGES] *)







(** ** [_process_timestamps] keeps the fields of a dict *)










(** ** Reading the state file back *)

(** The two methods that read [monitor_state.json] when the monitor and
    its reply manager are constructed.  The sets of the state hold
    strings, so a file from which [set(...)] would build a set with a
    number, a boolean or [None] in it has no counterpart here: for such a
    file the methods below give [None]. *)
Module Loading.







End Loading.

















(** ** A reply is not repeated after a restart *)

(** [same_disk w w']: the step neither wrote the state file nor used up an
    answer of the disk. *)
Definition same_disk (w w' : world) : Prop :=
  state_file w' = state_file w /\ disk_writes w' = disk_writes w.

#[export] Instance same_disk_preorder : PreOrder same_disk.
Proof.
  split.
  - intros w. split; reflexivity.
  - intros w1 w2 w3 [a b] [a' b']. split; congruence.
Qed.





